(** * Milvus ingestion pipeline: a shallow embedding of the Python sources

    The development follows the repository file by file:
    - [Py]: the fragments of Python's built-ins the sources rely on
      ([str.strip], [str.join], [str], [pathlib] names, [json]);
    - [Preview], [Real], [Ingest]: the three copies of [build_embedding_text];
    - [Normalize]: [src/normalize_and_move.py];
    - [Ingest]: [src/ingest_to_milvus.py];
    - [Watcher]: the sweep of [src/watcher.py].

    Text is a [string] of 8-bit characters, the UTF-8 bytes of a [str].
    The seven-bit range is treated exactly as Python treats it; characters
    above 127 are opaque (neither white space, letters nor digits), and
    files are taken to hold well-formed UTF-8.  Integers are unbounded,
    the interpreter's limit on the digits of an [int] being taken to be
    off.  Floating-point numbers are carried as the literal they were
    read from and never computed with. *)

From Stdlib Require Import ZArith Ascii String List Bool Lia.
From Stdlib Require Import DecimalString Decimal DecimalZ DecimalN DecimalPos.
From stdpp Require Import base gmap strings list.

Local Open Scope Z_scope.

(* ===================================================================== *)
(** * Python built-ins *)
(* ===================================================================== *)

Module Py.

(** ** Characters *)

Definition code (c : ascii) : N := N_of_ascii c.

(** [str.isspace] on one character (seven-bit range). *)
Definition isspace (c : ascii) : bool :=
  let n := code c in
  ((9 <=? n) && (n <=? 13) || (28 <=? n) && (n <=? 32))%N.

Definition space : ascii := " "%char.
Definition dquote : ascii := "034"%char.
Definition squote : ascii := "'"%char.
Definition backslash : ascii := "\"%char.

Definition is_digit (c : ascii) : bool :=
  let n := code c in ((48 <=? n) && (n <=? 57))%N.

Definition is_lower (c : ascii) : bool :=
  let n := code c in ((97 <=? n) && (n <=? 122))%N.

Definition is_upper (c : ascii) : bool :=
  let n := code c in ((65 <=? n) && (n <=? 90))%N.

(** ** Strings *)

Definition str1 (c : ascii) : string := String c EmptyString.

Definition nonempty (s : string) : bool :=
  match s with EmptyString => false | String _ _ => true end.

(** [s.lstrip(chars)], [s.rstrip(chars)] and [s.strip(chars)], the set of
    characters given as a test; [s.strip()] removes white space. *)
Fixpoint lstrip_by (p : ascii -> bool) (s : string) : string :=
  match s with
  | EmptyString => EmptyString
  | String c s' => if p c then lstrip_by p s' else s
  end.

Fixpoint rstrip_by (p : ascii -> bool) (s : string) : string :=
  match s with
  | EmptyString => EmptyString
  | String c s' =>
      let r := rstrip_by p s' in
      if negb (nonempty r) && p c then EmptyString else String c r
  end.

Definition strip_by (p : ascii -> bool) (s : string) : string :=
  lstrip_by p (rstrip_by p s).

Definition strip (s : string) : string := strip_by isspace s.

(** [sep.join(l)]. *)
Definition join (sep : string) (l : list string) : string := String.concat sep l.

(** [s.startswith(p)] and [s.endswith(p)]. *)
Definition startswith (p s : string) : bool := String.prefix p s.

Definition endswith (p s : string) : bool :=
  let n := String.length s in
  let k := String.length p in
  (k <=? n)%nat && String.eqb (String.substring (n - k) k s) p.

(** [c in s] for a character. *)
Fixpoint contains (c : ascii) (s : string) : bool :=
  match s with
  | EmptyString => false
  | String a s' => Ascii.eqb a c || contains c s'
  end.

(** [s.lower()]. *)
Definition lower_char (c : ascii) : ascii :=
  if is_upper c then ascii_of_N (code c + 32)%N else c.

Fixpoint lower (s : string) : string :=
  match s with
  | EmptyString => EmptyString
  | String c s' => String (lower_char c) (lower s')
  end.

(** ** Integers *)

(** [str(n)] for an [int]. *)
Definition str_int (z : Z) : string := NilZero.string_of_int (Z.to_int z).

(** Two lower-case hexadecimal digits, as in ["%02x"]. *)
Definition hex_digit (n : N) : ascii :=
  (if n <? 10 then ascii_of_N (48 + n) else ascii_of_N (87 + n))%N.

Definition hex2 (c : ascii) : string :=
  String (hex_digit (code c / 16)) (str1 (hex_digit (code c mod 16))).

(** ** Values decoded from JSON

    What [json.loads] and [yaml.safe_load] return: [None], [bool], [int],
    [float], [str], [list], and [dict] with string keys in insertion
    order. *)

Unset Elimination Schemes.
Inductive json : Type :=
| JNull
| JBool (b : bool)
| JInt (z : Z)
| JFloat (lit : string)
| JStr (s : string)
| JList (l : list json)
| JDict (d : list (string * json)).
Set Elimination Schemes.

Definition is_dict (v : json) : bool :=
  match v with JDict _ => true | _ => false end.

Definition is_list (v : json) : bool :=
  match v with JList _ => true | _ => false end.

Definition is_none (v : json) : bool :=
  match v with JNull => true | _ => false end.

(** [k in d] and [d[k]] on the entries of a [dict]. *)
Fixpoint dict_get {A} (k : string) (d : list (string * A)) : option A :=
  match d with
  | [] => None
  | (k', v) :: d' => if String.eqb k' k then Some v else dict_get k d'
  end.

(** [d[k] = v]: overwrite in place, or append a new key. *)
Fixpoint dict_set {A} (k : string) (v : A) (d : list (string * A))
  : list (string * A) :=
  match d with
  | [] => [(k, v)]
  | (k', v') :: d' =>
      if String.eqb k' k then (k', v) :: d' else (k', v') :: dict_set k v d'
  end.

(** [d.get(k, default)]. *)
Definition dict_get_default {A} (k : string) (default : A)
  (d : list (string * A)) : A :=
  match dict_get k d with Some v => v | None => default end.

(** [repr(s)] for a [str]: single quotes unless the text has a single
    quote and no double quote; backslash, the chosen quote, tab, newline,
    carriage return and the other control characters are escaped. *)
Definition repr_char (q c : ascii) : string :=
  let n := code c in
  if Ascii.eqb c backslash then String backslash (str1 backslash)
  else if Ascii.eqb c q then String backslash (str1 q)
  else if (n =? 9)%N then String backslash "t"
  else if (n =? 10)%N then String backslash "n"
  else if (n =? 13)%N then String backslash "r"
  else if ((n <? 32) || (n =? 127))%N then String backslash ("x" +:+ hex2 c)
  else str1 c.

Fixpoint repr_body (q : ascii) (s : string) : string :=
  match s with
  | EmptyString => EmptyString
  | String c s' => repr_char q c +:+ repr_body q s'
  end.

Definition repr_str (s : string) : string :=
  let q := if contains squote s && negb (contains dquote s)
           then dquote else squote in
  String q (repr_body q s +:+ str1 q).

(** [repr(x)] for a [float]: the literal it was read from, the three
    literals outside the JSON grammar in Python's spelling. *)
Definition repr_float (lit : string) : string :=
  if String.eqb lit "NaN" then "nan"
  else if String.eqb lit "Infinity" then "inf"
  else if String.eqb lit "-Infinity" then "-inf"
  else lit.

(** [repr(v)]; [str(v)] differs from it on a top-level [str] only. *)
Fixpoint repr (v : json) : string :=
  match v with
  | JNull => "None"
  | JBool true => "True"
  | JBool false => "False"
  | JInt z => str_int z
  | JFloat lit => repr_float lit
  | JStr s => repr_str s
  | JList l => "[" +:+ join ", " (map repr l) +:+ "]"
  | JDict d =>
      "{" +:+ join ", "
                (map (fun kv => repr_str (fst kv) +:+ ": " +:+ repr (snd kv)) d)
          +:+ "}"
  end.

Definition str (v : json) : string :=
  match v with
  | JStr s => s
  | _ => repr v
  end.

(** Whether a float literal denotes a non-zero number: a non-zero digit
    in its mantissa, or one of the literals [NaN], [Infinity]
    (underflow to zero is not modelled). *)
Fixpoint float_nonzero (lit : string) : bool :=
  match lit with
  | EmptyString => false
  | String c s' =>
      if Ascii.eqb c "e" || Ascii.eqb c "E" then false
      else if Ascii.eqb c "N" || Ascii.eqb c "I" then true
      else (is_digit c && negb (Ascii.eqb c "0")) || float_nonzero s'
  end.

(** Truth value of a decoded value ([if v:]). *)
Definition truthy (v : json) : bool :=
  match v with
  | JNull => false
  | JBool b => b
  | JInt z => negb (z =? 0)
  | JFloat lit => float_nonzero lit
  | JStr s => nonempty s
  | JList l => match l with [] => false | _ => true end
  | JDict d => match d with [] => false | _ => true end
  end.

(** ** [json.dumps(v, ensure_ascii=False)] *)

Definition dumps_char (c : ascii) : string :=
  let n := code c in
  if Ascii.eqb c dquote then String backslash (str1 dquote)
  else if Ascii.eqb c backslash then String backslash (str1 backslash)
  else if (n =? 10)%N then String backslash "n"
  else if (n =? 13)%N then String backslash "r"
  else if (n =? 9)%N then String backslash "t"
  else if (n =? 8)%N then String backslash "b"
  else if (n =? 12)%N then String backslash "f"
  else if (n <? 32)%N then String backslash ("u00" +:+ hex2 c)
  else str1 c.

Fixpoint dumps_body (s : string) : string :=
  match s with
  | EmptyString => EmptyString
  | String c s' => dumps_char c +:+ dumps_body s'
  end.

Definition dumps_str (s : string) : string :=
  String dquote (dumps_body s +:+ str1 dquote).

Fixpoint dumps (v : json) : string :=
  match v with
  | JNull => "null"
  | JBool true => "true"
  | JBool false => "false"
  | JInt z => str_int z
  | JFloat lit => lit
  | JStr s => dumps_str s
  | JList l => "[" +:+ join ", " (map dumps l) +:+ "]"
  | JDict d =>
      "{" +:+ join ", "
                (map (fun kv => dumps_str (fst kv) +:+ ": " +:+ dumps (snd kv)) d)
          +:+ "}"
  end.

(** ** [json.loads(s)] *)

(** The scanner's white space: space, tab, line feed, carriage return. *)
Definition is_json_ws (c : ascii) : bool :=
  let n := code c in ((n =? 32) || (n =? 9) || (n =? 10) || (n =? 13))%N.

Definition skip_ws (s : string) : string := lstrip_by is_json_ws s.

Definition hex_value (c : ascii) : option N :=
  let n := code c in
  if is_digit c then Some (n - 48)%N
  else if ((97 <=? n) && (n <=? 102))%N then Some (n - 87)%N
  else if ((65 <=? n) && (n <=? 70))%N then Some (n - 55)%N
  else None.

Definition hex4 (a b c d : ascii) : option N :=
  match hex_value a, hex_value b, hex_value c, hex_value d with
  | Some x, Some y, Some z, Some w => Some (((x * 16 + y) * 16 + z) * 16 + w)%N
  | _, _, _, _ => None
  end.

(** The UTF-8 bytes of a code point. *)
Definition utf8 (n : N) : string :=
  let b (k : N) := ascii_of_N k in
  (if n <? 128 then str1 (b n)
   else if n <? 2048 then
     String (b (192 + n / 64)) (str1 (b (128 + n mod 64)))
   else if n <? 65536 then
     String (b (224 + n / 4096))
       (String (b (128 + (n / 64) mod 64)) (str1 (b (128 + n mod 64))))
   else
     String (b (240 + n / 262144))
       (String (b (128 + (n / 4096) mod 64))
          (String (b (128 + (n / 64) mod 64)) (str1 (b (128 + n mod 64))))))%N.

(** Whether a [str] can be encoded as UTF-8: it holds no surrogate code
    point, whose three bytes would start with 237 followed by 160 or
    more.  A [str] holds one when it was read from an escape such as
    [\ud800] that is not half of a pair. *)
Fixpoint encodable (s : string) : bool :=
  match s with
  | EmptyString => true
  | String a s' =>
      match s' with
      | String b _ =>
          negb ((code a =? 237) && (160 <=? code b) && (code b <=? 191))%N
          && encodable s'
      | EmptyString => true
      end
  end.

Definition simple_escape (e : ascii) : option ascii :=
  if Ascii.eqb e dquote then Some dquote
  else if Ascii.eqb e backslash then Some backslash
  else if Ascii.eqb e "/" then Some "/"%char
  else if Ascii.eqb e "b" then Some "008"%char
  else if Ascii.eqb e "f" then Some "012"%char
  else if Ascii.eqb e "n" then Some "010"%char
  else if Ascii.eqb e "r" then Some "013"%char
  else if Ascii.eqb e "t" then Some "009"%char
  else None.

(** A low surrogate escape at the head of [s], with what follows it. *)
Definition low_surrogate (s : string) : option (N * string) :=
  match s with
  | String b0 (String u (String h1 (String h2 (String h3 (String h4 r))))) =>
      if Ascii.eqb b0 backslash && Ascii.eqb u "u" then
        match hex4 h1 h2 h3 h4 with
        | Some lo => if ((56320 <=? lo) && (lo <=? 57343))%N
                     then Some (lo, r) else None
        | None => None
        end
      else None
  | _ => None
  end.

(** The text after an opening quote: the decoded string and what follows
    the closing quote.  Control characters are refused (strict mode); a
    high surrogate escape followed by a low one is one code point. *)
Fixpoint scan_string (s : string) : option (string * string) :=
  match s with
  | EmptyString => None
  | String c s' =>
      if Ascii.eqb c dquote then Some (EmptyString, s')
      else if Ascii.eqb c backslash then
        match s' with
        | EmptyString => None
        | String e s'' =>
            if Ascii.eqb e "u" then
              match s'' with
              | String h1 (String h2 (String h3 (String h4 s3))) =>
                  match hex4 h1 h2 h3 h4 with
                  | Some hi =>
                      let single :=
                        match scan_string s3 with
                        | Some (t, r) => Some (utf8 hi +:+ t, r)
                        | None => None
                        end in
                      if ((55296 <=? hi) && (hi <=? 56319))%N then
                        match s3 with
                        | String b0 (String u (String l1 (String l2
                            (String l3 (String l4 s4))))) =>
                            match low_surrogate s3 with
                            | Some (lo, _) =>
                                let cp := (65536 + (hi - 55296) * 1024
                                           + (lo - 56320))%N in
                                match scan_string s4 with
                                | Some (t, r) => Some (utf8 cp +:+ t, r)
                                | None => None
                                end
                            | None => single
                            end
                        | _ => single
                        end
                      else single
                  | None => None
                  end
              | _ => None
              end
            else
              match simple_escape e with
              | Some ch =>
                  match scan_string s'' with
                  | Some (t, r) => Some (String ch t, r)
                  | None => None
                  end
              | None => None
              end
        end
      else if (code c <? 32)%N then None
      else
        match scan_string s' with
        | Some (t, r) => Some (String c t, r)
        | None => None
        end
  end.

(** The longest run of decimal digits at the head of [s]. *)
Fixpoint span_digits (s : string) : string * string :=
  match s with
  | EmptyString => (EmptyString, EmptyString)
  | String c s' =>
      if is_digit c then
        let '(ds, r) := span_digits s' in (String c ds, r)
      else (EmptyString, s)
  end.

(** [int(ds)] for a run of decimal digits. *)
Definition digit_value (c : ascii) : N := (code c - 48)%N.

Fixpoint int_of_digits_from (acc : N) (ds : string) : N :=
  match ds with
  | EmptyString => acc
  | String c ds' => int_of_digits_from (acc * 10 + digit_value c)%N ds'
  end.

Definition int_of_digits (ds : string) : N := int_of_digits_from 0%N ds.

(** The number grammar: an integer part without superfluous zeros, then
    an optional fraction and an optional exponent, each taken only when
    complete.  With neither the number is an [int], else a [float]. *)
Definition scan_int_part (s : string) : option (string * string) :=
  match s with
  | String c s' =>
      if Ascii.eqb c "0" then Some ("0", s')
      else if is_digit c then Some (span_digits s)
      else None
  | EmptyString => None
  end.

Definition scan_frac (s : string) : string * string :=
  match s with
  | String c s' =>
      if Ascii.eqb c "." then
        match span_digits s' with
        | (EmptyString, _) => (EmptyString, s)
        | (ds, r) => (String c ds, r)
        end
      else (EmptyString, s)
  | EmptyString => (EmptyString, s)
  end.

Definition scan_exp (s : string) : string * string :=
  match s with
  | String c s' =>
      if Ascii.eqb c "e" || Ascii.eqb c "E" then
        let '(sign, s1) :=
          match s' with
          | String g s2 =>
              if Ascii.eqb g "+" || Ascii.eqb g "-" then (str1 g, s2)
              else (EmptyString, s')
          | EmptyString => (EmptyString, s')
          end in
        match span_digits s1 with
        | (EmptyString, _) => (EmptyString, s)
        | (ds, r) => (String c (sign +:+ ds), r)
        end
      else (EmptyString, s)
  | EmptyString => (EmptyString, s)
  end.

Definition scan_number (s : string) : option (json * string) :=
  let '(neg, s0) :=
    match s with
    | String c s' => if Ascii.eqb c "-" then (true, s') else (false, s)
    | EmptyString => (false, s)
    end in
  match scan_int_part s0 with
  | Some (ds, r) =>
      let '(frac, r1) := scan_frac r in
      let '(ex, r2) := scan_exp r1 in
      if nonempty frac || nonempty ex then
        Some (JFloat ((if neg then "-" else "") +:+ ds +:+ frac +:+ ex), r2)
      else
        let n := Z.of_N (int_of_digits ds) in
        Some (JInt (if neg then - n else n), r2)
  | None => None
  end.

(** A literal word at the head of [s]. *)
Fixpoint drop_prefix (w s : string) : option string :=
  match w with
  | EmptyString => Some s
  | String a w' =>
      match s with
      | String b s' => if Ascii.eqb a b then drop_prefix w' s' else None
      | EmptyString => None
      end
  end.

Definition scan_word (w : string) (v : json) (s : string)
  : option (json * string) :=
  match drop_prefix w s with
  | Some r => Some (v, r)
  | None => None
  end.

Definition scan_atom (s : string) : option (json * string) :=
  match s with
  | String c _ =>
      if Ascii.eqb c "n" then scan_word "null" JNull s
      else if Ascii.eqb c "t" then scan_word "true" (JBool true) s
      else if Ascii.eqb c "f" then scan_word "false" (JBool false) s
      else if Ascii.eqb c "N" then scan_word "NaN" (JFloat "NaN") s
      else if Ascii.eqb c "I" then scan_word "Infinity" (JFloat "Infinity") s
      else
        match scan_word "-Infinity" (JFloat "-Infinity") s with
        | Some r => Some r
        | None => scan_number s
        end
  | EmptyString => None
  end.

(** [dict(pairs)]: a later pair overwrites an earlier one with its key. *)
Definition dict_of_pairs {A} (pairs : list (string * A)) : list (string * A) :=
  fold_left (fun d kv => dict_set (fst kv) (snd kv) d) pairs [].

(** The recursive scanner; [n] bounds the number of nested calls and is
    never exhausted when it exceeds the length of the text. *)
Fixpoint parse_value (n : nat) (s : string) {struct n}
  : option (json * string) :=
  match n with
  | O => None
  | S n' =>
      match s with
      | EmptyString => None
      | String c s' =>
          if Ascii.eqb c dquote then
            match scan_string s' with
            | Some (t, r) => Some (JStr t, r)
            | None => None
            end
          else if Ascii.eqb c "{" then
            match skip_ws s' with
            | String c1 r1 =>
                if Ascii.eqb c1 "}" then Some (JDict [], r1)
                else
                  match parse_members n' (String c1 r1) with
                  | Some (pairs, r) => Some (JDict (dict_of_pairs pairs), r)
                  | None => None
                  end
            | EmptyString => None
            end
          else if Ascii.eqb c "[" then
            match skip_ws s' with
            | String c1 r1 =>
                if Ascii.eqb c1 "]" then Some (JList [], r1)
                else
                  match parse_elements n' (String c1 r1) with
                  | Some (vs, r) => Some (JList vs, r)
                  | None => None
                  end
            | EmptyString => None
            end
          else scan_atom s
      end
  end
with parse_elements (n : nat) (s : string) {struct n}
  : option (list json * string) :=
  match n with
  | O => None
  | S n' =>
      match parse_value n' s with
      | Some (v, r) =>
          match skip_ws r with
          | String c r1 =>
              if Ascii.eqb c "]" then Some ([v], r1)
              else if Ascii.eqb c "," then
                match parse_elements n' (skip_ws r1) with
                | Some (vs, r2) => Some (v :: vs, r2)
                | None => None
                end
              else None
          | EmptyString => None
          end
      | None => None
      end
  end
with parse_members (n : nat) (s : string) {struct n}
  : option (list (string * json) * string) :=
  match n with
  | O => None
  | S n' =>
      match s with
      | String q s0 =>
          if Ascii.eqb q dquote then
            match scan_string s0 with
            | Some (k, r) =>
                match skip_ws r with
                | String c r1 =>
                    if Ascii.eqb c ":" then
                      match parse_value n' (skip_ws r1) with
                      | Some (v, r2) =>
                          match skip_ws r2 with
                          | String c2 r3 =>
                              if Ascii.eqb c2 "}" then Some ([(k, v)], r3)
                              else if Ascii.eqb c2 "," then
                                match parse_members n' (skip_ws r3) with
                                | Some (kvs, r4) => Some ((k, v) :: kvs, r4)
                                | None => None
                                end
                              else None
                          | EmptyString => None
                          end
                      | None => None
                      end
                    else None
                | EmptyString => None
                end
            | None => None
            end
          else None
      | EmptyString => None
      end
  end.

(** [json.loads(s)]: one value between optional white space, nothing
    else; [None] stands for the exception it raises otherwise. *)
Definition loads (s : string) : option json :=
  match parse_value (S (String.length s)) (skip_ws s) with
  | Some (v, r) =>
      match skip_ws r with
      | EmptyString => Some v
      | String _ _ => None
      end
  | None => None
  end.

(** ** [json.dumps(v, indent=2)], with the default [ensure_ascii=True] *)

(** One code point off the head of UTF-8 text; a byte that starts no
    well-formed sequence counts for itself. *)
Definition is_cont (c : ascii) : bool :=
  let n := code c in ((128 <=? n) && (n <? 192))%N.

Definition decode_utf8 (s : string) : option (N * string) :=
  match s with
  | EmptyString => None
  | String a r1 =>
      let na := code a in
      let alone := Some (na, r1) in
      (if na <? 192 then alone
       else
         match r1 with
         | String b r2 =>
             if negb (is_cont b) then alone
             else if na <? 224 then
               Some ((na - 192) * 64 + (code b - 128), r2)
             else
               match r2 with
               | String c r3 =>
                   if negb (is_cont c) then alone
                   else if na <? 240 then
                     Some (((na - 224) * 64 + (code b - 128)) * 64
                           + (code c - 128), r3)
                   else
                     match r3 with
                     | String d r4 =>
                         if negb (is_cont d) then alone
                         else
                           Some ((((na - 240) * 64 + (code b - 128)) * 64
                                  + (code c - 128)) * 64 + (code d - 128), r4)
                     | EmptyString => alone
                     end
               | EmptyString => alone
               end
         | EmptyString => alone
         end)%N
  end.

Definition hex4_of (n : N) : string :=
  (String (hex_digit (n / 4096 mod 16))
     (String (hex_digit (n / 256 mod 16))
        (String (hex_digit (n / 16 mod 16)) (str1 (hex_digit (n mod 16))))))%N.

Definition u_escape (n : N) : string := String backslash ("u" +:+ hex4_of n).

(** The escape of one code point when only printable seven-bit text may
    be written. *)
Definition dumps_ascii_point (n : N) : string :=
  (if n <? 128 then
     if (32 <=? n) && (n <? 127) || (n =? 8) || (n =? 9) || (n =? 10)
        || (n =? 12) || (n =? 13)
     then dumps_char (ascii_of_N n)
     else u_escape n
   else if n <? 65536 then u_escape n
   else
     let m := n - 65536 in
     u_escape (55296 + m / 1024) +:+ u_escape (56320 + m mod 1024))%N.

Fixpoint dumps_ascii_body (fuel : nat) (s : string) : string :=
  match fuel with
  | O => EmptyString
  | S fuel' =>
      match decode_utf8 s with
      | None => EmptyString
      | Some (n, r) => dumps_ascii_point n +:+ dumps_ascii_body fuel' r
      end
  end.

Definition dumps_ascii_str (s : string) : string :=
  String dquote (dumps_ascii_body (String.length s) s +:+ str1 dquote).

Definition newline : ascii := "010"%char.

Fixpoint spaces (k : nat) : string :=
  match k with O => EmptyString | S k' => String space (spaces k') end.

(** A line break followed by the indentation of nesting level [lvl]. *)
Definition break_indent (lvl : nat) : string :=
  String newline (spaces (2 * lvl)).

Fixpoint dumps_pretty_at (lvl : nat) (v : json) : string :=
  match v with
  | JNull => "null"
  | JBool true => "true"
  | JBool false => "false"
  | JInt z => str_int z
  | JFloat lit => lit
  | JStr s => dumps_ascii_str s
  | JList [] => "[]"
  | JList l =>
      "[" +:+ break_indent (S lvl)
      +:+ join ("," +:+ break_indent (S lvl)) (map (dumps_pretty_at (S lvl)) l)
      +:+ break_indent lvl +:+ "]"
  | JDict [] => "{}"
  | JDict d =>
      "{" +:+ break_indent (S lvl)
      +:+ join ("," +:+ break_indent (S lvl))
            (map (fun kv => dumps_ascii_str (fst kv) +:+ ": "
                            +:+ dumps_pretty_at (S lvl) (snd kv)) d)
      +:+ break_indent lvl +:+ "}"
  end.

Definition dumps_pretty (v : json) : string := dumps_pretty_at 0 v.

(** ** Lines of a text file

    Reading in text mode ends a line at a line feed, a carriage return,
    or the two in a row.  The lines are given without their terminator;
    every reader in the sources strips the line first. *)
Fixpoint splitlines (s : string) : list string :=
  match s with
  | EmptyString => []
  | String c s' =>
      if Ascii.eqb c "010" then EmptyString :: splitlines s'
      else if Ascii.eqb c "013" then
        match s' with
        | String c2 s'' =>
            if Ascii.eqb c2 "010" then EmptyString :: splitlines s''
            else EmptyString :: splitlines s'
        | EmptyString => [EmptyString]
        end
      else
        match splitlines s' with
        | [] => [str1 c]
        | l :: ls => String c l :: ls
        end
  end.

(** [f.readline()] on a fresh file, terminator left out. *)
Definition first_line (s : string) : string :=
  match splitlines s with
  | [] => EmptyString
  | l :: _ => l
  end.

(** ** [int(x)] *)

(** Decimal digits, single underscores allowed between them. *)
Fixpoint int_digits (after_digit : bool) (acc : N) (s : string) : option N :=
  match s with
  | EmptyString => if after_digit then Some acc else None
  | String c s' =>
      if is_digit c then int_digits true (acc * 10 + digit_value c)%N s'
      else if Ascii.eqb c "_" && after_digit then
        match s' with
        | String c2 _ => if is_digit c2 then int_digits false acc s' else None
        | EmptyString => None
        end
      else None
  end.

(** [int(s)] for a string: surrounding white space, an optional sign. *)
Definition int_of_str (s : string) : option Z :=
  match strip s with
  | EmptyString => None
  | String c r =>
      if Ascii.eqb c "-" then
        match int_digits false 0%N r with
        | Some n => Some (- Z.of_N n)
        | None => None
        end
      else if Ascii.eqb c "+" then
        match int_digits false 0%N r with
        | Some n => Some (Z.of_N n)
        | None => None
        end
      else
        match int_digits false 0%N (String c r) with
        | Some n => Some (Z.of_N n)
        | None => None
        end
  end.

End Py.

Import Py.

(* ===================================================================== *)
(** * Paths, files and control flow *)
(* ===================================================================== *)

(** A resolved path is the list of its segments, from the root; a file
    system is the finite map from the paths of its regular files to their
    text.  Directories are implicit ([mkdir(parents=True, exist_ok=True)]
    changes nothing), and operations on existing files succeed. *)
Definition path : Type := list string.

Abbreviation files := (gmap path string).

Module Path.

(** [p / s], with [s] naming one segment. *)
Definition child (p : path) (s : string) : path := p ++ [s].

(** [p.name] and [p.parent]. *)
Definition name (p : path) : string := List.last p EmptyString.
Definition parent (p : path) : path := removelast p.

(** A string that names one segment: not empty, neither of the two dot
    names, without separator and without NUL. *)
Definition is_name (s : string) : bool :=
  nonempty s && negb (String.eqb s ".") && negb (String.eqb s "..")
  && negb (contains "/" s) && negb (contains "000" s).

(** [name.rfind(".")]. *)
Fixpoint rfind_dot (s : string) : option nat :=
  match s with
  | EmptyString => None
  | String c s' =>
      match rfind_dot s' with
      | Some i => Some (S i)
      | None => if Ascii.eqb c "." then Some O else None
      end
  end.

(** [p.suffix] and [p.stem] on the name: the last dot splits the name
    unless it is its first or its last character. *)
Definition suffix_of (nm : string) : string :=
  match rfind_dot nm with
  | Some i =>
      if (0 <? i)%nat && (i <? String.length nm - 1)%nat
      then String.substring i (String.length nm - i) nm
      else EmptyString
  | None => EmptyString
  end.

Definition stem_of (nm : string) : string :=
  match rfind_dot nm with
  | Some i =>
      if (0 <? i)%nat && (i <? String.length nm - 1)%nat
      then String.substring 0 i nm
      else nm
  | None => nm
  end.

Definition suffix (p : path) : string := suffix_of (name p).
Definition stem (p : path) : string := stem_of (name p).

(** [str(p)]. *)
Definition to_str (p : path) : string := "/" +:+ join "/" p.

(** [p.exists()] for a file. *)
Definition exists_in (fs : files) (p : path) : bool :=
  match fs !! p with Some _ => true | None => false end.

(** The names of the files directly inside [folder]. *)
Definition listdir (fs : files) (folder : path) : list string :=
  omap (fun kv : path * string =>
          match fst kv with
          | [] => None
          | _ :: _ =>
              if decide (parent (fst kv) = folder)
              then Some (name (fst kv)) else None
          end)
       (map_to_list fs).

(** [folder] is [p] or one of its ancestors. *)
Definition is_under (folder p : path) : bool :=
  bool_decide (take (length folder) p = folder).

End Path.

(** Exceptions, by class. *)
Inductive exn : Type :=
| ValueError (msg : string)
| TypeError (msg : string)
| AttributeError (msg : string)
| KeyError (key : string)
| FileNotFoundError (p : path)
| UnicodeEncodeError (msg : string)
| ExternalError (msg : string).

(** How a piece of code ends: with a value, with an exception of class
    [Exception], or with [sys.exit(code)]. *)
Inductive result (A : Type) : Type :=
| Ok (a : A)
| Raise (e : exn)
| Exit (code : Z).

Arguments Ok {A} a.
Arguments Raise {A} e.
Arguments Exit {A} code.

(** Code that runs on a state [S]. *)
Definition M (S A : Type) : Type := S -> result A * S.

Definition ret {S A} (a : A) : M S A := fun st => (Ok a, st).

Definition bind {S A B} (m : M S A) (k : A -> M S B) : M S B :=
  fun st =>
    match m st with
    | (Ok a, st') => k a st'
    | (Raise e, st') => (Raise e, st')
    | (Exit c, st') => (Exit c, st')
    end.

Definition raise {S A} (e : exn) : M S A := fun st => (Raise e, st).
Definition sys_exit {S A} (c : Z) : M S A := fun st => (Exit c, st).
Definition get {S} : M S S := fun st => (Ok st, st).
Definition modify {S} (f : S -> S) : M S unit := fun st => (Ok tt, f st).

(** [try: m except Exception as e: h e]; [sys.exit] is not caught. *)
Definition try_except {S A} (m : M S A) (h : exn -> M S A) : M S A :=
  fun st =>
    match m st with
    | (Raise e, st') => h e st'
    | r => r
    end.

(** [try: m finally: c], [c] itself raising nothing. *)
Definition try_finally {S A} (m : M S A) (c : S -> S) : M S A :=
  fun st => let '(r, st') := m st in (r, c st').

(** A pure step that may raise. *)
Definition lift {S A} (r : result A) : M S A := fun st => (r, st).

Declare Scope py_scope.
Delimit Scope py_scope with py.
Notation "'let*' x ':=' m 'in' k" := (bind m (fun x => k))
  (at level 10, x pattern, m at level 100, k at level 200) : py_scope.
Notation "m >> k" := (bind m (fun _ => k))
  (at level 100, k at level 200, right associativity) : py_scope.

(* ===================================================================== *)
(** * The embedding-input text, as each tool builds it *)
(* ===================================================================== *)

(** [src/embeddings_preview.py]. *)
Module Preview.

Definition FIELDS : list (list string) :=
  [ ["important"; "title"];
    ["important"; "category"];
    ["important"; "sub_category"];
    ["important"; "tags"];
    ["important"; "targets"; "os"];
    ["important"; "targets"; "system"];
    ["important"; "risk"] ].

(** The loop returns [None] as soon as [cur] is not a [dict] or lacks the
    key; [None] and a stored [null] are the same value. *)
Fixpoint get_in (d : json) (path : list string) : json :=
  match path with
  | [] => d
  | key :: rest =>
      match d with
      | JDict e =>
          match dict_get key e with
          | Some cur => get_in cur rest
          | None => JNull
          end
      | _ => JNull
      end
  end.

Definition to_text (value : json) : string :=
  match value with
  | JNull => ""
  | JList l => join " " (map str (List.filter (fun x => negb (is_none x)) l))
  | _ => str value
  end.

Definition build_embedding_text (record : json) : string :=
  let parts := map (fun path => to_text (get_in record path)) FIELDS in
  strip (join " " (List.filter nonempty parts)).

End Preview.

(** [src/embeddings_real.py]. *)
Module Real.

Definition FIELDS : list (list string) :=
  [ ["important"; "title"];
    ["important"; "category"];
    ["important"; "sub_category"];
    ["important"; "tags"];
    ["important"; "targets"; "os"];
    ["important"; "targets"; "system"];
    ["important"; "risk"] ].

Fixpoint get_in (d : json) (path : list string) : json :=
  match path with
  | [] => d
  | k :: rest =>
      match d with
      | JDict e =>
          match dict_get k e with
          | Some cur => get_in cur rest
          | None => JNull
          end
      | _ => JNull
      end
  end.

Definition to_text (v : json) : string :=
  match v with
  | JNull => ""
  | JList l => join " " (map str (List.filter (fun x => negb (is_none x)) l))
  | _ => str v
  end.

Definition build_embedding_text (rec : json) : string :=
  let parts := map (fun p => to_text (get_in rec p)) FIELDS in
  strip (join " " (List.filter nonempty parts)).

End Real.

(* ===================================================================== *)
(** * [src/normalize_and_move.py] *)
(* ===================================================================== *)

Module Normalize.

(** A line of the daily log, kept apart from the files (the name of the
    log file depends on the clock). *)
Inductive log_entry : Type :=
| LogMoved (src_name category sub_category dest_name : string) (records : Z)
| LogError (src_name : string) (e : exn).

Record state : Type := { fs : files; log : list log_entry }.

Definition set_fs (f : files -> files) (st : state) : state :=
  {| fs := f (fs st); log := log st |}.

Definition log_line (e : log_entry) : M state unit :=
  modify (fun st => {| fs := fs st; log := log st ++ [e] |}).

(** [open(p, "w")] followed by the writes, and [open(p, "a")] followed by
    one write. *)
Definition write_text (p : path) (text : string) : M state unit :=
  modify (set_fs (fun f => <[p := text]> f)).

Definition append_text (p : path) (text : string) : M state unit :=
  modify (set_fs (fun f =>
    <[p := match f !! p with Some old => old | None => EmptyString end +:+ text]> f)).

(** [open(p, "r")] and the whole text. *)
Definition read_text (p : path) : M state string :=
  fun st =>
    match fs st !! p with
    | Some t => (Ok t, st)
    | None => (Raise (FileNotFoundError p), st)
    end.

(** [shutil.move(src, dst)]: a rename. *)
Definition move (src dst : path) : M state unit :=
  fun st =>
    match fs st !! src with
    | Some t => (Ok tt, set_fs (fun f => <[dst := t]> (delete src f)) st)
    | None => (Raise (FileNotFoundError src), st)
    end.

(** [re.sub(r"[^a-z0-9]+", "_", s)] and [re.sub(r"_+", "_", s)]: every
    maximal run of characters satisfying [p] becomes one underscore. *)
Fixpoint sub_runs (p : ascii -> bool) (in_run : bool) (s : string) : string :=
  match s with
  | EmptyString => EmptyString
  | String c s' =>
      if p c then
        if in_run then sub_runs p true s'
        else String "_" (sub_runs p true s')
      else String c (sub_runs p false s')
  end.

Definition is_slug_char (c : ascii) : bool := is_lower c || is_digit c.
Definition is_underscore (c : ascii) : bool := Ascii.eqb c "_".

Definition to_slug (text : string) : string :=
  let s := lower text in
  let s := sub_runs (fun c => negb (is_slug_char c)) false s in
  let s := strip_by is_underscore (sub_runs is_underscore false s) in
  if nonempty s then s else "record".

Definition line_end : string := str1 newline.

(** [fout.write(text)] encodes the text at once and raises when it
    cannot. *)
Definition surrogates : exn := UnicodeEncodeError "surrogates not allowed".

(** The loop over the lines of a JSONL submission: the text written so
    far, the count, and the error that stopped the loop, if any. *)
Fixpoint convert_lines (lines : list string) (out : string) (count : Z)
  : string * Z * option exn :=
  match lines with
  | [] => (out, count, None)
  | line :: rest =>
      let line := strip line in
      if negb (nonempty line) then convert_lines rest out count
      else
        match loads line with
        | Some (JDict d) =>
            if encodable (dumps (JDict d)) then
              convert_lines rest (out +:+ dumps (JDict d) +:+ line_end)
                (count + 1)
            else
              (out, count, Some (ValueError "Invalid JSONL line: surrogates not allowed"))
        | Some _ =>
            (out, count,
             Some (ValueError "Invalid JSONL line: Line is not a JSON object"))
        | None => (out, count, Some (ValueError "Invalid JSONL line"))
        end
  end.

(** The loop over the items of a top-level array. *)
Fixpoint convert_items (items : list json) (out : string) (count : Z)
  : string * Z * option exn :=
  match items with
  | [] => (out, count, None)
  | item :: rest =>
      if is_dict item then
        if encodable (dumps item)
        then convert_items rest (out +:+ dumps item +:+ line_end) (count + 1)
        else (out, count, Some surrogates)
      else (out, count, Some (ValueError "Array contains non-object item"))
  end.

Section WithRoot.

(** The repository root, [Path(__file__).resolve().parents[1]]. *)
Variable ROOT : path.

Definition INBOX : path := ROOT ++ ["data"; "inbox"].
Definition STAGING : path := ROOT ++ ["data"; "processed"; "staging"].
Definition ERRORS : path := ROOT ++ ["data"; "processed"; "errors"].
Definition DATASETS : path := ROOT ++ ["data"; "datasets"].
Definition LOGS : path := ROOT ++ ["data"; "logs"].

Definition normalize_to_jsonl (src_path : path) : M state (path * Z) :=
  let out_path := Path.child STAGING (Path.stem src_path +:+ ".jsonl") in
  if String.eqb (lower (Path.suffix src_path)) ".jsonl" then
    (let* text := read_text src_path in
     (* the output is opened, and truncated, before the first line is read *)
     let text := if decide (src_path = out_path) then EmptyString else text in
     let '(out, count, err) := convert_lines (splitlines text) EmptyString 0 in
     write_text out_path out >>
     match err with
     | Some e => raise e
     | None => ret (out_path, count)
     end)%py
  else
    (let* text := read_text src_path in
     match loads text with
     | None => raise (ValueError "Invalid JSON")
     | Some data =>
         match data with
         | JDict _ =>
             if encodable (dumps data) then
               write_text out_path (dumps data +:+ line_end) >>
               ret (out_path, 1)
             else
               write_text out_path EmptyString >> raise surrogates
         | JList items =>
             let '(out, count, err) := convert_items items EmptyString 0 in
             write_text out_path out >>
             match err with
             | Some e => raise e
             | None => ret (out_path, count)
             end
         | _ =>
             write_text out_path EmptyString >>
             raise (ValueError "Top-level JSON must be object or array")
         end
     end)%py.

Definition missing_keys : exn :=
  ValueError "Missing important.category or important.sub_category".

(** Subscripting anything but a [dict] with a string raises, as a missing
    key does; every such exception becomes the same [ValueError]. *)
Definition extract_keys (first_record : json) : result (json * json * json) :=
  match first_record with
  | JDict d =>
      match dict_get "important" d with
      | Some (JDict imp) =>
          match dict_get "category" imp, dict_get "sub_category" imp with
          | Some category, Some sub_category =>
              Ok (category, sub_category,
                  match dict_get "title" imp with
                  | Some title => title
                  | None => JNull
                  end)
          | _, _ => Raise missing_keys
          end
      | _ => Raise missing_keys
      end
  | _ => Raise missing_keys
  end.

Definition first_record_from_jsonl (jsonl_path : path) : M state json :=
  (let* text := read_text jsonl_path in
   let line := strip (first_line text) in
   if negb (nonempty line) then raise (ValueError "Empty JSONL file")
   else
     match loads line with
     | Some v => ret v
     | None => raise (ValueError "JSONDecodeError")
     end)%py.

(** [fnmatch] of a name against [f"{slug}_v*.jsonl"], the slug free of
    pattern characters. *)
Definition glob_match (slug name : string) : bool :=
  let pre := slug +:+ "_v" in
  startswith pre name && endswith ".jsonl" name
  && (String.length pre + 6 <=? String.length name)%nat.

(** The longest run of decimal digits at the end of [s], and what
    precedes it. *)
Fixpoint split_trailing_digits (s : string) : string * string :=
  match s with
  | EmptyString => (EmptyString, EmptyString)
  | String c s' =>
      let '(pre, ds) := split_trailing_digits s' in
      match pre with
      | EmptyString =>
          if is_digit c then (EmptyString, String c ds)
          else (str1 c, ds)
      | _ => (String c pre, ds)
      end
  end.

(** [re.search(r"_v(\d+)\.jsonl$", name)] and [int(m.group(1))]; the
    dollar also matches before a final line feed. *)
Definition version_of (name : string) : option Z :=
  let name :=
    if endswith line_end name
    then String.substring 0 (String.length name - 1) name else name in
  if endswith ".jsonl" name then
    let body := String.substring 0 (String.length name - 6) name in
    let '(pre, ds) := split_trailing_digits body in
    if nonempty ds && endswith "_v" pre
    then Some (Z.of_N (int_of_digits ds)) else None
  else None.

(** [max(versions)] of a non-empty list. *)
Definition max_of (versions : list Z) : Z :=
  match versions with
  | [] => 0
  | v :: vs => fold_left Z.max vs v
  end.

Definition next_version_name (names : list string) (slug : string) : string :=
  let existing := List.filter (glob_match slug) names in
  match existing with
  | [] => slug +:+ "_v1.jsonl"
  | _ :: _ =>
      let versions := omap version_of existing in
      let v := match versions with
               | [] => 1
               | _ :: _ => max_of versions + 1
               end in
      slug +:+ "_v" +:+ str_int v +:+ ".jsonl"
  end.

Definition next_version_path (fs : files) (folder : path) (slug : string)
  : path :=
  Path.child folder (next_version_name (Path.listdir fs folder) slug).

Definition manifest_entry (filename : string) (records : Z) (now : string)
  : json :=
  JDict [("file", JStr filename); ("records", JInt records);
         ("moved_at", JStr now)].

(** [now] is [datetime.now(UTC).isoformat()]. *)
Definition append_manifest (now : string) (folder : path) (filename : string)
  (records : Z) : M state unit :=
  append_text (Path.child folder "MANIFEST.jsonl")
    (dumps (manifest_entry filename records now) +:+ line_end).

(** [DATASETS / category / sub_category]: both must be [str]; each is
    taken to name one folder. *)
Definition dest_folder_of (category sub_category : json) : result path :=
  match category, sub_category with
  | JStr c, JStr sc => Ok (Path.child (Path.child DATASETS c) sc)
  | _, _ => Raise (TypeError "unsupported operand type(s) for /")
  end.

(** [to_slug(title) if title else to_slug(f"{category}_{sub_category}")]. *)
Definition base_slug_of (category sub_category title : json) : result string :=
  if truthy title then
    match title with
    | JStr t => Ok (to_slug t)
    | _ => Raise (AttributeError "lower")
    end
  else Ok (to_slug (str category +:+ "_" +:+ str sub_category)).

(** [main], [args] being [sys.argv[1:]] with each path resolved. *)
Definition main (now : string) (args : list path) : M state unit :=
  match args with
  | [src] =>
      try_except
        (let* (jsonl_path, count) := normalize_to_jsonl src in
         let* first := first_record_from_jsonl jsonl_path in
         let* (category, sub_category, title) := lift (extract_keys first) in
         let* dest_folder := lift (dest_folder_of category sub_category) in
         let* base_slug := lift (base_slug_of category sub_category title) in
         let* st := get in
         let dest_path := next_version_path (fs st) dest_folder base_slug in
         move jsonl_path dest_path >>
         append_manifest now dest_folder (Path.name dest_path) count >>
         log_line (LogMoved (Path.name src) (str category) (str sub_category)
                     (Path.name dest_path) count))%py
        (fun e =>
           let failed := Path.child ERRORS (Path.name src +:+ ".failed") in
           try_except (move src failed) (fun _ => ret tt) >>
           log_line (LogError (Path.name src) e) >>
           sys_exit 2)%py
  | _ => sys_exit 1
  end.

End WithRoot.

End Normalize.

(* ===================================================================== *)
(** * [src/ingest_to_milvus.py] *)
(* ===================================================================== *)

Module Ingest.

(** [build_embedding_text]: its [FIELDS], [get_in] and [to_text] are local
    to the function; the seven fragments are joined as they are. *)
Definition FIELDS : list (list string) :=
  [ ["important"; "title"];
    ["important"; "category"];
    ["important"; "sub_category"];
    ["important"; "tags"];
    ["important"; "targets"; "os"];
    ["important"; "targets"; "system"];
    ["important"; "risk"] ].

Fixpoint get_in (d : json) (path : list string) : json :=
  match path with
  | [] => d
  | k :: rest =>
      match d with
      | JDict e =>
          match dict_get k e with
          | Some cur => get_in cur rest
          | None => JNull
          end
      | _ => JNull
      end
  end.

Definition to_text (v : json) : string :=
  match v with
  | JNull => ""
  | JList l => join " " (map str (List.filter (fun x => negb (is_none x)) l))
  | _ => str v
  end.

Definition build_embedding_text (record : json) : string :=
  strip (join " " (map (fun p => to_text (get_in record p)) FIELDS)).

(** A row of the collection is a [dict]; a vector is the list of its
    components, each carried as a float literal. *)
Definition vector : Type := list string.

Record collection : Type := {
  coll_dim : json;
  coll_fields : list string;
  coll_index : option json;
  coll_batches : list (list json)
}.

(** What the run can observe and change: the files, the collections of
    the vector store, and the texts handed to [model.encode], call by
    call. *)
Record state : Type := {
  fs : files;
  store : gmap string collection;
  encoded : list (list string)
}.

Definition set_fs (f : files -> files) (st : state) : state :=
  {| fs := f (fs st); store := store st; encoded := encoded st |}.

Definition set_store (f : gmap string collection -> gmap string collection)
  (st : state) : state :=
  {| fs := fs st; store := f (store st); encoded := encoded st |}.

(** The collaborators outside the repository, each of which may fail. *)
Record env : Type := {
  (** [yaml.safe_load] of [data/config/embedding.yaml]; [None] when the
      file is missing. *)
  config_file : option json;
  (** [Path(s).resolve()]. *)
  resolve : string -> path;
  (** [connections.connect] succeeds. *)
  connect_ok : bool;
  (** [Collection(name=name, schema=schema)] succeeds for this dimension. *)
  create_collection_ok : string -> json -> bool;
  (** [coll.create_index] succeeds with these parameters. *)
  create_index_ok : string -> json -> bool;
  (** [SentenceTransformer(model_name)] succeeds. *)
  load_model_ok : json -> bool;
  (** [model.encode(texts)] on its [k]-th call; [None] when it raises. *)
  encode : nat -> list string -> option (list vector);
  (** [collection.insert(rows)] succeeds, [k] batches being stored. *)
  insert_ok : nat -> list json -> bool;
  (** [int(x)] for a float. *)
  int_of_float : string -> option Z;
  (** [datetime.now(UTC).isoformat()]. *)
  now : string
}.

(** [v.get(k, default)]: only a [dict] has the method. *)
Definition py_get (v : json) (k : string) (default : json) : result json :=
  match v with
  | JDict d => Ok (dict_get_default k default d)
  | _ => Raise (AttributeError "get")
  end.

Definition load_config (ev : env) : M state json :=
  match config_file ev with
  | None => sys_exit 2
  | Some v => ret (if truthy v then v else JDict [])
  end.

Definition list_to_str (v : json) : string :=
  match v with
  | JList l => join " " (map str (List.filter (fun x => negb (is_none x)) l))
  | JNull => EmptyString
  | _ => str v
  end.

Definition extract_scalar_fields (record : json)
  : result (list (string * json)) :=
  match py_get record "important" (JDict []) with
  | Ok important =>
      match py_get important "targets" (JDict []) with
      | Ok targets =>
          match py_get record "id" (JStr ""),
                py_get important "title" (JStr ""),
                py_get important "category" (JStr ""),
                py_get important "sub_category" (JStr ""),
                py_get important "risk" (JStr ""),
                py_get important "tags" (JList []),
                py_get targets "os" (JList []),
                py_get targets "system" (JList []) with
          | Ok id, Ok title, Ok category, Ok sub_category, Ok risk,
            Ok tags, Ok os, Ok system =>
              Ok [("id", id); ("title", title); ("category", category);
                  ("sub_category", sub_category); ("risk", risk);
                  ("tags", JStr (list_to_str tags));
                  ("os", JStr (list_to_str os));
                  ("system", JStr (list_to_str system))]
          | _, _, _, _, _, _, _, _ => Raise (AttributeError "get")
          end
      | Raise e => Raise e
      | Exit c => Exit c
      end
  | Raise e => Raise e
  | Exit c => Exit c
  end.

Definition COLLECTION_FIELDS : list string :=
  ["id"; "embedding"; "title"; "category"; "sub_category"; "risk"; "tags";
   "os"; "system"; "raw"].

(** [coll.create_index(...)] inside [try ... except Exception: pass]. *)
Definition create_index (ev : env) (name : string) (params : json)
  : M state unit :=
  modify (set_store (fun s =>
    match s !! name with
    | Some c =>
        if create_index_ok ev name params then
          match coll_index c with
          | None =>
              <[name := {| coll_dim := coll_dim c; coll_fields := coll_fields c;
                           coll_index := Some params;
                           coll_batches := coll_batches c |}]> s
          | Some _ => s
          end
        else s
    | None => s
    end)).

Definition ensure_collection (ev : env) (config : json) : M state string :=
  (let* c := lift (py_get config "collection" (JDict [])) in
   let* name := lift (py_get c "name" (JStr "attacks_v2")) in
   let* dim := lift (py_get c "dim" (JInt 384)) in
   match name with
   | JStr name =>
       let* st := get in
       (match store st !! name with
        | Some _ => ret tt
        | None =>
            if create_collection_ok ev name dim then
              modify (set_store (fun s =>
                <[name := {| coll_dim := dim; coll_fields := COLLECTION_FIELDS;
                             coll_index := None; coll_batches := [] |}]> s))
            else raise (ExternalError "Collection")
        end) >>
       let* idx_type := lift (py_get c "index_type" (JStr "HNSW")) in
       let* metric := lift (py_get c "metric_type" (JStr "COSINE")) in
       let* params := lift (py_get c "index_params"
                              (JDict [("M", JInt 16);
                                      ("efConstruction", JInt 200)])) in
       create_index ev name
         (JDict [("index_type", idx_type); ("metric_type", metric);
                 ("params", params)]) >>
       ret name
   | _ => raise (ExternalError "has_collection")
   end)%py.

Definition write_text (p : path) (text : string) : M state unit :=
  modify (set_fs (fun f => <[p := text]> f)).

Definition read_text (p : path) : M state string :=
  fun st =>
    match fs st !! p with
    | Some t => (Ok t, st)
    | None => (Raise (FileNotFoundError p), st)
    end.

(** [tmp_path.replace(done_path)]. *)
Definition replace (src dst : path) : M state unit :=
  fun st =>
    match fs st !! src with
    | Some t => (Ok tt, set_fs (fun f => <[dst := t]> (delete src f)) st)
    | None => (Raise (FileNotFoundError src), st)
    end.

Definition write_checkpoint_atomic (checkpoints_root : path) (stem : string)
  (payload : json) : M state path :=
  let done_path := Path.child checkpoints_root (stem +:+ ".done") in
  let tmp_path := Path.child checkpoints_root (stem +:+ ".done.tmp") in
  (write_text tmp_path (dumps_pretty payload) >>
   replace tmp_path done_path >>
   ret done_path)%py.

(** The records the generator yields: blank lines and lines that do not
    parse are passed over. *)
Definition stream_records (text : string) : list json :=
  omap (fun line =>
          let line := strip line in
          if nonempty line then loads line else None)
       (splitlines text).

(** [model.encode(texts, ...)]; the call is recorded as it is made. *)
Definition model_encode (ev : env) (texts : list string)
  : M state (list vector) :=
  fun st =>
    let st' := {| fs := fs st; store := store st;
                  encoded := encoded st ++ [texts] |} in
    match encode ev (length (encoded st)) texts with
    | Some vs => (Ok vs, st')
    | None => (Raise (ExternalError "encode"), st')
    end.

(** [collection.insert(rows)]. *)
Definition insert (ev : env) (name : string) (rows : list json)
  : M state unit :=
  fun st =>
    match store st !! name with
    | Some c =>
        if insert_ok ev (length (coll_batches c)) rows then
          (Ok tt,
           set_store (fun s =>
             <[name := {| coll_dim := coll_dim c; coll_fields := coll_fields c;
                          coll_index := coll_index c;
                          coll_batches := coll_batches c ++ [rows] |}]> s) st)
        else (Raise (ExternalError "insert"), st)
    | None => (Raise (ExternalError "insert"), st)
    end.

(** The rows of one batch, [zip(records, embeddings)] in order. *)
Fixpoint build_rows (pairs : list (json * vector)) : result (list json) :=
  match pairs with
  | [] => Ok []
  | (r, e) :: rest =>
      match extract_scalar_fields r with
      | Ok s =>
          let field k := dict_get_default k JNull s in
          let row :=
            JDict [("id", field "id");
                   ("embedding", JList (map JFloat e));
                   ("title", field "title");
                   ("category", field "category");
                   ("sub_category", field "sub_category");
                   ("risk", field "risk");
                   ("tags", field "tags");
                   ("os", field "os");
                   ("system", field "system");
                   ("raw", r)] in
          match build_rows rest with
          | Ok rows => Ok (row :: rows)
          | Raise x => Raise x
          | Exit c => Exit c
          end
      | Raise x => Raise x
      | Exit c => Exit c
      end
  end.

(** [flush_batch] on the buffers it closes over; the caller empties them
    when it returns. *)
Definition flush_batch (ev : env) (collection : string)
  (texts : list string) (records : list json) : M state Z :=
  match texts with
  | [] => ret 0
  | _ :: _ =>
      (let* embeddings := model_encode ev texts in
       let* rows := lift (build_rows (combine records embeddings)) in
       insert ev collection rows >>
       ret (Z.of_nat (length rows)))%py
  end.

(** [for rec in stream_records(jsonl_path): ...], the buffers and the
    count threaded through. *)
Fixpoint ingest_loop (ev : env) (collection : string) (batch_size : Z)
  (recs : list json) (texts : list string) (records : list json)
  (total_count : Z) : M state (list string * list json * Z) :=
  match recs with
  | [] => ret (texts, records, total_count)
  | rec :: rest =>
      let total_count := total_count + 1 in
      let texts := texts ++ [build_embedding_text rec] in
      let records := records ++ [rec] in
      if batch_size <=? Z.of_nat (length texts) then
        (flush_batch ev collection texts records >>
         ingest_loop ev collection batch_size rest [] [] total_count)%py
      else ingest_loop ev collection batch_size rest texts records total_count
  end.

(** [int(x)]. *)
Definition py_int (ev : env) (v : json) : result Z :=
  match v with
  | JInt z => Ok z
  | JBool b => Ok (if b then 1 else 0)
  | JStr s =>
      match int_of_str s with
      | Some z => Ok z
      | None => Raise (ValueError "invalid literal for int()")
      end
  | JFloat lit =>
      match int_of_float ev lit with
      | Some z => Ok z
      | None => Raise (ValueError "cannot convert float to integer")
      end
  | _ => Raise (TypeError "int() argument")
  end.

(** [Path(x)]: the argument must be a [str]. *)
Definition to_path (ev : env) (v : json) : result path :=
  match v with
  | JStr s => Ok (resolve ev s)
  | _ => Raise (TypeError "expected str, bytes or os.PathLike object")
  end.

Definition checkpoint_payload (ev : env) (config : json) (jsonl_path : path)
  (collection : string) (total_count : Z) : result json :=
  match py_get config "model_name" (JStr "unknown"),
        py_get config "collection" (JDict []) with
  | Ok model_name, Ok c =>
      match py_get c "dim" (JInt 384) with
      | Ok dim =>
          Ok (JDict [("source_file", JStr (Path.to_str jsonl_path));
                     ("collection_name", JStr collection);
                     ("records_ingested", JInt total_count);
                     ("model_name", model_name);
                     ("vector_dim", dim);
                     ("ingested_at", JStr (now ev))])
      | Raise e => Raise e
      | Exit x => Exit x
      end
  | Raise e, _ => Raise e
  | _, Raise e => Raise e
  | Exit x, _ => Exit x
  | _, Exit x => Exit x
  end.

(** The body of [try:], entered with neither marker present. *)
Definition locked_phase (ev : env) (config : json) (collection : string)
  (jsonl_path checkpoints_root lock_path : path) : M state unit :=
  (write_text lock_path "lock" >>
   let* model_name :=
     lift (py_get config "model_name"
             (JStr "sentence-transformers/all-MiniLM-L6-v2")) in
   (if load_model_ok ev model_name then ret tt
    else raise (ExternalError "SentenceTransformer")) >>
   let* b := lift (py_get config "batch_size" (JInt 512)) in
   let* batch_size := lift (py_int ev b) in
   let* text := read_text jsonl_path in
   let* (texts, records, total_count) :=
     ingest_loop ev collection batch_size (stream_records text) [] [] 0 in
   flush_batch ev collection texts records >>
   let* payload :=
     lift (checkpoint_payload ev config jsonl_path collection total_count) in
   write_checkpoint_atomic checkpoints_root (Path.stem jsonl_path) payload >>
   ret tt)%py.

(** The [finally:] clause. *)
Definition release_lock (lock_path : path) (st : state) : state :=
  if Path.exists_in (fs st) lock_path
  then set_fs (fun f => delete lock_path f) st
  else st.

(** [main], [jsonl_path] being the resolved argument. *)
Definition main (ev : env) (jsonl_path : path) : M state unit :=
  (let* st := get in
   if negb (Path.exists_in (fs st) jsonl_path) then sys_exit 2
   else
     let* config := load_config ev in
     (if connect_ok ev then ret tt else raise (ExternalError "connect")) >>
     let* collection := ensure_collection ev config in
     let* paths := lift (py_get config "paths" (JDict [])) in
     let* root :=
       lift (py_get paths "checkpoints_root" (JStr "./data/checkpoints")) in
     let* checkpoints_root := lift (to_path ev root) in
     let stem := Path.stem jsonl_path in
     let lock_path := Path.child checkpoints_root (stem +:+ ".lock") in
     let done_path := Path.child checkpoints_root (stem +:+ ".done") in
     let* st := get in
     if Path.exists_in (fs st) done_path then ret tt
     else if Path.exists_in (fs st) lock_path then ret tt
     else
       try_finally
         (locked_phase ev config collection jsonl_path checkpoints_root
            lock_path)
         (release_lock lock_path))%py.

End Ingest.

(* ===================================================================== *)
(** * The sweep of [src/watcher.py] *)
(* ===================================================================== *)

Module Watcher.

Definition EXCLUDE_NAMES : list string := ["MANIFEST.jsonl"].

(** The sweep runs on the Ingestor's state and records the dataset files
    it launches the Ingestor on. *)
Record state : Type := {
  world : Ingest.state;
  launched : list path
}.

Section WithPaths.

(** [Path("data/datasets").resolve()] and
    [Path("data/checkpoints").resolve()]. *)
Variable DATASETS : path.
Variable CHECKPOINTS : path.

(** [DATASETS.rglob("*.jsonl")]: the files below [DATASETS] whose name
    ends in [.jsonl]. *)
Definition rglob_jsonl (fs : files) : list path :=
  List.filter
    (fun p => Path.is_under DATASETS p
              && (length DATASETS <? length p)%nat
              && endswith ".jsonl" (Path.name p))
    (map fst (map_to_list fs)).

(** [subprocess.run([..., "-m", "src.ingest_to_milvus", str(jsonl), ...],
    check=True)]: an uncaught exception ends the child with status 1, and
    a non-zero status raises in the parent. *)
Definition run_ingest (ev : Ingest.env) (jsonl : path) : M state unit :=
  fun st =>
    let '(r, w) := Ingest.main ev jsonl (world st) in
    let st' := {| world := w; launched := launched st ++ [jsonl] |} in
    match r with
    | Ok _ => (Ok tt, st')
    | Exit c => if c =? 0 then (Ok tt, st')
                else (Raise (ExternalError "CalledProcessError"), st')
    | Raise _ => (Raise (ExternalError "CalledProcessError"), st')
    end.

Fixpoint sweep (ev : Ingest.env) (candidates : list path) : M state unit :=
  match candidates with
  | [] => ret tt
  | jsonl :: rest =>
      if bool_decide (Path.name jsonl ∈ EXCLUDE_NAMES) then sweep ev rest
      else
        let done := Path.child CHECKPOINTS (Path.stem jsonl +:+ ".done") in
        let lock := Path.child CHECKPOINTS (Path.stem jsonl +:+ ".lock") in
        (let* st := get in
         if Path.exists_in (Ingest.fs (world st)) done
            || Path.exists_in (Ingest.fs (world st)) lock
         then sweep ev rest
         else run_ingest ev jsonl >> sweep ev rest)%py
  end.

Definition ingest_pending (ev : Ingest.env) : M state unit :=
  (let* st := get in
   sweep ev (rglob_jsonl (Ingest.fs (world st))))%py.

End WithPaths.

End Watcher.

(* ===================================================================== *)
(** * The inbox handler of [src/watcher.py] *)
(* ===================================================================== *)

Module Handler.

Definition IGNORES : list string := [".tmp"; ".part"; ".crdownload"; "~"].

(** The suffixes [_maybe_process] goes on with. *)
Definition HANDLED : list string := [".json"; ".jsonl"].

(** A file-system event: [event.is_directory] and [Path(event.src_path)]. *)
Record event : Type := {
  is_directory : bool;
  src_path : path
}.

(** What the handler works on: the files and the vector store with the
    record of the Ingestor's launches, the Normalizer's log and the
    submissions it was launched on, and the handler's own fields. *)
Record state : Type := {
  pipeline : Watcher.state;
  nlog : list Normalize.log_entry;
  normalized : list path;
  debounce_ms : Z;
  last_ts : gmap path Z
}.

Definition files_of (st : state) : files :=
  Ingest.fs (Watcher.world (pipeline st)).

Definition set_pipeline (w : Watcher.state) (st : state) : state :=
  {| pipeline := w; nlog := nlog st; normalized := normalized st;
     debounce_ms := debounce_ms st; last_ts := last_ts st |}.

(** [InboxHandler()]: the default debounce, no path seen yet. *)
Definition new_handler (w : Watcher.state) : state :=
  {| pipeline := w; nlog := []; normalized := []; debounce_ms := 1200;
     last_ts := ∅ |}.

Section WithPaths.

(** The root of the repository, the two directories the watcher
    resolves, the collaborators of the Ingestor, and what the handler
    cannot decide itself: whether the size of a file is the same after
    the wait, and the clock of the Normalizer. *)
Variable ROOT : path.
Variable DATASETS : path.
Variable CHECKPOINTS : path.
Variable ev : Ingest.env.
Variable stable : path -> bool.
Variable now : string.

(** [is_ready]: the file exists, and still does after the wait, with
    the size it had. *)
Definition is_ready (p : path) : M state bool :=
  (let* st := get in
   if negb (Path.exists_in (files_of st) p) then ret false
   else ret (Path.exists_in (files_of st) p && stable p))%py.

(** The two tests on the name. *)
Definition wanted (p : path) : bool :=
  bool_decide (lower (Path.suffix p) ∈ HANDLED).

Definition ignored (p : path) : bool :=
  existsb (fun s => endswith s (Path.to_str p)) IGNORES.

(** [subprocess.run([..., "-m", "src.normalize_and_move", str(src)],
    check=True)]: the Normalizer runs on the files, and a status other
    than zero raises in the parent. *)
Definition normalize_one (src : path) : M state unit :=
  fun st =>
    let w := Watcher.world (pipeline st) in
    let '(r, n) :=
      Normalize.main ROOT now [src]
        {| Normalize.fs := Ingest.fs w; Normalize.log := nlog st |} in
    let st' :=
      {| pipeline :=
           {| Watcher.world :=
                Ingest.set_fs (fun _ => Normalize.fs n) w;
              Watcher.launched := Watcher.launched (pipeline st) |};
         nlog := Normalize.log n;
         normalized := normalized st ++ [src];
         debounce_ms := debounce_ms st;
         last_ts := last_ts st |} in
    match r with
    | Ok _ => (Ok tt, st')
    | Exit c => if c =? 0 then (Ok tt, st')
                else (Raise (ExternalError "CalledProcessError"), st')
    | Raise _ => (Raise (ExternalError "CalledProcessError"), st')
    end.

(** [ingest_pending()], on the handler's state. *)
Definition ingest_pending : M state unit :=
  fun st =>
    let '(r, w) :=
      Watcher.ingest_pending DATASETS CHECKPOINTS ev (pipeline st) in
    (r, set_pipeline w st).

(** [_maybe_process], the clock in milliseconds being read when the
    event has passed the tests. *)
Definition maybe_process (now_ms : Z) (e : event) : M state unit :=
  if is_directory e then ret tt
  else
    let p := src_path e in
    if negb (wanted p) then ret tt
    else if ignored p then ret tt
    else
      (let* ready := is_ready p in
       if negb ready then ret tt
       else
         let* st := get in
         let last := match last_ts st !! p with
                     | Some t => t
                     | None => 0
                     end in
         if now_ms - last <? debounce_ms st then ret tt
         else
           modify (fun st =>
             {| pipeline := pipeline st; nlog := nlog st;
                normalized := normalized st; debounce_ms := debounce_ms st;
                last_ts := <[p := now_ms]> (last_ts st) |}) >>
           try_except (normalize_one p >> ingest_pending)
             (fun e =>
                match e with
                | ExternalError "CalledProcessError" => ret tt
                | _ => raise e
                end))%py.

(** [on_created], [on_moved] and [on_modified] all do the same. *)
Definition on_created := maybe_process.
Definition on_moved := maybe_process.
Definition on_modified := maybe_process.

End WithPaths.

End Handler.

(* ===================================================================== *)
(** * The preview of [src/embeddings_preview.py] *)
(* ===================================================================== *)

Module PreviewCli.

(** A line of the standard output; the text of a decoding error is not
    modelled. *)
Inductive printed : Type :=
| Skipping
| Line (s : string).

(** The loop of [preview]: the count, the examples and what was printed
    so far. *)
Fixpoint preview_loop (lines : list string) (max_examples : nat)
  (total : Z) (examples : list string) (out : list printed)
  : Z * list string * list printed :=
  match lines with
  | [] => (total, examples, out)
  | line :: rest =>
      let line := strip line in
      if negb (nonempty line) then
        preview_loop rest max_examples total examples out
      else
        match loads line with
        | None =>
            preview_loop rest max_examples total examples (out ++ [Skipping])
        | Some obj =>
            let total := total + 1 in
            let examples :=
              if (length examples <? max_examples)%nat
              then examples ++ [Preview.build_embedding_text obj]
              else examples in
            preview_loop rest max_examples total examples out
        end
  end.

(** [for i, ex in enumerate(examples, 1): ...]. *)
Fixpoint print_examples (i : Z) (examples : list string) : list printed :=
  match examples with
  | [] => []
  | ex :: rest =>
      [Line ("Example embedding text #" +:+ str_int i +:+ ":"); Line ex;
       Line "----------------------------------------"]
      ++ print_examples (i + 1) rest
  end.

(** [preview(jsonl_path, max_examples)], on the text of the file: what
    it prints. *)
Definition preview (text : string) (max_examples : nat) : list printed :=
  let '(total, examples, out) :=
    preview_loop (splitlines text) max_examples 0 [] [] in
  out ++ [Line ("Records: " +:+ str_int total)] ++ print_examples 1 examples.

(** [main], [args] being [sys.argv[1:]] with each path resolved: the
    exit status, if any, and what is printed. *)
Definition main (fs : files) (args : list path) : result unit * list printed :=
  match args with
  | [p] =>
      match fs !! p with
      | None => (Exit 2, [Line ("File not found: " +:+ Path.to_str p)])
      | Some text => (Ok tt, preview text 2)
      end
  | _ =>
      (Exit 1,
       [Line "Usage: python -m src.embeddings_preview <path-to-jsonl>"])
  end.

End PreviewCli.

(* ===================================================================== *)
(** * The configuration of [src/embeddings_real.py] *)
(* ===================================================================== *)

Module RealConfig.

(** [load_config], the [yaml] module being installed: the name of the
    model and the batch size, with their defaults. *)
Definition load_config (ev : Ingest.env) : string * Z :=
  let defaults := ("all-MiniLM-L6-v2", 512) in
  match Ingest.config_file ev with
  | None => defaults
  | Some raw =>
      let data := if truthy raw then raw else JDict [] in
      match data with
      | JDict d =>
          (match dict_get "model_name" d with
           | Some v => str v
           | None => fst defaults
           end,
           match dict_get "batch_size" d with
           | Some v =>
               match Ingest.py_int ev v with
               | Ok z => z
               | _ => snd defaults
               end
           | None => snd defaults
           end)
      | _ => defaults
      end
  end.

(** [stream_records]: the values of the lines that are not blank and
    parse. *)
Fixpoint stream_records_of (lines : list string) : list json :=
  match lines with
  | [] => []
  | line :: rest =>
      let line := strip line in
      if negb (nonempty line) then stream_records_of rest
      else
        match loads line with
        | Some obj => obj :: stream_records_of rest
        | None => stream_records_of rest
        end
  end.

Definition stream_records (text : string) : list json :=
  stream_records_of (splitlines text).

End RealConfig.

(* ===================================================================== *)
(** * Observations on text *)
(* ===================================================================== *)

(** Two consecutive spaces somewhere in [s]. *)
Fixpoint double_space (s : string) : bool :=
  match s with
  | EmptyString => false
  | String a s' =>
      (Ascii.eqb a space
       && match s' with String b _ => Ascii.eqb b space | EmptyString => false end)
      || double_space s'
  end.

Definition first_char (s : string) : option ascii :=
  match s with EmptyString => None | String c _ => Some c end.

Fixpoint last_char (s : string) : option ascii :=
  match s with
  | EmptyString => None
  | String c s' => match s' with EmptyString => Some c | _ => last_char s' end
  end.

Definition leading_space (s : string) : bool :=
  match first_char s with Some c => Ascii.eqb c space | None => false end.

Definition trailing_space (s : string) : bool :=
  match last_char s with Some c => Ascii.eqb c space | None => false end.

(** A fragment that brings no spacing defect of its own. *)
Definition tidy (s : string) : bool :=
  negb (double_space s) && negb (leading_space s) && negb (trailing_space s).

(** A record with a title and a risk only. *)
Definition title_risk_record : json :=
  JDict [("important", JDict [("title", JStr "T"); ("risk", JStr "high")])].

(** The record of the specification's scenario. *)
Definition sample_record : json :=
  JDict [("important",
          JDict [("category", JStr "malware");
                 ("sub_category", JStr "ransomware");
                 ("title", JStr "Sample X");
                 ("tags", JList [JStr "a"; JStr "b"]);
                 ("targets", JDict [("os", JList [JStr "linux"])]);
                 ("risk", JStr "high")])].

(** A canonical record whose title has two spaces in a row. *)
Definition spaced_title_record : json :=
  JDict [("important",
          JDict [("category", JStr "malware");
                 ("sub_category", JStr "ransomware");
                 ("title", JStr "Sample  X")])].


(* ===================================================================== *)
(** * Vocabulary for the properties of JSON text *)
(* ===================================================================== *)

Module JsonSpec.

(** A numeral is made of digits. *)
Fixpoint all_digits (s : string) : bool :=
  match s with
  | EmptyString => true
  | String c s' => is_digit c && all_digits s'
  end.

(** What may follow a value inside a document: nothing, a comma, or a
    closing bracket. *)
Definition is_delim (c : ascii) : bool :=
  Ascii.eqb c "," || Ascii.eqb c "]" || Ascii.eqb c "}".

Definition delimited (s : string) : bool :=
  match s with
  | EmptyString => true
  | String c _ => is_delim c
  end.

(** A value without floating-point numbers. *)
Fixpoint float_free (v : json) : bool :=
  match v with
  | JFloat _ => false
  | JList l => forallb float_free l
  | JDict d => forallb (fun kv => float_free (snd kv)) d
  | _ => true
  end.

(** The keys of every [dict] are distinct, as in any [dict]. *)
Fixpoint distinct (ks : list string) : bool :=
  match ks with
  | [] => true
  | k :: ks' => negb (existsb (String.eqb k) ks') && distinct ks'
  end.

Fixpoint well_formed (v : json) : bool :=
  match v with
  | JList l => forallb well_formed l
  | JDict d => distinct (map fst d) && forallb (fun kv => well_formed (snd kv)) d
  | _ => true
  end.

(** The number of values in a value, each item counted twice. *)
Fixpoint jsize (v : json) : nat :=
  match v with
  | JList l => S (list_sum (map (fun x => S (jsize x)) l))
  | JDict d => S (list_sum (map (fun kv => S (jsize (snd kv))) d))
  | _ => 1
  end.

(** No line feed and no carriage return in a text. *)
Fixpoint one_line (s : string) : bool :=
  match s with
  | EmptyString => true
  | String c s' =>
      negb (Ascii.eqb c "010") && negb (Ascii.eqb c "013") && one_line s'
  end.

(** The first character of a value's text starts a value. *)
Definition starts_value (s : string) : Prop :=
  exists c r, s = String c r /\ is_json_ws c = false
              /\ Ascii.eqb c "]" = false /\ Ascii.eqb c "}" = false.

(** The text of one entry of a [dict]. *)
Definition entry_text (kv : string * json) : string :=
  dumps_str (fst kv) +:+ ": " +:+ dumps (snd kv).

(** The text of a value, followed by a delimiter, is read back as the
    value, with enough nested calls allowed. *)
Definition reads_back (v : json) : Prop :=
  float_free v = true -> well_formed v = true ->
  forall n rest, (jsize v <= n)%nat -> delimited rest = true ->
  parse_value n (dumps v +:+ rest) = Some (v, rest).

End JsonSpec.

(* ===================================================================== *)
(** * Vocabulary for the Ingestor's properties *)
(* ===================================================================== *)

Module IngestSpec.
Import Ingest.

(** The steps of [main] before the gate: the configuration, the name of
    the collection and the directory of the markers. *)
Definition preamble (ev : env) (jsonl_path : path)
  : M state (json * string * path) :=
  (let* st := get in
   if negb (Path.exists_in (fs st) jsonl_path) then sys_exit 2
   else
     let* config := load_config ev in
     (if connect_ok ev then ret tt else raise (ExternalError "connect")) >>
     let* collection := ensure_collection ev config in
     let* paths := lift (py_get config "paths" (JDict [])) in
     let* root :=
       lift (py_get paths "checkpoints_root" (JStr "./data/checkpoints")) in
     let* checkpoints_root := lift (to_path ev root) in
     ret (config, collection, checkpoints_root))%py.

Definition lock_marker (root jsonl_path : path) : path :=
  Path.child root (Path.stem jsonl_path +:+ ".lock").

Definition done_marker (root jsonl_path : path) : path :=
  Path.child root (Path.stem jsonl_path +:+ ".done").

(** The gate and what it guards. *)
Definition gated (ev : env) (jsonl_path : path)
  (pre : json * string * path) : M state unit :=
  let '(config, collection, checkpoints_root) := pre in
  (let* st := get in
   if Path.exists_in (fs st) (done_marker checkpoints_root jsonl_path)
   then ret tt
   else if Path.exists_in (fs st) (lock_marker checkpoints_root jsonl_path)
   then ret tt
   else
     try_finally
       (locked_phase ev config collection jsonl_path checkpoints_root
          (lock_marker checkpoints_root jsonl_path))
       (release_lock (lock_marker checkpoints_root jsonl_path)))%py.

(** The batches stored under a collection name. *)
Definition batches_of (st : state) (name : string) : list (list json) :=
  match store st !! name with
  | Some c => coll_batches c
  | None => []
  end.

(** Nothing was written to a file, nothing was embedded, nothing was
    inserted between two states. *)
Definition untouched (st st' : state) : Prop :=
  fs st' = fs st /\ encoded st' = encoded st
  /\ forall name, batches_of st' name = batches_of st name.

Definition tmp_marker (root jsonl_path : path) : path :=
  Path.child root (Path.stem jsonl_path +:+ ".done.tmp").


(** A record from which [extract_scalar_fields] builds a row: a [dict]
    whose [important], if present, is a [dict], as is its [targets]. *)
Definition is_rowable (r : json) : bool :=
  match extract_scalar_fields r with Ok _ => true | _ => false end.

(** The sizes of the batches of [n] records taken [b] at a time. *)
Definition batch_sizes (n b : nat) : list nat :=
  replicate (n / b) b ++ (if (n mod b =? 0)%nat then [] else [(n mod b)%nat]).

(** [int(config.get("batch_size", 512))]. *)
Definition configured_batch_size (ev : env) (config : json) : result Z :=
  match py_get config "batch_size" (JInt 512) with
  | Ok v => py_int ev v
  | Raise e => Raise e
  | Exit c => Exit c
  end.

(** The embedding model named by the configuration loads. *)
Definition model_loads (ev : env) (config : json) : bool :=
  match py_get config "model_name"
          (JStr "sentence-transformers/all-MiniLM-L6-v2") with
  | Ok v => load_model_ok ev v
  | _ => false
  end.

(** The count a checkpoint payload records. *)
Definition records_ingested (payload : json) : option json :=
  match payload with
  | JDict d => dict_get "records_ingested" d
  | _ => None
  end.

(** A marker of the stem of [q] is present among the files. *)
Definition marked (root q : path) (f : files) : Prop :=
  is_Some (f !! done_marker root q) \/ is_Some (f !! lock_marker root q).

(** The collection with one more batch of rows. *)
Definition with_batch (c : collection) (rows : list json) : collection :=
  {| coll_dim := coll_dim c; coll_fields := coll_fields c;
     coll_index := coll_index c; coll_batches := coll_batches c ++ [rows] |}.

(** A line the generator yields a record for. *)
Definition parses (line : string) : bool :=
  nonempty (strip line)
  && match loads (strip line) with Some _ => true | None => false end.

End IngestSpec.

(* ===================================================================== *)
(** * Sample data *)
(* ===================================================================== *)

Module Sample.
Import Ingest IngestSpec.

Definition quoted (s : string) : string := String dquote (s +:+ str1 dquote).

(** One line of a dataset file: a record with an id and a title. *)
Definition record_line (id : string) : string :=
  "{" +:+ quoted "id" +:+ ": " +:+ quoted id +:+ ", "
  +:+ quoted "important" +:+ ": {" +:+ quoted "category" +:+ ": "
  +:+ quoted "malware" +:+ ", " +:+ quoted "sub_category" +:+ ": "
  +:+ quoted "ransomware" +:+ ", " +:+ quoted "title" +:+ ": "
  +:+ quoted "Sample X" +:+ "}}" +:+ str1 newline.

(** Five records, with a blank line and a line that is not JSON among
    them. *)
Definition five_records : string :=
  record_line "1" +:+ record_line "2" +:+ "not json" +:+ str1 newline
  +:+ record_line "3" +:+ str1 newline +:+ record_line "4"
  +:+ record_line "5".

(** Lines none of which parses. *)
Definition no_records : string :=
  "{" +:+ quoted "a" +:+ ":}" +:+ str1 newline +:+ "   " +:+ str1 newline
  +:+ "not json" +:+ str1 newline.

Definition checkpoints : path := ["srv"; "data"; "checkpoints"].
Definition dataset_file : path :=
  ["srv"; "data"; "datasets"; "malware"; "ransomware"; "sample_x_v1.jsonl"].
(** A file of the same stem in another folder. *)
Definition dataset_twin : path :=
  ["srv"; "data"; "datasets"; "phishing"; "email"; "sample_x_v1.jsonl"].

(** A configuration with a batch size of two, and collaborators that
    never fail. *)
Definition ev_ok : env := {|
  config_file := Some (JDict [("batch_size", JInt 2)]);
  resolve := fun _ => checkpoints;
  connect_ok := true;
  create_collection_ok := fun _ _ => true;
  create_index_ok := fun _ _ => true;
  load_model_ok := fun _ => true;
  encode := fun _ texts => Some (map (fun _ => ["0.5"; "0.25"]) texts);
  insert_ok := fun _ _ => true;
  int_of_float := fun _ => None;
  now := "2025-01-01T00:00:00+00:00"
|}.

(** The same, with an embedding model that raises on every call. *)
Definition ev_encode_fails : env := {|
  config_file := config_file ev_ok;
  resolve := resolve ev_ok;
  connect_ok := true;
  create_collection_ok := fun _ _ => true;
  create_index_ok := fun _ _ => true;
  load_model_ok := fun _ => true;
  encode := fun _ _ => None;
  insert_ok := fun _ _ => true;
  int_of_float := fun _ => None;
  now := now ev_ok
|}.

Definition st_of (f : files) : state :=
  {| fs := f; store := ∅; encoded := [] |}.

(** A dataset file not yet ingested. *)
Definition st_fresh : state := st_of {[ dataset_file := five_records ]}.

(** A dataset file whose lines are all malformed or blank. *)
Definition st_malformed : state := st_of {[ dataset_file := no_records ]}.

(** A dataset file whose checkpoint exists, the store being empty. *)
Definition st_done : state :=
  st_of (<[Path.child checkpoints "sample_x_v1.done" := "{}"]>
           {[ dataset_file := five_records ]}).

(** Two dataset files of the same stem, neither ingested. *)
Definition st_twins : state :=
  st_of (<[dataset_twin := five_records]> {[ dataset_file := five_records ]}).

End Sample.

(* ===================================================================== *)
(** * Vocabulary for the Normalizer's properties *)
(* ===================================================================== *)

Module NormalizeSpec.
Import Normalize.

(** A destination folder of the dataset store. *)
Definition folder : path :=
  ["srv"; "data"; "datasets"; "malware"; "ransomware"].

(** The folder of the specification's scenario: versions 1 and 3 of the
    slug [foo]. *)
Definition folder_v1_v3 : files :=
  <[Path.child folder "foo_v3.jsonl" := "{}"]>
    {[ Path.child folder "foo_v1.jsonl" := "{}" ]}.

(** A folder holding the first version of the slug [foo_v2] only, as
    left by a submission titled [Foo v2]. *)
Definition folder_other_slug : files :=
  {[ Path.child folder "foo_v2_v1.jsonl" := "{}" ]}.

(** A line that is not blank and does not parse as a JSON object. *)
Definition bad_line (line : string) : bool :=
  nonempty (strip line)
  && negb match loads (strip line) with
          | Some (JDict _) => true
          | _ => false
          end.

(** Where a failed submission is moved, and where its conversion is
    staged. *)
Definition failed_path (ROOT src : path) : path :=
  Path.child (ERRORS ROOT) (Path.name src +:+ ".failed").

Definition staging_path (ROOT src : path) : path :=
  Path.child (STAGING ROOT) (Path.stem src +:+ ".jsonl").

(** The body of the [try:] of [main], and its [except] clause. *)
Definition convert_and_move (ROOT : path) (now : string) (src : path)
  : M state unit :=
  (let* (jsonl_path, count) := normalize_to_jsonl ROOT src in
   let* first := first_record_from_jsonl jsonl_path in
   let* (category, sub_category, title) := lift (extract_keys first) in
   let* dest_folder := lift (dest_folder_of ROOT category sub_category) in
   let* base_slug := lift (base_slug_of category sub_category title) in
   let* st := get in
   let dest_path := next_version_path (fs st) dest_folder base_slug in
   move jsonl_path dest_path >>
   append_manifest now dest_folder (Path.name dest_path) count >>
   log_line (LogMoved (Path.name src) (str category) (str sub_category)
               (Path.name dest_path) count))%py.

Definition quarantine (ROOT src : path) (e : exn) : M state unit :=
  (let failed := Path.child (ERRORS ROOT) (Path.name src +:+ ".failed") in
   try_except (move src failed) (fun _ => ret tt) >>
   log_line (LogError (Path.name src) e) >>
   sys_exit 2)%py.

(** The repository root of the samples, and a submission in the inbox. *)
Definition root : path := ["srv"].

Definition inbox_jsonl : path := INBOX root ++ ["batch.jsonl"].

(** A JSONL submission whose second line is the specification's
    malformed line. *)
Definition malformed_submission : string :=
  "{" +:+ Sample.quoted "id" +:+ ": 1}" +:+ line_end
  +:+ "{" +:+ Sample.quoted "a" +:+ ":}" +:+ line_end.

Definition st_malformed_submission : state :=
  {| fs := {[ inbox_jsonl := malformed_submission ]}; log := [] |}.

(** A title from which [main] can make a slug: the key is absent, or its
    value is a string or is falsy. *)
Definition sluggable (title : option json) : bool :=
  match title with
  | None => true
  | Some (JStr _) => true
  | Some t => negb (truthy t)
  end.

(** The folder of a category and a sub-category, and the text of its
    manifest, empty when there is none. *)
Definition dataset_folder (ROOT : path) (c sc : string) : path :=
  Path.child (Path.child (DATASETS ROOT) c) sc.

Definition manifest_text (f : files) (folder : path) : string :=
  match f !! Path.child folder "MANIFEST.jsonl" with
  | Some old => old
  | None => EmptyString
  end.

(** A submission of one object, its title given as JSON text. *)
Definition inbox_json : path := INBOX root ++ ["note.json"].

Definition object_text (title : string) : string :=
  "{" +:+ Sample.quoted "important" +:+ ": {"
  +:+ Sample.quoted "category" +:+ ": " +:+ Sample.quoted "malware" +:+ ", "
  +:+ Sample.quoted "sub_category" +:+ ": " +:+ Sample.quoted "ransomware"
  +:+ ", " +:+ Sample.quoted "title" +:+ ": " +:+ title +:+ "},"
  +:+ line_end +:+ " " +:+ Sample.quoted "id" +:+ ": 7}" +:+ line_end.

Definition object_of (title : json) : list (string * json) :=
  [("important", JDict [("category", JStr "malware");
                        ("sub_category", JStr "ransomware");
                        ("title", title)]);
   ("id", JInt 7)].

Definition st_object (title : string) : state :=
  {| fs := {[ inbox_json := object_text title ]}; log := [] |}.

(** The files of the dataset store. *)
Definition dataset_files (ROOT : path) (st : state) : list path :=
  List.filter (Path.is_under (DATASETS ROOT)) (map fst (map_to_list (fs st))).

End NormalizeSpec.

(* ===================================================================== *)
(** * Vocabulary for the properties of slugs and versions *)
(* ===================================================================== *)

Module SlugSpec.
Import Normalize.

(** Every character of [s] passes the test [p]. *)
Fixpoint all_chars (p : ascii -> bool) (s : string) : bool :=
  match s with
  | EmptyString => true
  | String c s' => p c && all_chars p s'
  end.

(** Two consecutive characters of [s] pass the test [p]. *)
Fixpoint has_run (p : ascii -> bool) (s : string) : bool :=
  match s with
  | EmptyString => false
  | String a s' =>
      (p a && match s' with String b _ => p b | EmptyString => false end)
      || has_run p s'
  end.

Definition starts_with_char (p : ascii -> bool) (s : string) : bool :=
  match first_char s with Some c => p c | None => false end.

Definition ends_with_char (p : ascii -> bool) (s : string) : bool :=
  match last_char s with Some c => p c | None => false end.

(** The shape of a slug: lower-case letters, digits and single
    underscores, with no underscore at either end, and not empty. *)
Definition slug_char (c : ascii) : bool := is_slug_char c || is_underscore c.

Definition is_slug (s : string) : bool :=
  nonempty s && all_chars slug_char s
  && negb (has_run is_underscore s)
  && negb (starts_with_char is_underscore s)
  && negb (ends_with_char is_underscore s).

End SlugSpec.

(* ===================================================================== *)
(** * Vocabulary for the intake of submissions *)
(* ===================================================================== *)

Module IntakeSpec.
Import Normalize NormalizeSpec.

(** The text of a dataset file: one record per line. *)
Definition jsonl_text (items : list json) : string :=
  fold_right (fun v acc => dumps v +:+ line_end +:+ acc) EmptyString items.

(** The records of the lines of a submission: the value of each line
    that is not blank and parses. *)
Definition records_of (lines : list string) : list json :=
  omap (fun line => if nonempty (strip line) then loads (strip line) else None)
       lines.

(** The first record has what [extract_keys] asks for. *)
Definition has_keys (first : json) : bool :=
  match extract_keys first with Ok _ => true | _ => false end.

(** A submission with its text has been refused with the error [e]: it
    has left its place for the errors area, no file of the dataset store
    has changed, and the error is logged. *)
Definition refused (ROOT src : path) (text : string) (e : exn)
  (st st' : state) : Prop :=
  fs st' !! src = None
  /\ fs st' !! failed_path ROOT src = Some text
  /\ (forall q, Path.is_under (DATASETS ROOT) q = true -> q <> src ->
                fs st' !! q = fs st !! q)
  /\ log st' = log st ++ [LogError (Path.name src) e].

(** Sample submissions: an array of two records, the same with a number
    between them, and lines of records with a blank line. *)
Definition record_text (id : string) : string :=
  "{" +:+ Sample.quoted "important" +:+ ": {"
  +:+ Sample.quoted "category" +:+ ": " +:+ Sample.quoted "malware" +:+ ", "
  +:+ Sample.quoted "sub_category" +:+ ": " +:+ Sample.quoted "ransomware"
  +:+ "}, " +:+ Sample.quoted "id" +:+ ": " +:+ id +:+ "}".

Definition record_of (id : Z) : json :=
  JDict [("important", JDict [("category", JStr "malware");
                              ("sub_category", JStr "ransomware")]);
         ("id", JInt id)].

Definition array_text : string :=
  "[" +:+ record_text "1" +:+ "," +:+ line_end +:+ " " +:+ record_text "2"
  +:+ "]".

Definition mixed_array_text : string :=
  "[" +:+ record_text "1" +:+ ", 5, " +:+ record_text "2" +:+ "]".

Definition lines_text : string :=
  record_text "1" +:+ line_end +:+ "  " +:+ line_end
  +:+ " " +:+ record_text "2" +:+ " " +:+ line_end.

Definition st_with (p : path) (text : string) : state :=
  {| fs := {[ p := text ]}; log := [] |}.

End IntakeSpec.

(* ===================================================================== *)
(** * Vocabulary for the vector store during a run *)
(* ===================================================================== *)

Module StoreSpec.
Import Ingest IngestSpec.

(** A collection as it was, with more batches perhaps. *)
Definition extends_collection (c c' : collection) : Prop :=
  coll_dim c' = coll_dim c /\ coll_fields c' = coll_fields c
  /\ coll_index c' = coll_index c
  /\ exists bs, coll_batches c' = coll_batches c ++ bs.

(** Every collection is as it was, with more batches perhaps, and no
    collection has appeared. *)
Definition grows (s s' : gmap string collection) : Prop :=
  forall n, match s !! n with
            | Some c => exists c', s' !! n = Some c' /\ extends_collection c c'
            | None => s' !! n = None
            end.

(** Every collection is still there with its dimension, its fields, its
    index if it had one, and its batches, followed by more perhaps. *)
Definition keeps_rows (s s' : gmap string collection) : Prop :=
  forall n c, s !! n = Some c ->
    exists c', s' !! n = Some c'
               /\ coll_dim c' = coll_dim c /\ coll_fields c' = coll_fields c
               /\ (forall i, coll_index c = Some i -> coll_index c' = Some i)
               /\ exists bs, coll_batches c' = coll_batches c ++ bs.

End StoreSpec.

(* ===================================================================== *)
(** * Vocabulary for the rows of a batch *)
(* ===================================================================== *)

Module RowSpec.
Import Ingest IngestSpec.

(** The value of a key is an object, or the key is absent. *)
Definition object_or_absent (v : option json) : bool :=
  match v with
  | None => true
  | Some (JDict _) => true
  | Some _ => false
  end.

(** A record is an object whose [important], when present, is an object
    whose [targets], when present, is an object. *)
Definition row_shape (r : json) : bool :=
  match r with
  | JDict d =>
      match dict_get "important" d with
      | None => true
      | Some (JDict imp) => object_or_absent (dict_get "targets" imp)
      | Some _ => false
      end
  | _ => false
  end.

(** The columns of a row that [extract_scalar_fields] fills. *)
Definition SCALAR_COLUMNS : list string :=
  ["id"; "title"; "category"; "sub_category"; "risk"; "tags"; "os"; "system"].

Definition is_str (v : json) : bool :=
  match v with JStr _ => true | _ => false end.

(** The sample collaborators, with another batch size configured. *)
Definition ev_with_batch (b : Z) : env := {|
  config_file := Some (JDict [("batch_size", JInt b)]);
  resolve := resolve Sample.ev_ok;
  connect_ok := true;
  create_collection_ok := fun _ _ => true;
  create_index_ok := fun _ _ => true;
  load_model_ok := fun _ => true;
  encode := encode Sample.ev_ok;
  insert_ok := fun _ _ => true;
  int_of_float := fun _ => None;
  now := now Sample.ev_ok
|}.

(** A dataset file whose second record has a null [important]. *)
Definition null_important : string :=
  Sample.record_line "1"
  +:+ "{" +:+ Sample.quoted "id" +:+ ": " +:+ Sample.quoted "2" +:+ ", "
  +:+ Sample.quoted "important" +:+ ": null}" +:+ str1 newline
  +:+ Sample.record_line "3".

Definition st_null_important : state :=
  Sample.st_of {[ Sample.dataset_file := null_important ]}.

End RowSpec.

(* ===================================================================== *)
(** * Vocabulary for the sweep *)
(* ===================================================================== *)

Module SweepSpec.
Import Ingest.

(** The directory of the markers as the Ingestor reads it from the
    configuration: [Path(config.get("paths", {}).get("checkpoints_root",
    "./data/checkpoints")).resolve()]. *)
Definition configured_root (ev : env) : result path :=
  match config_file ev with
  | None => Exit 2
  | Some raw =>
      let config := if truthy raw then raw else JDict [] in
      match py_get config "paths" (JDict []) with
      | Ok paths =>
          match py_get paths "checkpoints_root"
                  (JStr "./data/checkpoints") with
          | Ok root => to_path ev root
          | Raise e => Raise e
          | Exit c => Exit c
          end
      | Raise e => Raise e
      | Exit c => Exit c
      end
  end.

End SweepSpec.

(* ===================================================================== *)
(** * Properties of text *)
(* ===================================================================== *)

Section TextFacts.

Lemma app_cons (c : ascii) (s t : string) :
  String c s +:+ t = String c (s +:+ t).
Proof. reflexivity. Qed.

Lemma app_empty_l (t : string) : EmptyString +:+ t = t.
Proof. reflexivity. Qed.

Lemma app_empty_r (s : string) : s +:+ EmptyString = s.
Proof. induction s as [|c s IH]; [reflexivity|]. rewrite app_cons, IH. reflexivity. Qed.

Lemma app_assoc_str (s t u : string) : (s +:+ t) +:+ u = s +:+ (t +:+ u).
Proof.
  induction s as [|c s IH]; [reflexivity|].
  rewrite !app_cons, IH. reflexivity.
Qed.

Lemma length_app_str (s t : string) :
  String.length (s +:+ t) = (String.length s + String.length t)%nat.
Proof.
  induction s as [|c s IH]; [reflexivity|].
  rewrite app_cons. simpl. rewrite IH. reflexivity.
Qed.

Lemma nonempty_false (s : string) : nonempty s = false -> s = EmptyString.
Proof. destruct s; [reflexivity|discriminate]. Qed.

(** What is left by [rstrip_by] ends with a character outside the set. *)
Lemma rstrip_by_last (p : ascii -> bool) (s : string) (c : ascii) :
  last_char (rstrip_by p s) = Some c -> p c = false.
Proof.
  induction s as [|a s IH]; simpl; [discriminate|].
  destruct (nonempty (rstrip_by p s)) eqn:Hne; simpl.
  - destruct (rstrip_by p s) as [|b r] eqn:Hr; [discriminate|]. exact IH.
  - apply nonempty_false in Hne. rewrite Hne in *.
    destruct (p a) eqn:Hpa; simpl; [discriminate|].
    intros [= <-]. exact Hpa.
Qed.

Lemma lstrip_by_first (p : ascii -> bool) (s : string) (c : ascii) :
  first_char (lstrip_by p s) = Some c -> p c = false.
Proof.
  induction s as [|a s IH]; simpl; [discriminate|].
  destruct (p a) eqn:Hpa; [exact IH|].
  simpl. intros [= <-]. exact Hpa.
Qed.

(** [lstrip_by] keeps a suffix, hence the last character. *)
Lemma lstrip_by_last (p : ascii -> bool) (s : string) (c : ascii) :
  last_char (lstrip_by p s) = Some c -> last_char s = Some c.
Proof.
  induction s as [|a s IH]; simpl; [discriminate|].
  destruct (p a) eqn:Hpa.
  - intros H. specialize (IH H). destruct s; [discriminate|]. exact IH.
  - simpl. trivial.
Qed.

Lemma double_space_tail (a : ascii) (s : string) :
  double_space (String a s) = false -> double_space s = false.
Proof. simpl. intros H. apply orb_false_iff in H. tauto. Qed.

Lemma double_space_lstrip_by (p : ascii -> bool) (s : string) :
  double_space s = false -> double_space (lstrip_by p s) = false.
Proof.
  induction s as [|a s IH]; [trivial|].
  intros H. simpl lstrip_by. destruct (p a); [|exact H].
  apply IH. eapply double_space_tail; eauto.
Qed.

Lemma double_space_rstrip_by (p : ascii -> bool) (s : string) :
  double_space s = false -> double_space (rstrip_by p s) = false.
Proof.
  induction s as [|a s IH]; [trivial|].
  intros H. pose proof (double_space_tail _ _ H) as Ht.
  specialize (IH Ht). simpl rstrip_by.
  destruct (negb (nonempty (rstrip_by p s)) && p a); [reflexivity|].
  simpl in *. apply orb_false_iff in H as [H1 _].
  apply orb_false_iff. split; [|exact IH].
  destruct (Ascii.eqb a space); [|reflexivity]. simpl in *.
  destruct s as [|b s]; simpl in *.
  - reflexivity.
  - destruct (negb (nonempty (rstrip_by p s)) && p b); [reflexivity|exact H1].
Qed.

Lemma double_space_strip (s : string) :
  double_space s = false -> double_space (strip s) = false.
Proof.
  intros H. unfold strip, strip_by.
  apply double_space_lstrip_by, double_space_rstrip_by, H.
Qed.

Lemma strip_first (s : string) (c : ascii) :
  first_char (strip s) = Some c -> isspace c = false.
Proof. apply lstrip_by_first. Qed.

Lemma strip_last (s : string) (c : ascii) :
  last_char (strip s) = Some c -> isspace c = false.
Proof. intros H. apply lstrip_by_last in H. eapply rstrip_by_last; eauto. Qed.

Lemma isspace_space : isspace space = true.
Proof. reflexivity. Qed.

Lemma strip_no_leading_space (s : string) : leading_space (strip s) = false.
Proof.
  unfold leading_space. destruct (first_char (strip s)) as [c|] eqn:H; [|reflexivity].
  apply strip_first in H. destruct (Ascii.eqb_spec c space); [|reflexivity].
  subst. rewrite isspace_space in H. discriminate.
Qed.

Lemma strip_no_trailing_space (s : string) : trailing_space (strip s) = false.
Proof.
  unfold trailing_space. destruct (last_char (strip s)) as [c|] eqn:H; [|reflexivity].
  apply strip_last in H. destruct (Ascii.eqb_spec c space); [|reflexivity].
  subst. rewrite isspace_space in H. discriminate.
Qed.

End TextFacts.

Section Spacing.

Lemma first_char_app (s t : string) :
  first_char (s +:+ t) = match first_char s with Some c => Some c | None => first_char t end.
Proof. destruct s; reflexivity. Qed.

Lemma last_char_some (a : ascii) (s : string) :
  exists c, last_char (String a s) = Some c.
Proof.
  revert a. induction s as [|b s IH]; intros a.
  - exists a. reflexivity.
  - destruct (IH b) as [c Hc]. exists c. exact Hc.
Qed.

Lemma last_char_cons (a : ascii) (s : string) :
  last_char (String a s) = match last_char s with Some c => Some c | None => Some a end.
Proof.
  destruct s as [|b s]; [reflexivity|].
  change (last_char (String a (String b s))) with (last_char (String b s)).
  destruct (last_char_some b s) as [c ->]. reflexivity.
Qed.

Lemma last_char_app (s t : string) :
  last_char (s +:+ t) = match last_char t with Some c => Some c | None => last_char s end.
Proof.
  induction s as [|a s IH].
  - rewrite app_empty_l. destruct (last_char t); reflexivity.
  - rewrite app_cons, !last_char_cons, IH.
    destruct (last_char t); reflexivity.
Qed.

Lemma leading_space_app (s t : string) :
  leading_space (s +:+ t) = if nonempty s then leading_space s else leading_space t.
Proof. destruct s; reflexivity. Qed.

Lemma last_char_nonempty (t : string) : nonempty t = true -> last_char t <> None.
Proof.
  destruct t as [|a t]; [discriminate|]. intros _.
  destruct (last_char_some a t) as [c ->]. discriminate.
Qed.

Lemma trailing_space_app (s t : string) :
  trailing_space (s +:+ t) = if nonempty t then trailing_space t else trailing_space s.
Proof.
  unfold trailing_space. rewrite last_char_app.
  destruct (nonempty t) eqn:Hne.
  - apply last_char_nonempty in Hne. destruct (last_char t); [reflexivity|congruence].
  - apply nonempty_false in Hne. subst. reflexivity.
Qed.

(** A double space in a concatenation lies in one side or across the seam. *)
Lemma double_space_app (s t : string) :
  double_space (s +:+ t)
  = double_space s || double_space t || (trailing_space s && leading_space t).
Proof.
  induction s as [|a s IH].
  - rewrite app_empty_l. simpl. rewrite orb_false_r. reflexivity.
  - rewrite app_cons. simpl double_space at 1 2. rewrite IH.
    destruct s as [|b s].
    + rewrite app_empty_l. unfold trailing_space, leading_space. simpl.
      destruct t as [|c t]; simpl.
      * rewrite !andb_false_r. reflexivity.
      * destruct (Ascii.eqb a space), (Ascii.eqb c space); simpl;
          rewrite ?orb_true_r, ?orb_false_r; reflexivity.
    + rewrite app_cons.
      assert (Hts : trailing_space (String a (String b s)) = trailing_space (String b s))
        by reflexivity.
      rewrite Hts.
      destruct (Ascii.eqb a space && Ascii.eqb b space); simpl; reflexivity.
Qed.

Lemma tidy_spec (s : string) :
  tidy s = true <->
  double_space s = false /\ leading_space s = false /\ trailing_space s = false.
Proof.
  unfold tidy. rewrite !andb_true_iff, !negb_true_iff. tauto.
Qed.

Lemma join_cons2 (sep x y : string) (l : list string) :
  join sep (x :: y :: l) = x +:+ sep +:+ join sep (y :: l).
Proof. reflexivity. Qed.

Lemma join_nonempty (sep x : string) (l : list string) :
  nonempty x = true -> nonempty (join sep (x :: l)) = true.
Proof.
  intros Hx. destruct l as [|y l]; [exact Hx|].
  rewrite join_cons2. destruct x; [discriminate|reflexivity].
Qed.

(** Non-empty tidy fragments joined by single spaces make a tidy text. *)
Lemma join_tidy (l : list string) :
  Forall (fun s => nonempty s = true /\ tidy s = true) l ->
  tidy (join " " l) = true.
Proof.
  induction l as [|x l IH]; intros H; [reflexivity|].
  inversion H as [|? ? [Hx Htx] Hl]; subst.
  destruct l as [|y l]; [exact Htx|].
  specialize (IH Hl). rewrite join_cons2.
  apply tidy_spec in Htx as (Hx1 & Hx2 & Hx3).
  apply tidy_spec in IH as (Hj1 & Hj2 & Hj3).
  inversion Hl as [|? ? [Hy _] _]; subst.
  pose proof (join_nonempty " " y l Hy) as Hjn.
  set (j := join " " (y :: l)) in *.
  apply tidy_spec. repeat split.
  - rewrite double_space_app, Hx1, Hx3, double_space_app, Hj1, Hj2.
    rewrite andb_false_r. reflexivity.
  - rewrite leading_space_app, Hx. exact Hx2.
  - rewrite !trailing_space_app, Hjn.
    destruct (nonempty (" " +:+ j)); [exact Hj3|exact Hx3].
Qed.

Lemma filter_nonempty_tidy (l : list string) :
  forallb tidy l = true ->
  Forall (fun s => nonempty s = true /\ tidy s = true) (List.filter nonempty l).
Proof.
  induction l as [|x l IH]; simpl; intros H; [constructor|].
  apply andb_true_iff in H as [Hx Hl].
  destruct (nonempty x) eqn:Hn; auto.
Qed.

(** The three copies of [get_in] and [to_text] are the same functions. *)
Lemma real_get_in (d : json) (p : list string) :
  Real.get_in d p = Preview.get_in d p.
Proof. reflexivity. Qed.

Lemma ingest_get_in (d : json) (p : list string) :
  Ingest.get_in d p = Preview.get_in d p.
Proof. reflexivity. Qed.

Lemma real_to_text (v : json) : Real.to_text v = Preview.to_text v.
Proof. reflexivity. Qed.

Lemma ingest_to_text (v : json) : Ingest.to_text v = Preview.to_text v.
Proof. reflexivity. Qed.

(** The preview tool and the real-embeddings tool build the same text. *)
Lemma preview_real_agree (record : json) :
  Real.build_embedding_text record = Preview.build_embedding_text record.
Proof.
  reflexivity.
Qed.

End Spacing.

(** C1, at a record with missing fields: the Ingestor keeps the five
    empty fragments between the title and the risk, and joins them with
    spaces, where the preview and the real-embeddings tools drop them. *)
Theorem ingest_text_differs_on_missing_fields :
  Ingest.build_embedding_text title_risk_record = "T      high"
  /\ Preview.build_embedding_text title_risk_record = "T high"
  /\ Real.build_embedding_text title_risk_record = "T high"
  /\ Ingest.build_embedding_text title_risk_record
     <> Preview.build_embedding_text title_risk_record.
Proof. repeat split; try reflexivity. discriminate. Qed.

(** On the specification's own scenario the Ingestor's text has a double
    space where [targets.system] is missing. *)
Lemma ingest_text_on_sample :
  Ingest.build_embedding_text sample_record
  = "Sample X malware ransomware a b linux  high"
  /\ Preview.build_embedding_text sample_record
     = "Sample X malware ransomware a b linux high".
Proof. split; reflexivity. Qed.

(** C4 as stated fails even where empty fragments are dropped: a value
    that has two spaces in a row passes them on to the text. *)
Lemma preview_text_keeps_inner_double_space :
  double_space (Preview.build_embedding_text spaced_title_record) = true.
Proof. reflexivity. Qed.

(** C4, amended: when the text form of each of the seven fields is tidy
    (no two spaces in a row, no space first or last; the empty text of a
    missing or null field is tidy), the text of the preview tool and of
    the real-embeddings tool has no two spaces in a row; and the text of
    every builder, the Ingestor's included, neither starts nor ends with a
    space, whatever the record. *)
Theorem builder_text_spacing (record : json) :
  forallb (fun p => tidy (Preview.to_text (Preview.get_in record p)))
          Preview.FIELDS = true ->
  double_space (Preview.build_embedding_text record) = false
  /\ double_space (Real.build_embedding_text record) = false
  /\ (forall r : json,
        leading_space (Preview.build_embedding_text r) = false
        /\ trailing_space (Preview.build_embedding_text r) = false
        /\ leading_space (Real.build_embedding_text r) = false
        /\ trailing_space (Real.build_embedding_text r) = false
        /\ leading_space (Ingest.build_embedding_text r) = false
        /\ trailing_space (Ingest.build_embedding_text r) = false).
Proof.
  intros H.
  assert (Hp : double_space (Preview.build_embedding_text record) = false).
  { unfold Preview.build_embedding_text. apply double_space_strip.
    assert (Ht : forallb tidy
                   (map (fun p => Preview.to_text (Preview.get_in record p))
                        Preview.FIELDS) = true).
    { exact H. }
    apply filter_nonempty_tidy, join_tidy, tidy_spec in Ht. tauto. }
  split; [exact Hp|]. split; [exact Hp|].
  intros r.
  repeat split; first [apply strip_no_leading_space | apply strip_no_trailing_space].
Qed.

Lemma builder_text_spacing_witness :
  double_space (Preview.build_embedding_text sample_record) = false
  /\ double_space (Real.build_embedding_text sample_record) = false.
Proof.
  pose proof (builder_text_spacing sample_record eq_refl) as (H1 & H2 & _).
  split; assumption.
Defined.

(* ===================================================================== *)
(** * Properties of the Ingestor *)
(* ===================================================================== *)

Section MonadFacts.

Context {S A B : Type}.

Lemma bind_ok (m : M S A) (k : A -> M S B) (st st1 : S) (a : A) :
  m st = (Ok a, st1) -> bind m k st = k a st1.
Proof. intros H. unfold bind. rewrite H. reflexivity. Qed.

Lemma bind_raise (m : M S A) (k : A -> M S B) (st st1 : S) (e : exn) :
  m st = (Raise e, st1) -> bind m k st = (Raise e, st1).
Proof. intros H. unfold bind. rewrite H. reflexivity. Qed.

Lemma bind_exit (m : M S A) (k : A -> M S B) (st st1 : S) (c : Z) :
  m st = (Exit c, st1) -> bind m k st = (Exit c, st1).
Proof. intros H. unfold bind. rewrite H. reflexivity. Qed.

(** A pure step leaves the state alone. *)
Lemma lift_state (r : result A) (st : S) : snd (lift r st) = st.
Proof. reflexivity. Qed.

End MonadFacts.

Module IngestFacts.
Import Ingest IngestSpec.

Lemma main_split (ev : env) (jsonl_path : path) (st : state) :
  main ev jsonl_path st = bind (preamble ev jsonl_path) (gated ev jsonl_path) st.
Proof.
  unfold main, preamble, bind, get, lift, ret.
  destruct (negb (Path.exists_in (fs st) jsonl_path)); [reflexivity|].
  destruct (load_config ev st) as [[config| |] st1]; try reflexivity.
  destruct (connect_ok ev); [|reflexivity]. simpl.
  destruct (ensure_collection ev config st1) as [[name| |] st2]; try reflexivity.
  destruct (py_get config "paths" (JDict [])) as [paths| |]; try reflexivity.
  destruct (py_get paths "checkpoints_root" (JStr "./data/checkpoints"))
    as [root| |]; try reflexivity.
  destruct (to_path ev root) as [cr| |]; reflexivity.
Qed.

Lemma untouched_refl (st : state) : untouched st st.
Proof. repeat split. Qed.

Lemma untouched_trans (a b c : state) :
  untouched a b -> untouched b c -> untouched a c.
Proof.
  intros (H1 & H2 & H3) (H4 & H5 & H6).
  split; [congruence|]. split; [congruence|].
  intros n. rewrite H6. apply H3.
Qed.

Lemma py_get_dict (v : json) (k : string) (d r : json) :
  py_get v k d = Ok r -> exists e, v = JDict e /\ r = dict_get_default k d e.
Proof.
  destruct v; simpl; try discriminate. intros [= <-]. eauto.
Qed.

Lemma py_get_no_exit (v : json) (k : string) (d : json) (c : Z) :
  py_get v k d <> Exit c.
Proof. destruct v; discriminate. Qed.

Lemma create_index_untouched (ev : env) (name : string) (params : json)
  (st : state) :
  fst (create_index ev name params st) = Ok tt
  /\ untouched st (snd (create_index ev name params st))
  /\ (is_Some (store st !! name) ->
      is_Some (store (snd (create_index ev name params st)) !! name)).
Proof.
  unfold create_index, modify, set_store. simpl.
  split; [reflexivity|]. split.
  - repeat split. intros n. unfold batches_of. simpl.
    destruct (store st !! name) as [c|] eqn:Hc; [|reflexivity].
    destruct (create_index_ok ev name params); [|reflexivity].
    destruct (coll_index c); [reflexivity|].
    destruct (decide (name = n)) as [->|Hne].
    + rewrite lookup_insert_eq, Hc. reflexivity.
    + rewrite lookup_insert_ne by exact Hne. reflexivity.
  - intros [c Hc]. rewrite Hc.
    destruct (create_index_ok ev name params); [|eauto].
    destruct (coll_index c); [eauto|].
    rewrite lookup_insert_eq. eauto.
Qed.

#[local] Opaque create_index.

(** [ensure_collection] may add an empty collection and an index; it
    writes no file, embeds nothing and inserts nothing, and when it
    returns the collection exists. *)
Lemma ensure_collection_spec (ev : env) (config : json) (st : state) :
  untouched st (snd (ensure_collection ev config st))
  /\ forall name, fst (ensure_collection ev config st) = Ok name ->
       is_Some (store (snd (ensure_collection ev config st)) !! name)
       /\ exists c, py_get config "collection" (JDict []) = Ok (JDict c).
Proof.
  unfold ensure_collection, bind, lift, get, ret, raise.
  destruct (py_get config "collection" (JDict [])) as [c| |] eqn:Hc;
    try (split; [apply untouched_refl|discriminate]).
  destruct (py_get c "name" (JStr "attacks_v2")) as [nm| |] eqn:Hn;
    try (split; [apply untouched_refl|discriminate]).
  destruct (py_get c "dim" (JInt 384)) as [dim| |] eqn:Hd;
    try (split; [apply untouched_refl|discriminate]).
  destruct nm as [| | | |name| |];
    try (split; [apply untouched_refl|discriminate]).
  apply py_get_dict in Hn as (cd & -> & _).
  destruct (store st !! name) as [c0|] eqn:Hs.
  - simpl.
    match goal with |- context [create_index ev name ?p ?s] =>
      destruct (create_index_untouched ev name p s) as (Hr & Hu & He);
      destruct (create_index ev name p s) as [r st2] end.
    simpl in *. subst r.
    split; [exact Hu|]. intros n [= <-]. split; [apply He; eauto|eauto].
  - destruct (create_collection_ok ev name dim) eqn:Hcc; simpl.
    + match goal with |- context [create_index ev name ?p ?s] =>
        destruct (create_index_untouched ev name p s) as (Hr & Hu & He);
        destruct (create_index ev name p s) as [r st2] end.
      simpl in *. subst r. split.
      * eapply untouched_trans; [|exact Hu].
        repeat split. intros n. unfold batches_of, set_store. simpl.
        destruct (decide (name = n)) as [->|Hne].
        -- rewrite lookup_insert_eq, Hs. reflexivity.
        -- rewrite lookup_insert_ne by exact Hne. reflexivity.
      * intros n [= <-]. split; [|eauto]. apply He.
        unfold set_store. simpl. rewrite lookup_insert_eq. eauto.
    + split; [apply untouched_refl|discriminate].
Qed.

(** What a successful preamble establishes. *)
Lemma preamble_ok (ev : env) (p : path) (st st1 : state)
  (config : json) (name : string) (root : path) :
  preamble ev p st = (Ok (config, name, root), st1) ->
  untouched st st1
  /\ is_Some (fs st !! p)
  /\ is_Some (store st1 !! name)
  /\ (exists d, config = JDict d)
  /\ (exists c, py_get config "collection" (JDict []) = Ok (JDict c)).
Proof.
  unfold preamble, bind, get, lift, ret, sys_exit, raise.
  destruct (Path.exists_in (fs st) p) eqn:Hex; simpl; [|discriminate].
  unfold load_config. destruct (config_file ev) as [raw|]; [|discriminate].
  unfold ret. destruct (connect_ok ev); [|discriminate]. simpl.
  set (cfg := if truthy raw then raw else JDict []).
  pose proof (ensure_collection_spec ev cfg st) as [Hu Hn].
  destruct (ensure_collection ev cfg st) as [[nm| |] st2]; try discriminate.
  simpl in *. destruct (Hn nm eq_refl) as [Hs Hc].
  destruct (py_get cfg "paths" (JDict [])) as [paths| |] eqn:Hp; try discriminate.
  destruct (py_get paths "checkpoints_root" (JStr "./data/checkpoints"))
    as [rt| |]; try discriminate.
  destruct (to_path ev rt) as [cr| |]; try discriminate.
  intros [= <- <- <- <-].
  apply py_get_dict in Hp as (d & Hd & _).
  repeat split; try apply Hu; eauto.
  unfold Path.exists_in in Hex. destruct (fs st !! p); [eauto|discriminate].
Qed.

(** Whatever its outcome, the preamble writes no file, embeds nothing
    and inserts nothing. *)
Lemma preamble_untouched (ev : env) (p : path) (st : state) :
  untouched st (snd (preamble ev p st)).
Proof.
  unfold preamble, bind, get, lift, ret, sys_exit, raise.
  destruct (negb (Path.exists_in (fs st) p)); [apply untouched_refl|].
  unfold load_config. destruct (config_file ev) as [raw|]; [|apply untouched_refl].
  unfold ret. destruct (connect_ok ev); [|apply untouched_refl]. simpl.
  set (cfg := if truthy raw then raw else JDict []).
  pose proof (ensure_collection_spec ev cfg st) as [Hu _].
  destruct (ensure_collection ev cfg st) as [[nm| |] st2]; try exact Hu.
  destruct (py_get cfg "paths" (JDict [])) as [paths| |]; try exact Hu.
  destruct (py_get paths "checkpoints_root" (JStr "./data/checkpoints"))
    as [rt| |]; try exact Hu.
  destruct (to_path ev rt) as [cr| |]; exact Hu.
Qed.

End IngestFacts.

Module IngestRun.
Import Ingest IngestSpec IngestFacts.

Lemma child_inj (root : path) (a b : string) :
  Path.child root a = Path.child root b -> a = b.
Proof. unfold Path.child. intros H. apply app_inv_head in H. congruence. Qed.

Lemma done_ne_lock (root p : path) : done_marker root p <> lock_marker root p.
Proof.
  intros H. apply child_inj in H. apply (inj (String.app _)) in H. discriminate.
Qed.

Lemma tmp_ne_lock (root p : path) : tmp_marker root p <> lock_marker root p.
Proof.
  intros H. apply child_inj in H. apply (inj (String.app _)) in H. discriminate.
Qed.

Lemma tmp_ne_done (root p : path) : tmp_marker root p <> done_marker root p.
Proof.
  intros H. apply child_inj in H. apply (inj (String.app _)) in H. discriminate.
Qed.

(** [model.encode] records the call and touches nothing else. *)
Lemma model_encode_state (ev : env) (texts : list string) (st : state) :
  fs (snd (model_encode ev texts st)) = fs st
  /\ store (snd (model_encode ev texts st)) = store st
  /\ encoded (snd (model_encode ev texts st)) = encoded st ++ [texts].
Proof.
  unfold model_encode.
  destruct (encode ev (length (encoded st)) texts); repeat split.
Qed.

Lemma insert_state (ev : env) (name : string) (rows : list json) (st : state) :
  fs (snd (insert ev name rows st)) = fs st
  /\ encoded (snd (insert ev name rows st)) = encoded st.
Proof.
  unfold insert. destruct (store st !! name) as [c|]; [|split; reflexivity].
  destruct (insert_ok ev (length (coll_batches c)) rows); split; reflexivity.
Qed.

(** Flushing and looping write no file. *)
Lemma flush_batch_fs (ev : env) (name : string) (texts : list string)
  (records : list json) (st : state) :
  fs (snd (flush_batch ev name texts records st)) = fs st.
Proof.
  unfold flush_batch. destruct texts as [|t texts]; [reflexivity|].
  unfold bind, lift, ret.
  pose proof (model_encode_state ev (t :: texts) st) as (Hf & _ & _).
  destruct (model_encode ev (t :: texts) st) as [[vs| |] st1]; simpl in *; try exact Hf.
  destruct (build_rows (combine records vs)) as [rows| |]; try exact Hf.
  pose proof (insert_state ev name rows st1) as (Hi & _).
  destruct (insert ev name rows st1) as [[[]| |] st2]; simpl in *; congruence.
Qed.

Lemma ingest_loop_fs (ev : env) (name : string) (b : Z) (recs : list json) :
  forall texts records total st,
    fs (snd (ingest_loop ev name b recs texts records total st)) = fs st.
Proof.
  induction recs as [|r recs IH]; intros texts records total st; [reflexivity|].
  simpl. destruct (b <=? _).
  - unfold bind.
    pose proof (flush_batch_fs ev name (texts ++ [build_embedding_text r])
                  (records ++ [r]) st) as Hf.
    destruct (flush_batch _ _ _ _ st) as [[z| |] st1]; simpl in *; try exact Hf.
    rewrite IH. exact Hf.
  - apply IH.
Qed.

(** A loop that returns has counted every record. *)
Lemma ingest_loop_total (ev : env) (name : string) (b : Z) (recs : list json) :
  forall texts records total st texts' records' total' st',
    ingest_loop ev name b recs texts records total st
    = (Ok (texts', records', total'), st') ->
    total' = total + Z.of_nat (length recs).
Proof.
  induction recs as [|r recs IH]; intros texts records total st t' r' n' st'.
  - simpl. unfold ret. intros [= <- <- <- <-]. lia.
  - simpl. destruct (b <=? _).
    + unfold bind. destruct (flush_batch _ _ _ _ st) as [[z| |] st1]; try discriminate.
      intros H. apply IH in H. lia.
    + intros H. apply IH in H. lia.
Qed.

(** The checkpoint is always written once it is reached. *)
Lemma write_checkpoint_atomic_spec (root : path) (p : path) (payload : json)
  (st : state) :
  write_checkpoint_atomic root (Path.stem p) payload st
  = (Ok (done_marker root p),
     set_fs (fun f => <[done_marker root p := dumps_pretty payload]>
                        (delete (tmp_marker root p)
                           (<[tmp_marker root p := dumps_pretty payload]> f))) st).
Proof.
  unfold write_checkpoint_atomic, bind, write_text, replace, modify, ret.
  simpl. fold (tmp_marker root p). fold (done_marker root p).
  rewrite lookup_insert_eq. reflexivity.
Qed.

(** The files after the locked phase: on a failure only the lock was
    written; on success the checkpoint holds the payload whose count is
    the number of records streamed. *)
Lemma locked_phase_cases (ev : env) (config : json) (name : string)
  (p root : path) (st : state) (r : result unit) (st' : state) :
  locked_phase ev config name p root (lock_marker root p) st = (r, st') ->
  ((forall u, r <> Ok u)
   /\ fs st' = <[lock_marker root p := "lock"]> (fs st))
  \/ (r = Ok tt
      /\ exists text payload,
           <[lock_marker root p := "lock"]> (fs st) !! p = Some text
           /\ checkpoint_payload ev config p name
                (Z.of_nat (length (stream_records text))) = Ok payload
           /\ fs st'
              = <[done_marker root p := dumps_pretty payload]>
                  (delete (tmp_marker root p)
                     (<[tmp_marker root p := dumps_pretty payload]>
                        (<[lock_marker root p := "lock"]> (fs st))))).
Proof.
  unfold locked_phase.
  set (lock := lock_marker root p).
  unfold bind at 1. unfold write_text at 1. unfold modify at 1.
  set (st0 := set_fs (fun f => <[lock := "lock"]> f) st).
  assert (Hst0 : fs st0 = <[lock := "lock"]> (fs st)) by reflexivity.
  clearbody st0.
  unfold bind at 1, lift at 1.
  destruct (py_get config "model_name" _) as [mn| |];
    try (intros [= <- <-]; left; split; [discriminate|exact Hst0]).
  unfold bind at 1.
  destruct (load_model_ok ev mn);
    [unfold ret at 1
    |unfold raise at 1; intros [= <- <-]; left; split; [discriminate|exact Hst0]].
  unfold bind at 1, lift at 1.
  destruct (py_get config "batch_size" _) as [bv| |];
    try (intros [= <- <-]; left; split; [discriminate|exact Hst0]).
  unfold bind at 1, lift at 1.
  destruct (py_int ev bv) as [b| |];
    try (intros [= <- <-]; left; split; [discriminate|exact Hst0]).
  unfold bind at 1, read_text at 1.
  destruct (fs st0 !! p) as [text|] eqn:Htext;
    try (intros [= <- <-]; left; split; [discriminate|exact Hst0]).
  unfold bind at 1.
  pose proof (ingest_loop_fs ev name b (stream_records text) [] [] 0 st0) as Hl.
  pose proof (ingest_loop_total ev name b (stream_records text) [] [] 0 st0) as Ht.
  destruct (ingest_loop ev name b (stream_records text) [] [] 0 st0)
    as [[[[texts records] total]| |] st1]; simpl in Hl;
    try (intros [= <- <-]; left; split; [discriminate|congruence]).
  specialize (Ht _ _ _ _ eq_refl). simpl in Ht. subst total.
  unfold bind at 1.
  pose proof (flush_batch_fs ev name texts records st1) as Hf.
  destruct (flush_batch ev name texts records st1) as [[z| |] st2]; simpl in Hf;
    try (intros [= <- <-]; left; split; [discriminate|congruence]).
  unfold bind at 1, lift at 1.
  destruct (checkpoint_payload ev config p name _) as [payload| |] eqn:Hpay;
    try (intros [= <- <-]; left; split; [discriminate|congruence]).
  unfold bind at 1. rewrite write_checkpoint_atomic_spec. unfold ret.
  intros [= <- <-]. right. split; [reflexivity|].
  exists text, payload. repeat split.
  - rewrite Hst0 in Htext. exact Htext.
  - exact Hpay.
  - simpl. rewrite Hf, Hl, Hst0. reflexivity.
Qed.

End IngestRun.

Module IngestGate.
Import Ingest IngestSpec IngestFacts IngestRun.

(** With a marker present the gate returns at once. *)
Lemma gated_closed (ev : env) (p : path) (config : json) (name : string)
  (root : path) (st : state) :
  Path.exists_in (fs st) (done_marker root p)
  || Path.exists_in (fs st) (lock_marker root p) = true ->
  gated ev p (config, name, root) st = (Ok tt, st).
Proof.
  intros H. unfold gated, bind, get, ret.
  destruct (Path.exists_in (fs st) (done_marker root p)); [reflexivity|].
  simpl in H. rewrite H. reflexivity.
Qed.

Lemma exists_in_false (f : files) (p : path) :
  f !! p = None -> Path.exists_in f p = false.
Proof. unfold Path.exists_in. intros ->. reflexivity. Qed.

(** With neither marker present the locked phase runs and the lock is
    released: a run that does not return leaves the files as they were; a
    run that returns has written the checkpoint and nothing else. *)
Lemma gated_open (ev : env) (p : path) (config : json) (name : string)
  (root : path) (st : state) (r : result unit) (st' : state) :
  fs st !! done_marker root p = None ->
  fs st !! lock_marker root p = None ->
  gated ev p (config, name, root) st = (r, st') ->
  ((forall u, r <> Ok u) /\ fs st' = fs st)
  \/ (r = Ok tt
      /\ exists text payload,
           <[lock_marker root p := "lock"]> (fs st) !! p = Some text
           /\ checkpoint_payload ev config p name
                (Z.of_nat (length (stream_records text))) = Ok payload
           /\ fs st'
              = <[done_marker root p := dumps_pretty payload]>
                  (delete (tmp_marker root p) (fs st))).
Proof.
  intros Hd Hl. unfold gated, bind, get, try_finally.
  rewrite (exists_in_false _ _ Hd), (exists_in_false _ _ Hl).
  destruct (locked_phase ev config name p root (lock_marker root p) st)
    as [r1 st1] eqn:Hph.
  intros [= <- <-].
  apply locked_phase_cases in Hph as [[Hr Hf]|[Hr (text & payload & Ht & Hp & Hf)]].
  - left. split; [exact Hr|].
    unfold release_lock, Path.exists_in. rewrite Hf, lookup_insert_eq.
    simpl. rewrite Hf. apply delete_insert_id, Hl.
  - right. split; [exact Hr|]. exists text, payload.
    split; [exact Ht|]. split; [exact Hp|].
    pose proof (done_ne_lock root p) as N1.
    pose proof (tmp_ne_lock root p) as N2.
    unfold release_lock, Path.exists_in. rewrite Hf.
    rewrite lookup_insert_ne by exact N1.
    rewrite lookup_delete_ne by exact N2.
    rewrite lookup_insert_ne by exact N2.
    rewrite lookup_insert_eq. simpl. rewrite Hf.
    rewrite delete_insert_ne by (intros E; apply N1; symmetry; exact E).
    f_equal.
    rewrite delete_insert_eq.
    rewrite delete_delete.
    rewrite delete_insert_id by exact Hl. reflexivity.
Qed.

(** C2, amended: when the steps before the gate succeed (the
    configuration is read, the connection is made, the collection and its
    index are ensured, which may create them) and a checkpoint or a lock
    exists for the stem of the file, the Ingestor returns at once: no
    file is written, nothing is embedded and nothing is inserted. *)
Theorem marked_file_is_skipped (ev : env) (p : path) (st st1 : state)
  (config : json) (name : string) (root : path) :
  preamble ev p st = (Ok (config, name, root), st1) ->
  Path.exists_in (fs st) (done_marker root p)
  || Path.exists_in (fs st) (lock_marker root p) = true ->
  main ev p st = (Ok tt, st1) /\ untouched st st1.
Proof.
  intros Hpre Hmark.
  pose proof (preamble_ok _ _ _ _ _ _ _ Hpre) as (Hu & _).
  split; [|exact Hu].
  rewrite main_split. erewrite bind_ok by exact Hpre.
  apply gated_closed. destruct Hu as (-> & _). exact Hmark.
Qed.

Lemma marked_file_is_skipped_witness :
  fst (main Sample.ev_ok Sample.dataset_file Sample.st_done) = Ok tt
  /\ encoded (snd (main Sample.ev_ok Sample.dataset_file Sample.st_done)) = []
  /\ fs (snd (main Sample.ev_ok Sample.dataset_file Sample.st_done))
     = fs Sample.st_done.
Proof.
  destruct (marked_file_is_skipped Sample.ev_ok Sample.dataset_file
              Sample.st_done
              (snd (preamble Sample.ev_ok Sample.dataset_file Sample.st_done))
              (JDict [("batch_size", JInt 2)]) "attacks_v2" Sample.checkpoints)
    as (Hm & Hf & He & _).
  - vm_compute. reflexivity.
  - vm_compute. reflexivity.
  - rewrite Hm. simpl. split; [reflexivity|]. split; [exact He|exact Hf].
Defined.

(** C2 as stated fails: the collection and its index are ensured before
    the markers are looked at, so a run on a file whose checkpoint exists
    creates both in an empty store. *)
Lemma skipped_run_creates_collection :
  Path.exists_in (fs Sample.st_done)
    (done_marker Sample.checkpoints Sample.dataset_file) = true
  /\ store Sample.st_done !! "attacks_v2" = None
  /\ fst (main Sample.ev_ok Sample.dataset_file Sample.st_done) = Ok tt
  /\ store (snd (main Sample.ev_ok Sample.dataset_file Sample.st_done))
       !! "attacks_v2"
     = Some {| coll_dim := JInt 384;
               coll_fields := COLLECTION_FIELDS;
               coll_index :=
                 Some (JDict [("index_type", JStr "HNSW");
                              ("metric_type", JStr "COSINE");
                              ("params", JDict [("M", JInt 16);
                                                ("efConstruction", JInt 200)])]);
               coll_batches := [] |}.
Proof. repeat split; vm_compute; reflexivity. Qed.

(** C5: when the steps before the gate succeed, neither marker exists,
    and the run ends with an exception, the files are afterwards exactly
    as before the run: the lock is gone and no checkpoint exists, so that
    the next run passes the gate again. *)
Theorem failed_run_leaves_no_marker (ev : env) (p : path) (st st1 st' : state)
  (config : json) (name : string) (root : path) (e : exn) :
  preamble ev p st = (Ok (config, name, root), st1) ->
  fs st !! done_marker root p = None ->
  fs st !! lock_marker root p = None ->
  main ev p st = (Raise e, st') ->
  fs st' !! lock_marker root p = None
  /\ fs st' !! done_marker root p = None
  /\ fs st' = fs st.
Proof.
  intros Hpre Hd Hl Hrun.
  pose proof (preamble_ok _ _ _ _ _ _ _ Hpre) as ((Hf & _) & _).
  rewrite main_split in Hrun. erewrite bind_ok in Hrun by exact Hpre.
  rewrite <- Hf in Hd, Hl.
  apply gated_open in Hrun as [[_ Hfs]|[Hr _]]; try assumption.
  - rewrite Hfs. repeat split; congruence.
  - discriminate.
Qed.

Lemma failed_run_leaves_no_marker_witness :
  fst (main Sample.ev_encode_fails Sample.dataset_file Sample.st_fresh)
  = Raise (ExternalError "encode")
  /\ fs (snd (main Sample.ev_encode_fails Sample.dataset_file Sample.st_fresh))
     = fs Sample.st_fresh.
Proof.
  split; [vm_compute; reflexivity|].
  eapply (failed_run_leaves_no_marker Sample.ev_encode_fails Sample.dataset_file
            Sample.st_fresh
            (snd (preamble Sample.ev_encode_fails Sample.dataset_file Sample.st_fresh))
            (snd (main Sample.ev_encode_fails Sample.dataset_file Sample.st_fresh))
            (JDict [("batch_size", JInt 2)]) "attacks_v2" Sample.checkpoints
            (ExternalError "encode")); vm_compute; reflexivity.
Defined.

End IngestGate.

Module IngestBatches.
Import Ingest IngestSpec IngestFacts IngestRun IngestGate.

Section Loop.

Variable ev : env.
Variable name : string.
Variable b : nat.

Hypothesis b_pos : (0 < b)%nat.
Hypothesis encode_total :
  forall k texts, exists vs,
    encode ev k texts = Some vs /\ length vs = length texts.
Hypothesis insert_total : forall k rows, insert_ok ev k rows = true.

Lemma build_rows_ok (records : list json) :
  forall vs : list vector,
    forallb is_rowable records = true ->
    length vs = length records ->
    exists rows, build_rows (combine records vs) = Ok rows
                 /\ length rows = length records.
Proof.
  induction records as [|r records IH]; intros vs Hrow Hlen.
  - exists []. split; reflexivity.
  - destruct vs as [|v vs]; [discriminate|].
    simpl in Hrow. apply andb_true_iff in Hrow as [Hr Hrs].
    injection Hlen as Hlen.
    destruct (IH vs Hrs Hlen) as (rows & Hb & Hl).
    unfold is_rowable in Hr. simpl.
    destruct (extract_scalar_fields r) as [s| |]; try discriminate.
    rewrite Hb. eexists. split; [reflexivity|]. simpl. rewrite Hl. reflexivity.
Qed.

(** A flush of a non-empty buffer makes one embedding call and inserts
    one batch, both of the size of the buffer. *)
Lemma flush_batch_ok (texts : list string) (records : list json)
  (st : state) (c : collection) :
  texts <> [] ->
  length records = length texts ->
  forallb is_rowable records = true ->
  store st !! name = Some c ->
  exists rows st',
    flush_batch ev name texts records st = (Ok (Z.of_nat (length rows)), st')
    /\ length rows = length texts
    /\ fs st' = fs st
    /\ encoded st' = encoded st ++ [texts]
    /\ store st' !! name = Some (with_batch c rows).
Proof.
  intros Hne Hlen Hrow Hc.
  destruct texts as [|t texts]; [congruence|].
  unfold flush_batch, bind, model_encode, lift.
  destruct (encode_total (length (encoded st)) (t :: texts)) as (vs & -> & Hvs).
  destruct (build_rows_ok records vs Hrow) as (rows & -> & Hrl); [congruence|].
  unfold insert. simpl. rewrite Hc, insert_total.
  exists rows. eexists. split; [reflexivity|].
  split; [rewrite Hrl; exact Hlen|]. split; [reflexivity|]. split; [reflexivity|].
  simpl. rewrite lookup_insert_eq. reflexivity.
Qed.

(** The loop, entered with a buffer shorter than a batch: it returns,
    having made one embedding call and one insert of [b] records for
    every batch it filled, in the order of the records. *)
Lemma ingest_loop_ok (recs : list json) :
  forall texts records total st c,
    length records = length texts ->
    (length texts < b)%nat ->
    forallb is_rowable records = true ->
    forallb is_rowable recs = true ->
    store st !! name = Some c ->
    exists texts' records' st' calls bs,
      ingest_loop ev name (Z.of_nat b) recs texts records total st
      = (Ok (texts', records', total + Z.of_nat (length recs)), st')
      /\ length records' = length texts'
      /\ length texts' = ((length texts + length recs) mod b)%nat
      /\ forallb is_rowable records' = true
      /\ fs st' = fs st
      /\ encoded st' = encoded st ++ calls
      /\ map length calls = replicate ((length texts + length recs) / b) b
      /\ concat calls ++ texts' = texts ++ map build_embedding_text recs
      /\ (exists c', store st' !! name = Some c'
                     /\ coll_batches c' = coll_batches c ++ bs)
      /\ map length bs = replicate ((length texts + length recs) / b) b.
Proof.
  induction recs as [|r recs IH]; intros texts records total st c Hlen Hlt Hrow Hrecs Hc.
  - exists texts, records, st, [], []. simpl. unfold ret.
    rewrite Nat.add_0_r, Nat.div_small, Nat.mod_small by exact Hlt.
    rewrite Z.add_0_r, !app_nil_r. repeat split; eauto.
  - simpl in Hrecs. apply andb_true_iff in Hrecs as [Hr Hrecs].
    simpl ingest_loop.
    change (length (r :: recs)) with (S (length recs)).
    assert (Hrow' : forallb is_rowable (records ++ [r]) = true).
    { rewrite forallb_app, Hrow. simpl. rewrite Hr. reflexivity. }
    assert (Hlen' : length (records ++ [r]) = length (texts ++ [build_embedding_text r])).
    { rewrite !length_app. simpl. lia. }
    destruct (Z.leb_spec (Z.of_nat b) (Z.of_nat (length (texts ++ [build_embedding_text r]))))
      as [Hfull|Hnot].
    + rewrite length_app in Hfull. simpl in Hfull.
      assert (Hb : (length texts + 1 = b)%nat) by lia.
      destruct (flush_batch_ok (texts ++ [build_embedding_text r]) (records ++ [r]) st c)
        as (rows & st1 & Hfl & Hrl & Hf1 & He1 & Hs1); auto.
      { destruct texts; discriminate. }
      destruct (IH [] [] (total + 1) st1 (with_batch c rows))
        as (t' & r' & st' & calls & bs & Hrun & H1 & H2 & H3 & H4 & H5 & H6 & H7 & (c' & H8 & H9) & H10);
        auto.
      exists t', r', st', ((texts ++ [build_embedding_text r]) :: calls), (rows :: bs).
      unfold bind. rewrite Hfl, Hrun.
      assert (Hsum : (length texts + S (length recs) = 1 * b + length recs)%nat) by lia.
      rewrite Hsum, Nat.div_add_l by lia.
      replace (1 * b + length recs)%nat with (length recs + 1 * b)%nat by lia.
      rewrite Nat.Div0.mod_add.
      split;
        [replace (total + Z.of_nat (S (length recs)))
           with (total + 1 + Z.of_nat (length recs)) by lia; reflexivity|].
      split; [exact H1|]. split; [exact H2|]. split; [exact H3|].
      split; [congruence|].
      split; [rewrite H5, He1, <- app_assoc; reflexivity|].
      split; [simpl; rewrite H6, length_app; simpl; f_equal; lia|].
      split; [simpl; rewrite <- !app_assoc, H7; simpl; reflexivity|].
      split.
      * exists c'. split; [exact H8|]. rewrite H9. simpl.
        rewrite <- app_assoc. reflexivity.
      * simpl. rewrite H10, Hrl, length_app. simpl. f_equal. lia.
    + rewrite length_app in Hnot. simpl in Hnot.
      destruct (IH (texts ++ [build_embedding_text r]) (records ++ [r]) (total + 1) st c)
        as (t' & r' & st' & calls & bs & Hrun & H1 & H2 & H3 & H4 & H5 & H6 & H7 & H8 & H10);
        auto.
      { rewrite length_app. simpl. lia. }
      exists t', r', st', calls, bs.
      rewrite Hrun. rewrite length_app in H2, H6, H10. simpl in H2, H6, H10.
      replace (length texts + S (length recs))%nat
        with (length texts + 1 + length recs)%nat by lia.
      split;
        [replace (total + Z.of_nat (S (length recs)))
           with (total + 1 + Z.of_nat (length recs)) by lia; reflexivity|].
      split; [exact H1|]. split; [exact H2|]. split; [exact H3|].
      split; [exact H4|]. split; [exact H5|]. split; [exact H6|].
      split; [rewrite H7, <- app_assoc; reflexivity|].
      split; [exact H8|exact H10].
Qed.

End Loop.

Lemma batch_sizes_length (n b : nat) :
  (0 < b)%nat -> length (batch_sizes n b) = ((n + b - 1) / b)%nat.
Proof.
  intros Hb. unfold batch_sizes. rewrite length_app, length_replicate.
  pose proof (Nat.div_mod_eq n b) as Hdm.
  pose proof (Nat.mod_upper_bound n b ltac:(lia)) as Hm.
  set (q := (n / b)%nat) in *. set (m := (n mod b)%nat) in *.
  clearbody q m.
  destruct (Nat.eqb_spec m 0) as [Hz|Hnz]; simpl.
  - assert (E : (n + b - 1 = q * b + (b - 1))%nat) by nia.
    rewrite E, Nat.div_add_l, Nat.div_small by lia. lia.
  - assert (E : (n + b - 1 = (q + 1) * b + (m - 1))%nat) by nia.
    rewrite E, Nat.div_add_l, Nat.div_small by lia. lia.
Qed.

End IngestBatches.

Module IngestOk.
Import Ingest IngestSpec IngestFacts IngestRun IngestGate IngestBatches.

Lemma checkpoint_payload_ok (ev : env) (config : json) (p : path)
  (name : string) (total : Z) :
  (exists d, config = JDict d) ->
  (exists c, py_get config "collection" (JDict []) = Ok (JDict c)) ->
  exists payload,
    checkpoint_payload ev config p name total = Ok payload
    /\ records_ingested payload = Some (JInt total).
Proof.
  intros [d ->] [c Hc]. unfold checkpoint_payload. rewrite Hc. simpl.
  eexists. split; reflexivity.
Qed.

Lemma release_lock_state (lock : path) (st : state) :
  encoded (release_lock lock st) = encoded st
  /\ store (release_lock lock st) = store st.
Proof.
  unfold release_lock. destruct (Path.exists_in (fs st) lock); split; reflexivity.
Qed.

(** A run that passes the gate, loads the model, reads the batch size,
    and whose loop and last flush return: it returns, and the checkpoint
    records the number of records streamed. *)
Lemma main_run_ok (ev : env) (p : path) (st st1 : state) (config : json)
  (name : string) (root : path) (text : string) (b : Z)
  (texts : list string) (records : list json) (total z : Z)
  (st_l st_f : state) :
  preamble ev p st = (Ok (config, name, root), st1) ->
  fs st !! done_marker root p = None ->
  fs st !! lock_marker root p = None ->
  fs st !! p = Some text ->
  model_loads ev config = true ->
  configured_batch_size ev config = Ok b ->
  ingest_loop ev name b (stream_records text) [] [] 0
    (set_fs (fun f => <[lock_marker root p := "lock"]> f) st1)
  = (Ok (texts, records, total), st_l) ->
  flush_batch ev name texts records st_l = (Ok z, st_f) ->
  exists payload st',
    main ev p st = (Ok tt, st')
    /\ checkpoint_payload ev config p name
         (Z.of_nat (length (stream_records text))) = Ok payload
    /\ records_ingested payload
       = Some (JInt (Z.of_nat (length (stream_records text))))
    /\ fs st' = <[done_marker root p := dumps_pretty payload]>
                  (delete (tmp_marker root p) (fs st))
    /\ encoded st' = encoded st_f
    /\ store st' = store st_f.
Proof.
  intros Hpre Hd Hl Hp Hmodel Hbatch Hloop Hflush.
  pose proof (preamble_ok _ _ _ _ _ _ _ Hpre) as ((Hfs & _) & _ & _ & Hcfg & Hcoll).
  assert (Hne : lock_marker root p <> p) by (intros E; rewrite E in Hl; congruence).
  pose proof (ingest_loop_total _ _ _ _ _ _ _ _ _ _ _ _ Hloop) as Htot.
  rewrite Z.add_0_l in Htot. subst total.
  destruct (checkpoint_payload_ok ev config p name
              (Z.of_nat (length (stream_records text))) Hcfg Hcoll)
    as (payload & Hpay & Hrec).
  assert (Hphase :
    locked_phase ev config name p root (lock_marker root p) st1
    = (Ok tt, set_fs (fun f => <[done_marker root p := dumps_pretty payload]>
                          (delete (tmp_marker root p)
                             (<[tmp_marker root p := dumps_pretty payload]> f)))
                st_f)).
  { unfold locked_phase.
    unfold bind at 1. unfold write_text at 1. unfold modify at 1.
    unfold model_loads in Hmodel. unfold configured_batch_size in Hbatch.
    unfold bind at 1, lift at 1.
    destruct (py_get config "model_name" _) as [mn| |]; try discriminate.
    unfold bind at 1. rewrite Hmodel. unfold ret at 1.
    unfold bind at 1, lift at 1.
    destruct (py_get config "batch_size" _) as [bv| |]; try discriminate.
    unfold bind at 1, lift at 1. rewrite Hbatch.
    unfold bind at 1, read_text at 1.
    assert (Hread : fs (set_fs (fun f => <[lock_marker root p := "lock"]> f) st1) !! p
                    = Some text).
    { simpl. rewrite lookup_insert_ne by exact Hne. rewrite Hfs. exact Hp. }
    rewrite Hread.
    unfold bind at 1. rewrite Hloop.
    unfold bind at 1. rewrite Hflush.
    unfold bind at 1, lift at 1. rewrite Hpay.
    unfold bind at 1. rewrite write_checkpoint_atomic_spec. reflexivity. }
  assert (Hgate : gated ev p (config, name, root) st1
                  = (Ok tt, release_lock (lock_marker root p)
                              (set_fs (fun f => <[done_marker root p := dumps_pretty payload]>
                                 (delete (tmp_marker root p)
                                    (<[tmp_marker root p := dumps_pretty payload]> f)))
                                 st_f))).
  { unfold gated, bind, get, try_finally.
    rewrite (exists_in_false (fs st1) (done_marker root p)) by congruence.
    rewrite (exists_in_false (fs st1) (lock_marker root p)) by congruence.
    rewrite Hphase. reflexivity. }
  exists payload. eexists. split.
  { rewrite main_split. erewrite bind_ok by exact Hpre. exact Hgate. }
  split; [exact Hpay|]. split; [exact Hrec|].
  destruct (release_lock_state (lock_marker root p)
              (set_fs (fun f => <[done_marker root p := dumps_pretty payload]>
                 (delete (tmp_marker root p)
                    (<[tmp_marker root p := dumps_pretty payload]> f))) st_f))
    as [He Hs].
  split; [|split; [exact He|exact Hs]].
  assert (Hd1 : fs st1 !! done_marker root p = None) by congruence.
  assert (Hl1 : fs st1 !! lock_marker root p = None) by congruence.
  assert (Ht' : <[lock_marker root p := "lock"]> (fs st1) !! p = Some text).
  { rewrite lookup_insert_ne by exact Hne. rewrite Hfs. exact Hp. }
  destruct (gated_open _ _ _ _ _ _ _ _ Hd1 Hl1 Hgate)
    as [[Hr _]|[_ (text2 & payload2 & Ht2 & Hp2 & Hf2)]];
    [exfalso; apply (Hr tt); reflexivity|].
  rewrite Ht' in Ht2. injection Ht2 as <-.
  rewrite Hpay in Hp2. injection Hp2 as <-.
  rewrite Hf2, Hfs. reflexivity.
Qed.

End IngestOk.

Module IngestClaims.
Import Ingest IngestSpec IngestFacts IngestRun IngestGate IngestBatches IngestOk.

(** The generator yields one record for each line that parses. *)
Lemma stream_records_length (text : string) :
  length (stream_records text)
  = length (List.filter parses (splitlines text)).
Proof.
  unfold stream_records.
  induction (splitlines text) as [|line lines IH]; [reflexivity|].
  simpl. unfold parses at 1.
  destruct (nonempty (strip line)); simpl; [|exact IH].
  destruct (loads (strip line)); simpl; [f_equal|]; exact IH.
Qed.

Lemma stream_records_none (text : string) :
  forallb (fun line => negb (parses line)) (splitlines text) = true ->
  stream_records text = [].
Proof.
  unfold stream_records.
  induction (splitlines text) as [|line lines IH]; [reflexivity|].
  simpl. intros H. apply andb_true_iff in H as [Hl Hr].
  unfold parses in Hl.
  destruct (nonempty (strip line)); simpl in *; [|exact (IH Hr)].
  destruct (loads (strip line)); simpl in *; [discriminate|exact (IH Hr)].
Qed.





End IngestClaims.

Module SharedMarkers.
Import Ingest IngestSpec IngestFacts IngestRun IngestGate.

(** The files after a run of the Ingestor, whatever its outcome: as they
    were, or with the checkpoint written and its temporary file gone. *)
Lemma main_fs_cases (ev : env) (r : path) (st : state) :
  fs (snd (main ev r st)) = fs st
  \/ exists root payload,
       fs (snd (main ev r st))
       = <[done_marker root r := dumps_pretty payload]>
           (delete (tmp_marker root r) (fs st)).
Proof.
  rewrite main_split. unfold bind.
  pose proof (preamble_untouched ev r st) as (Hfs & _).
  destruct (preamble ev r st) as [[[[config name] root]| |] st1] eqn:Hpre;
    simpl in Hfs; try (left; exact Hfs).
  destruct (Path.exists_in (fs st1) (done_marker root r)
            || Path.exists_in (fs st1) (lock_marker root r)) eqn:Hm.
  - rewrite gated_closed by exact Hm. left. exact Hfs.
  - apply orb_false_iff in Hm as [Hd Hl].
    assert (Hd' : fs st1 !! done_marker root r = None).
    { unfold Path.exists_in in Hd. destruct (fs st1 !! _); [discriminate|reflexivity]. }
    assert (Hl' : fs st1 !! lock_marker root r = None).
    { unfold Path.exists_in in Hl. destruct (fs st1 !! _); [discriminate|reflexivity]. }
    destruct (gated ev r (config, name, root) st1) as [res st'] eqn:Hg.
    apply gated_open in Hg as [[_ Hf]|[_ (text & payload & _ & _ & Hf)]];
      try assumption; simpl.
    + left. congruence.
    + right. exists root, payload. rewrite Hf, Hfs. reflexivity.
Qed.

Lemma last_char_done (s : string) : last_char (s +:+ ".done") = Some "e"%char.
Proof. rewrite last_char_app. reflexivity. Qed.

Lemma last_char_lock (s : string) : last_char (s +:+ ".lock") = Some "k"%char.
Proof. rewrite last_char_app. reflexivity. Qed.

Lemma last_char_tmp (s : string) : last_char (s +:+ ".done.tmp") = Some "p"%char.
Proof. rewrite last_char_app. reflexivity. Qed.

Lemma child_eq_name (r1 r2 : path) (a b : string) :
  Path.child r1 a = Path.child r2 b -> a = b.
Proof. unfold Path.child. intros H. apply app_inj_tail in H. tauto. Qed.

Lemma done_ne_tmp (r1 r2 p q : path) : done_marker r1 p <> tmp_marker r2 q.
Proof.
  intros H. apply child_eq_name in H.
  pose proof (last_char_done (Path.stem p)) as H1.
  rewrite H, last_char_tmp in H1. discriminate.
Qed.

Lemma lock_ne_tmp (r1 r2 p q : path) : lock_marker r1 p <> tmp_marker r2 q.
Proof.
  intros H. apply child_eq_name in H.
  pose proof (last_char_lock (Path.stem p)) as H1.
  rewrite H, last_char_tmp in H1. discriminate.
Qed.

(** A marker that exists survives any run of the Ingestor, on any file. *)
Lemma main_keeps_marker (ev : env) (r : path) (st : state) (m : path) :
  (forall root, m <> tmp_marker root r) ->
  is_Some (fs st !! m) -> is_Some (fs (snd (main ev r st)) !! m).
Proof.
  intros Hne Hm.
  destruct (main_fs_cases ev r st) as [->|(root & payload & ->)]; [exact Hm|].
  destruct (decide (done_marker root r = m)) as [<-|N].
  - rewrite lookup_insert_eq. eauto.
  - rewrite lookup_insert_ne by exact N.
    rewrite lookup_delete_ne by (intros E; apply (Hne root); symmetry; exact E).
    exact Hm.
Qed.

Lemma marked_exists (root q : path) (f : files) :
  marked root q f <->
  Path.exists_in f (done_marker root q) || Path.exists_in f (lock_marker root q)
  = true.
Proof.
  unfold marked, Path.exists_in. split.
  - intros [[x ->]|[x ->]]; [reflexivity|apply orb_true_r].
  - intros H. apply orb_true_iff in H as [H|H].
    + left. destruct (f !! done_marker root q); [eauto|discriminate].
    + right. destruct (f !! lock_marker root q); [eauto|discriminate].
Qed.

Lemma main_keeps_marked (ev : env) (r : path) (st : state) (root q : path) :
  marked root q (fs st) -> marked root q (fs (snd (main ev r st))).
Proof.
  intros [H|H]; [left|right]; apply main_keeps_marker; try exact H.
  - intros r2. apply done_ne_tmp.
  - intros r2. apply lock_ne_tmp.
Qed.

(** While a marker of the stem of [q] exists, the sweep never launches
    the Ingestor on [q]. *)
Lemma sweep_skips_marked (CHECKPOINTS : path) (ev : env) (q : path)
  (candidates : list path) :
  forall w : Watcher.state,
    marked CHECKPOINTS q (fs (Watcher.world w)) ->
    q ∉ Watcher.launched w ->
    q ∉ Watcher.launched (snd (Watcher.sweep CHECKPOINTS ev candidates w)).
Proof.
  induction candidates as [|jsonl rest IH]; intros w Hm Hq; [exact Hq|].
  simpl. destruct (bool_decide _); [apply IH; assumption|].
  unfold bind at 1, get.
  destruct (Path.exists_in (fs (Watcher.world w)) _
            || Path.exists_in (fs (Watcher.world w)) _) eqn:Hj;
    [apply IH; assumption|].
  assert (Hne : jsonl <> q).
  { intros ->. apply marked_exists in Hm.
    unfold done_marker, lock_marker in Hm. rewrite Hm in Hj. discriminate. }
  unfold bind, Watcher.run_ingest.
  pose proof (main_keeps_marked ev jsonl (Watcher.world w) CHECKPOINTS q Hm) as Hm'.
  destruct (main ev jsonl (Watcher.world w)) as [res w'].
  simpl in Hm'.
  assert (Hq' : q ∉ Watcher.launched w ++ [jsonl]).
  { rewrite elem_of_app, list_elem_of_singleton. intros [H|H]; [tauto|congruence]. }
  destruct res as [[]|e|c]; simpl; try exact Hq'.
  - apply IH; assumption.
  - destruct (c =? 0); simpl; [apply IH; assumption|exact Hq'].
Qed.

(** C3: the markers are named after the stem of the dataset file alone.
    For two files of the same stem, in whatever folders: their checkpoint
    and lock markers are the same paths; once one has been ingested the
    checkpoint of the other exists; and while a marker of one exists, a
    direct run of the Ingestor on the other returns at the gate, and the
    sweep of the Watcher does not launch the Ingestor on the other. *)
Theorem same_stem_shares_markers (ev : env) (p q root : path) :
  Path.stem p = Path.stem q ->
  (done_marker root q = done_marker root p
   /\ lock_marker root q = lock_marker root p)
  /\ (forall st st1 st' config name,
        preamble ev p st = (Ok (config, name, root), st1) ->
        fs st !! done_marker root p = None ->
        fs st !! lock_marker root p = None ->
        main ev p st = (Ok tt, st') ->
        marked root q (fs st'))
  /\ (forall st st1 config name,
        preamble ev q st = (Ok (config, name, root), st1) ->
        marked root p (fs st) ->
        main ev q st = (Ok tt, st1) /\ untouched st st1)
  /\ (forall (DATASETS : path) (w : Watcher.state),
        marked root p (fs (Watcher.world w)) ->
        q ∉ Watcher.launched w ->
        q ∉ Watcher.launched
              (snd (Watcher.ingest_pending DATASETS root ev w))).
Proof.
  intros Hstem.
  assert (Hd : done_marker root q = done_marker root p)
    by (unfold done_marker; rewrite Hstem; reflexivity).
  assert (Hl : lock_marker root q = lock_marker root p)
    by (unfold lock_marker; rewrite Hstem; reflexivity).
  assert (Hmk : forall f, marked root p f -> marked root q f).
  { intros f. unfold marked. rewrite Hd, Hl. trivial. }
  split; [split; assumption|]. split; [|split].
  - intros st st1 st' config name Hpre Hnd Hnl Hrun.
    pose proof (preamble_ok _ _ _ _ _ _ _ Hpre) as ((Hfs & _) & _).
    rewrite main_split in Hrun. erewrite bind_ok in Hrun by exact Hpre.
    rewrite <- Hfs in Hnd, Hnl.
    apply gated_open in Hrun as [[Hr _]|[_ (text & payload & _ & _ & Hf)]];
      try assumption.
    + exfalso. apply (Hr tt). reflexivity.
    + left. rewrite Hd, Hf, lookup_insert_eq. eauto.
  - intros st st1 config name Hpre Hm.
    pose proof (preamble_ok _ _ _ _ _ _ _ Hpre) as (Hu & _).
    split; [|exact Hu].
    rewrite main_split. erewrite bind_ok by exact Hpre.
    apply gated_closed. destruct Hu as (-> & _).
    apply marked_exists, Hmk, Hm.
  - intros DATASETS w Hm Hq.
    unfold Watcher.ingest_pending, bind, get.
    apply sweep_skips_marked; [apply Hmk, Hm|exact Hq].
Qed.

Lemma same_stem_shares_markers_witness :
  done_marker Sample.checkpoints Sample.dataset_twin
  = done_marker Sample.checkpoints Sample.dataset_file
  /\ lock_marker Sample.checkpoints Sample.dataset_twin
     = lock_marker Sample.checkpoints Sample.dataset_file.
Proof.
  apply (same_stem_shares_markers Sample.ev_ok Sample.dataset_file
           Sample.dataset_twin Sample.checkpoints).
  reflexivity.
Defined.

(** Two files of the same stem in two folders, neither ingested: one
    sweep launches the Ingestor on one of them only, and one checkpoint
    stands for both. *)
Lemma sweep_ingests_one_twin :
  let w := snd (Watcher.ingest_pending ["srv"; "data"; "datasets"]
                  Sample.checkpoints Sample.ev_ok
                  {| Watcher.world := Sample.st_twins;
                     Watcher.launched := [] |}) in
  length (Watcher.launched w) = 1%nat
  /\ map length (batches_of (Watcher.world w) "attacks_v2") = [2; 2; 1]%nat.
Proof. vm_compute. split; reflexivity. Qed.

End SharedMarkers.

(* ===================================================================== *)
(** * Properties of the Normalizer *)
(* ===================================================================== *)

Module Versioning.
Import Normalize NormalizeSpec.

(** The specification's scenario: with versions 1 and 3 present the next
    version is 4, and in an empty folder it is 1. *)
Lemma next_version_after_gap :
  next_version_path folder_v1_v3 folder "foo" = Path.child folder "foo_v4.jsonl"
  /\ next_version_path ∅ folder "foo" = Path.child folder "foo_v1.jsonl".
Proof. split; vm_compute; reflexivity. Qed.

(** C6, at a folder that holds a file of a longer slug: the titles
    [Foo v2] and [Foo] give the slugs [foo_v2] and [foo]; the only file
    of the folder, [foo_v2_v1.jsonl], is version 1 of [foo_v2], and no
    file of the slug [foo] exists; yet the pattern [foo_v*.jsonl] matches
    it and its trailing [_v1.jsonl] is read as a version of [foo], so
    that the first file of [foo] is numbered 2. *)
Theorem next_version_counts_longer_slug :
  to_slug "Foo v2" = "foo_v2"
  /\ to_slug "Foo" = "foo"
  /\ Path.listdir folder_other_slug folder = ["foo_v2_v1.jsonl"]
  /\ glob_match "foo" "foo_v2_v1.jsonl" = true
  /\ version_of "foo_v2_v1.jsonl" = Some 1
  /\ next_version_path folder_other_slug folder "foo"
     = Path.child folder "foo_v2.jsonl"
  /\ next_version_path folder_other_slug folder "foo"
     <> Path.child folder "foo_v1.jsonl".
Proof. repeat split; try (vm_compute; reflexivity). vm_compute. discriminate. Qed.

End Versioning.

Module Quarantine.
Import Normalize NormalizeSpec.

(** A bad line stops the conversion loop with an error. *)
Lemma convert_lines_bad (lines : list string) :
  existsb bad_line lines = true ->
  forall out count, exists out' count' e,
    convert_lines lines out count = (out', count', Some e).
Proof.
  induction lines as [|line lines IH]; [discriminate|].
  intros H out count. cbn [existsb] in H. cbn [convert_lines].
  unfold bad_line at 1 in H.
  destruct (nonempty (strip line)) eqn:Hne; cbn [negb andb orb] in *.
  - destruct (loads (strip line)) as [[| | | | | |d]|] eqn:Hl;
      try (eexists _, _, _; reflexivity).
    destruct (encodable (dumps (JDict d)));
      [apply IH; exact H|eexists _, _, _; reflexivity].
  - apply IH. exact H.
Qed.

(** Nothing below the dataset store lies in the staging or the errors
    area. *)
Lemma not_under_datasets (ROOT : path) (area : string) (rest : list string) :
  area <> "datasets" ->
  Path.is_under (DATASETS ROOT) (ROOT ++ ["data"; area] ++ rest) = false.
Proof.
  intros Hne. unfold Path.is_under, DATASETS.
  apply bool_decide_eq_false. intros H.
  rewrite length_app in H. simpl in H.
  rewrite take_app_add' in H by reflexivity. simpl in H.
  apply app_inv_head in H. congruence.
Qed.

Lemma staging_not_dataset (ROOT src : path) :
  Path.is_under (DATASETS ROOT) (staging_path ROOT src) = false.
Proof.
  unfold staging_path, STAGING, Path.child. rewrite <- app_assoc. simpl.
  change (ROOT ++ "data" :: "processed" :: "staging" :: [Path.stem src +:+ ".jsonl"])
    with (ROOT ++ ["data"; "processed"] ++ ["staging"; Path.stem src +:+ ".jsonl"]).
  apply not_under_datasets. discriminate.
Qed.

Lemma failed_not_dataset (ROOT src : path) :
  Path.is_under (DATASETS ROOT) (failed_path ROOT src) = false.
Proof.
  unfold failed_path, ERRORS, Path.child. rewrite <- app_assoc. simpl.
  change (ROOT ++ "data" :: "processed" :: "errors" :: [Path.name src +:+ ".failed"])
    with (ROOT ++ ["data"; "processed"] ++ ["errors"; Path.name src +:+ ".failed"]).
  apply not_under_datasets. discriminate.
Qed.

Lemma name_child (p : path) (s : string) : Path.name (Path.child p s) = s.
Proof. unfold Path.name, Path.child. apply last_last. Qed.

Lemma failed_ne_src (ROOT src : path) : failed_path ROOT src <> src.
Proof.
  intros H. apply (f_equal Path.name) in H.
  unfold failed_path in H. rewrite name_child in H.
  apply (f_equal String.length) in H. rewrite length_app_str in H.
  simpl in H. lia.
Qed.

Lemma main_try (ROOT : path) (now : string) (src : path) :
  main ROOT now [src]
  = try_except (convert_and_move ROOT now src) (quarantine ROOT src).
Proof. reflexivity. Qed.

(** The failure path of [main]: the submission is moved to the errors
    area, the error is logged, and the process exits with status 2. *)
Lemma main_quarantines (ROOT : path) (now : string) (src : path)
  (st st_b : state) (e : exn) (c : string) :
  convert_and_move ROOT now src st = (Raise e, st_b) ->
  fs st_b !! src = Some c ->
  main ROOT now [src] st
  = (Exit 2,
     {| fs := <[failed_path ROOT src := c]> (delete src (fs st_b));
        log := log st_b ++ [LogError (Path.name src) e] |}).
Proof.
  intros Hb Hc. rewrite main_try. unfold try_except at 1. rewrite Hb.
  unfold quarantine, bind, try_except, move, log_line, modify, sys_exit.
  rewrite Hc. reflexivity.
Qed.



(** The specification's scenario: the line that opens an object and
    gives no value does not parse, the staged conversion is not moved to
    the dataset store, and one [.failed] file is produced. *)
Lemma malformed_line_scenario :
  loads ("{" +:+ Sample.quoted "a" +:+ ":}") = None
  /\ map fst (map_to_list
       (fs (snd (main root "2025-01-01T00:00:00+00:00" [inbox_jsonl]
                   st_malformed_submission))))
     = [staging_path root inbox_jsonl; failed_path root inbox_jsonl].
Proof. split; vm_compute; reflexivity. Qed.

End Quarantine.

(* ===================================================================== *)
(** * [json.loads] reads back what [json.dumps] writes *)
(* ===================================================================== *)

Module JsonRoundTrip.
Import JsonSpec.

(** ** Decimal numerals *)

Lemma digits_from_uint (d : Decimal.uint) :
  forall acc : positive,
    int_of_digits_from (Npos acc) (NilEmpty.string_of_uint d)
    = Npos (Pos.of_uint_acc d acc).
Proof.
  induction d; intros acc; simpl; try reflexivity;
    unfold digit_value, code; simpl; rewrite <- IHd; f_equal; lia.
Qed.

Lemma digits_of_uint (d : Decimal.uint) :
  int_of_digits_from 0%N (NilEmpty.string_of_uint d) = Pos.of_uint d.
Proof.
  induction d; simpl; try reflexivity; try exact IHd;
    unfold digit_value, code; simpl; apply digits_from_uint.
Qed.

Lemma int_of_digits_to_uint (p : positive) :
  int_of_digits (NilEmpty.string_of_uint (Pos.to_uint p)) = Npos p.
Proof.
  unfold int_of_digits. rewrite digits_of_uint.
  apply DecimalPos.Unsigned.of_to.
Qed.

Lemma all_digits_uint (d : Decimal.uint) :
  all_digits (NilEmpty.string_of_uint d) = true.
Proof. induction d; simpl; auto. Qed.

(** The numeral of a positive number does not start with a zero. *)
Lemma to_uint_head (p : positive) :
  exists c s, NilEmpty.string_of_uint (Pos.to_uint p) = String c s
              /\ is_digit c = true /\ Ascii.eqb c "0" = false.
Proof.
  pose proof (DecimalPos.Unsigned.to_uint_nonnil p) as Hnil.
  pose proof (DecimalPos.Unsigned.to_uint_nonzero p) as Hz.
  pose proof (DecimalPos.Unsigned.of_to p) as Hof.
  pose proof (DecimalPos.Unsigned.to_of (Pos.to_uint p)) as Hto.
  rewrite Hof in Hto. simpl in Hto.
  destruct (Pos.to_uint p) as [|d|d|d|d|d|d|d|d|d|d] eqn:E;
    try congruence; simpl;
    try (eexists _, _; split; [reflexivity|split; reflexivity]).
  exfalso. rewrite DecimalFacts.unorm_D0 in Hto.
  assert (Hd : d = Nil \/ d <> Nil)
    by (destruct d; [left; reflexivity|right; discriminate..]).
  destruct Hd as [->|Hd]; [apply Hz; reflexivity|].
  pose proof (DecimalFacts.nb_digits_unorm _ Hd) as Hn.
  rewrite <- Hto in Hn. simpl in Hn. lia.
Qed.

(** ** Strings *)

(** One escaped character is read back as the character. *)
Lemma scan_dumps_char (c : ascii) (x : string) :
  scan_string (dumps_char c +:+ x)
  = match scan_string x with
    | Some (t, r) => Some (String c t, r)
    | None => None
    end.
Proof.
  destruct c as [[] [] [] [] [] [] [] []]; reflexivity.
Qed.

Lemma scan_dumps_body (s rest : string) :
  scan_string (dumps_body s +:+ String dquote rest) = Some (s, rest).
Proof.
  induction s as [|c s IH]; [reflexivity|].
  simpl dumps_body. rewrite app_assoc_str, scan_dumps_char, IH. reflexivity.
Qed.

Lemma dumps_str_app (s rest : string) :
  dumps_str s +:+ rest = String dquote (dumps_body s +:+ String dquote rest).
Proof. unfold dumps_str. rewrite app_cons, app_assoc_str. reflexivity. Qed.

(** ** Numbers *)

Lemma delim_not_digit (c : ascii) : is_delim c = true -> is_digit c = false.
Proof.
  unfold is_delim. intros H.
  destruct (Ascii.eqb_spec c ","); [subst; reflexivity|].
  destruct (Ascii.eqb_spec c "]"); [subst; reflexivity|].
  destruct (Ascii.eqb_spec c "}"); [subst; reflexivity|discriminate].
Qed.

Lemma span_digits_app (s rest : string) :
  all_digits s = true -> delimited rest = true ->
  span_digits (s +:+ rest) = (s, rest).
Proof.
  intros Hs Hr. induction s as [|c s IH].
  - rewrite app_empty_l. destruct rest as [|d rest]; [reflexivity|].
    simpl in *. rewrite (delim_not_digit d Hr). reflexivity.
  - simpl in Hs. apply andb_true_iff in Hs as [Hc Hs].
    rewrite app_cons. simpl. rewrite Hc, (IH Hs). reflexivity.
Qed.

Lemma scan_frac_delimited (rest : string) :
  delimited rest = true -> scan_frac rest = (EmptyString, rest).
Proof.
  destruct rest as [|c rest]; [reflexivity|]. simpl. unfold is_delim. intros H.
  destruct (Ascii.eqb_spec c ","); [subst; reflexivity|].
  destruct (Ascii.eqb_spec c "]"); [subst; reflexivity|].
  destruct (Ascii.eqb_spec c "}"); [subst; reflexivity|discriminate].
Qed.

Lemma scan_exp_delimited (rest : string) :
  delimited rest = true -> scan_exp rest = (EmptyString, rest).
Proof.
  destruct rest as [|c rest]; [reflexivity|]. simpl. unfold is_delim. intros H.
  destruct (Ascii.eqb_spec c ","); [subst; reflexivity|].
  destruct (Ascii.eqb_spec c "]"); [subst; reflexivity|].
  destruct (Ascii.eqb_spec c "}"); [subst; reflexivity|discriminate].
Qed.

(** The numeral of a natural number is read back as the number. *)
Lemma scan_number_pos (p : positive) (rest : string) :
  delimited rest = true ->
  scan_number (NilEmpty.string_of_uint (Pos.to_uint p) +:+ rest)
  = Some (JInt (Zpos p), rest).
Proof.
  intros Hr.
  destruct (to_uint_head p) as (c & s & Hcs & Hd & Hz).
  pose proof (all_digits_uint (Pos.to_uint p)) as Hall.
  pose proof (int_of_digits_to_uint p) as Hval.
  pose proof (span_digits_app _ rest Hall Hr) as Hspan.
  rewrite Hcs in *. rewrite app_cons in *.
  unfold scan_number.
  assert (Hminus : Ascii.eqb c "-" = false)
    by (destruct c as [[] [] [] [] [] [] [] []]; try reflexivity; discriminate).
  rewrite Hminus. unfold scan_int_part. rewrite Hz, Hd, Hspan.
  rewrite (scan_frac_delimited rest Hr), (scan_exp_delimited rest Hr).
  simpl. rewrite Hval. reflexivity.
Qed.

Lemma scan_atom_digit (c : ascii) (s : string) :
  is_digit c = true -> scan_atom (String c s) = scan_number (String c s).
Proof.
  destruct c as [[] [] [] [] [] [] [] []]; try discriminate; reflexivity.
Qed.

Lemma scan_atom_minus_digit (c : ascii) (s : string) :
  is_digit c = true ->
  scan_atom (String "-" (String c s)) = scan_number (String "-" (String c s)).
Proof.
  destruct c as [[] [] [] [] [] [] [] []]; try discriminate; reflexivity.
Qed.

Lemma digit_not_minus (c : ascii) : is_digit c = true -> Ascii.eqb c "-" = false.
Proof.
  destruct c as [[] [] [] [] [] [] [] []]; try discriminate; reflexivity.
Qed.

Lemma scan_number_minus (c : ascii) (s rest : string) (p : positive) :
  is_digit c = true ->
  scan_number (String c s) = Some (JInt (Zpos p), rest) ->
  scan_number (String "-" (String c s)) = Some (JInt (Zneg p), rest).
Proof.
  intros Hd. unfold scan_number. rewrite (digit_not_minus c Hd).
  change (Ascii.eqb "-" "-") with true. cbv iota.
  destruct (scan_int_part (String c s)) as [[ds r]|]; [|discriminate].
  destruct (scan_frac r) as [frac r1]. destruct (scan_exp r1) as [ex r2].
  destruct (nonempty frac || nonempty ex); [discriminate|].
  intros [= Hv <-]. rewrite Hv. reflexivity.
Qed.

Lemma scan_atom_int (z : Z) (rest : string) :
  delimited rest = true ->
  scan_atom (str_int z +:+ rest) = Some (JInt z, rest).
Proof.
  intros Hr. unfold str_int. destruct z as [|p|p]; simpl Z.to_int.
  - simpl. rewrite app_cons, app_empty_l. unfold scan_atom. simpl.
    unfold scan_number. simpl.
    rewrite (scan_frac_delimited rest Hr), (scan_exp_delimited rest Hr).
    reflexivity.
  - pose proof (scan_number_pos p rest Hr) as Hn.
    destruct (to_uint_head p) as (c & s & Hcs & Hd & Hz).
    unfold NilZero.string_of_int, NilZero.string_of_uint.
    destruct (Pos.to_uint p) eqn:E;
      try (exfalso; exact (DecimalPos.Unsigned.to_uint_nonnil p E));
      rewrite <- E in *; rewrite Hcs in *; rewrite app_cons in *;
      rewrite (scan_atom_digit c _ Hd); exact Hn.
  - pose proof (scan_number_pos p rest Hr) as Hn.
    destruct (to_uint_head p) as (c & s & Hcs & Hd & Hz).
    unfold NilZero.string_of_int, NilZero.string_of_uint.
    destruct (Pos.to_uint p) eqn:E;
      try (exfalso; exact (DecimalPos.Unsigned.to_uint_nonnil p E));
      rewrite <- E in *; rewrite Hcs in *; rewrite !app_cons in *;
      rewrite (scan_atom_minus_digit c _ Hd);
      apply scan_number_minus; assumption.
Qed.

(** ** Values *)

Lemma json_induction (P : json -> Prop) :
  P JNull -> (forall b, P (JBool b)) -> (forall z, P (JInt z)) ->
  (forall lit, P (JFloat lit)) -> (forall s, P (JStr s)) ->
  (forall l, Forall P l -> P (JList l)) ->
  (forall d, Forall (fun kv => P (snd kv)) d -> P (JDict d)) ->
  forall v, P v.
Proof.
  intros Hnull Hbool Hint Hfloat Hstr Hlist Hdict.
  fix IH 1. intros [ |b|z|lit|s|l|d].
  - exact Hnull.
  - apply Hbool.
  - apply Hint.
  - apply Hfloat.
  - apply Hstr.
  - apply Hlist. induction l as [|x l IHl]; constructor; [apply IH|exact IHl].
  - apply Hdict. induction d as [|[k x] d IHd]; constructor; [apply IH|exact IHd].
Qed.

Lemma starts_value_app (s rest : string) :
  starts_value s -> starts_value (s +:+ rest).
Proof.
  intros (c & r & -> & H). exists c, (r +:+ rest). split; [apply app_cons|exact H].
Qed.

Lemma starts_value_skip (s : string) : starts_value s -> skip_ws s = s.
Proof. intros (c & r & -> & Hws & _). unfold skip_ws. simpl. rewrite Hws. reflexivity. Qed.

Lemma digit_starts_value (c : ascii) (r : string) :
  is_digit c = true -> starts_value (String c r).
Proof.
  intros H. exists c, r. split; [reflexivity|].
  destruct c as [[] [] [] [] [] [] [] []]; try discriminate; repeat split.
Qed.

Lemma str_int_starts (z : Z) : starts_value (str_int z).
Proof.
  unfold str_int. destruct z as [|p|p]; simpl Z.to_int.
  - eexists _, _. repeat split.
  - destruct (to_uint_head p) as (c & s & Hcs & Hd & _).
    unfold NilZero.string_of_int, NilZero.string_of_uint.
    destruct (Pos.to_uint p) eqn:E;
      try (exfalso; exact (DecimalPos.Unsigned.to_uint_nonnil p E));
      cbv beta iota; rewrite Hcs; apply digit_starts_value, Hd.
  - unfold NilZero.string_of_int. eexists _, _. repeat split.
Qed.

Lemma dumps_starts (v : json) : float_free v = true -> starts_value (dumps v).
Proof.
  destruct v as [ |[]|z|lit|s|l|d]; simpl; intros H; try discriminate;
    try (eexists _, _; repeat split; fail).
  apply str_int_starts.
Qed.

Lemma reads_back_atom (v : json) (n : nat) (rest : string) :
  (forall c r, dumps v = String c r ->
     Ascii.eqb c dquote = false /\ Ascii.eqb c "{" = false
     /\ Ascii.eqb c "[" = false) ->
  starts_value (dumps v) ->
  scan_atom (dumps v +:+ rest) = Some (v, rest) ->
  (1 <= n)%nat ->
  parse_value n (dumps v +:+ rest) = Some (v, rest).
Proof.
  intros Hhead (c & r & Hd & _) Hscan Hn.
  destruct n as [|n]; [lia|].
  destruct (Hhead c r Hd) as (H1 & H2 & H3).
  rewrite Hd in *. rewrite app_cons in *.
  simpl. rewrite H1, H2, H3. exact Hscan.
Qed.

Lemma str_int_head (z : Z) (c : ascii) (r : string) :
  str_int z = String c r ->
  Ascii.eqb c dquote = false /\ Ascii.eqb c "{" = false
  /\ Ascii.eqb c "[" = false.
Proof.
  unfold str_int. destruct z as [|p|p]; simpl Z.to_int.
  - intros [= <- <-]. repeat split.
  - destruct (to_uint_head p) as (c' & s & Hcs & Hd & _).
    unfold NilZero.string_of_int, NilZero.string_of_uint.
    destruct (Pos.to_uint p) eqn:E;
      try (exfalso; exact (DecimalPos.Unsigned.to_uint_nonnil p E));
      cbv beta iota; rewrite Hcs; intros [= <- <-];
      destruct c' as [[] [] [] [] [] [] [] []]; try discriminate; repeat split.
  - unfold NilZero.string_of_int. intros [= <- <-]. repeat split.
Qed.

Lemma join_one (sep x : string) : join sep [x] = x.
Proof. reflexivity. Qed.

Lemma skip_ws_space (s : string) : skip_ws (String " " s) = skip_ws s.
Proof. reflexivity. Qed.

(** The items of a non-empty array. *)
Lemma parse_elements_dumps (l : list json) :
  Forall reads_back l ->
  forallb float_free l = true ->
  forallb well_formed l = true ->
  l <> [] ->
  forall n rest,
    (list_sum (map (fun x => S (jsize x)) l) <= n)%nat ->
    parse_elements n (join ", " (map dumps l) +:+ String "]" rest)
    = Some (l, rest).
Proof.
  induction l as [|x l IH]; [congruence|].
  intros Hall Hff Hwf _ n rest Hn.
  inversion Hall as [|? ? Hx Hl]; subst.
  simpl in Hff, Hwf, Hn.
  apply andb_true_iff in Hff as [Hfx Hfl].
  apply andb_true_iff in Hwf as [Hwx Hwl].
  destruct n as [|n]; [lia|].
  destruct l as [|y l].
  - simpl map. rewrite join_one. simpl parse_elements.
    rewrite (Hx Hfx Hwx n (String "]" rest)) by (simpl in *; try lia; reflexivity).
    reflexivity.
  - change (map dumps (x :: y :: l)) with (dumps x :: map dumps (y :: l)).
    change (dumps x :: map dumps (y :: l))
      with (dumps x :: dumps y :: map dumps l).
    rewrite join_cons2.
    change (dumps y :: map dumps l) with (map dumps (y :: l)).
    rewrite !app_assoc_str.
    change (", " +:+ join ", " (map dumps (y :: l)) +:+ String "]" rest)
      with (String "," (String " "
              (join ", " (map dumps (y :: l)) +:+ String "]" rest))).
    remember (join ", " (map dumps (y :: l)) +:+ String "]" rest) as T eqn:HT.
    simpl parse_elements.
    rewrite (Hx Hfx Hwx n _) by (simpl in *; try lia; reflexivity).
    change (skip_ws (String "," (String " " T))) with (String "," (String " " T)).
    cbv beta iota.
    change (Ascii.eqb "," "]") with false.
    change (Ascii.eqb "," ",") with true. cbv beta iota.
    rewrite skip_ws_space. subst T.
    rewrite starts_value_skip.
    + rewrite IH; [reflexivity|assumption..|discriminate|simpl in *; lia].
    + simpl map.
      assert (Hy : starts_value (dumps y))
        by (apply dumps_starts; simpl in Hfl; apply andb_true_iff in Hfl; tauto).
      destruct (map dumps l); [rewrite join_one|rewrite join_cons2];
        repeat apply starts_value_app; exact Hy.
Qed.

Lemma entry_text_app (k : string) (v : json) (rest : string) :
  entry_text (k, v) +:+ rest
  = String dquote
      (dumps_body k +:+ String dquote (String ":" (String " " (dumps v +:+ rest)))).
Proof.
  unfold entry_text. simpl fst. simpl snd.
  rewrite !app_assoc_str, dumps_str_app. reflexivity.
Qed.

Lemma entry_text_starts (kv : string * json) : starts_value (entry_text kv).
Proof.
  unfold entry_text, dumps_str. rewrite app_cons. eexists _, _. repeat split.
Qed.

Lemma skip_ws_dquote (s : string) : skip_ws (String dquote s) = String dquote s.
Proof. reflexivity. Qed.

(** The entries of a non-empty object. *)
Lemma parse_members_dumps (d : list (string * json)) :
  Forall (fun kv => reads_back (snd kv)) d ->
  forallb (fun kv => float_free (snd kv)) d = true ->
  forallb (fun kv => well_formed (snd kv)) d = true ->
  d <> [] ->
  forall n rest,
    (list_sum (map (fun kv => S (jsize (snd kv))) d) <= n)%nat ->
    parse_members n (join ", " (map entry_text d) +:+ String "}" rest)
    = Some (d, rest).
Proof.
  induction d as [|[k x] d IH]; [congruence|].
  intros Hall Hff Hwf _ n rest Hn.
  inversion Hall as [|? ? Hx Hl]; subst.
  simpl in Hff, Hwf, Hn, Hx.
  apply andb_true_iff in Hff as [Hfx Hfl].
  apply andb_true_iff in Hwf as [Hwx Hwl].
  destruct n as [|n]; [lia|].
  pose proof (dumps_starts x Hfx) as Hsx.
  destruct d as [|e d].
  - simpl map. rewrite join_one, entry_text_app.
    remember (dumps x +:+ String "}" rest) as V eqn:HV.
    simpl parse_members. rewrite scan_dumps_body.
    change (skip_ws (String ":" (String " " V))) with (skip_ws (String ":" (String " " V))).
    assert (E1 : skip_ws (String ":" (String " " V)) = String ":" (String " " V))
      by reflexivity.
    rewrite E1. cbv beta iota. change (Ascii.eqb ":" ":") with true. cbv beta iota.
    rewrite skip_ws_space. subst V.
    rewrite starts_value_skip by (apply starts_value_app; exact Hsx).
    rewrite (Hx Hfx Hwx n (String "}" rest)) by (simpl in *; try lia; reflexivity).
    reflexivity.
  - change (map entry_text ((k, x) :: e :: d))
      with (entry_text (k, x) :: entry_text e :: map entry_text d).
    rewrite join_cons2.
    change (entry_text e :: map entry_text d) with (map entry_text (e :: d)).
    rewrite !app_assoc_str, entry_text_app.
    remember (join ", " (map entry_text (e :: d)) +:+ String "}" rest) as T eqn:HT.
    change (", " +:+ T) with (String "," (String " " T)).
    remember (dumps x +:+ String "," (String " " T)) as V eqn:HV.
    simpl parse_members. rewrite scan_dumps_body.
    assert (E1 : skip_ws (String ":" (String " " V)) = String ":" (String " " V))
      by reflexivity.
    rewrite E1. cbv beta iota. change (Ascii.eqb ":" ":") with true. cbv beta iota.
    rewrite skip_ws_space. subst V.
    rewrite starts_value_skip by (apply starts_value_app; exact Hsx).
    rewrite (Hx Hfx Hwx n _) by (simpl in *; try lia; reflexivity).
    assert (E2 : skip_ws (String "," (String " " T)) = String "," (String " " T))
      by reflexivity.
    rewrite E2. cbv beta iota.
    change (Ascii.eqb "," "}") with false.
    change (Ascii.eqb "," ",") with true. cbv beta iota.
    rewrite skip_ws_space. subst T.
    rewrite starts_value_skip.
    + rewrite IH; [reflexivity|assumption..|discriminate|simpl in *; lia].
    + simpl map.
      destruct (map entry_text d);
        [rewrite join_one; apply starts_value_app
        |rewrite join_cons2; do 2 apply starts_value_app];
        apply entry_text_starts.
Qed.

(** ** Keys *)

Lemma dict_set_fresh {A} (k : string) (v : A) (acc : list (string * A)) :
  existsb (String.eqb k) (map fst acc) = false ->
  dict_set k v acc = acc ++ [(k, v)].
Proof.
  induction acc as [|[k' v'] acc IH]; [reflexivity|].
  simpl. intros H. apply orb_false_iff in H as [Hk Hacc].
  rewrite String.eqb_sym, Hk. rewrite (IH Hacc). reflexivity.
Qed.

Lemma fold_dict_set {A} (d : list (string * A)) :
  forall acc,
    distinct (map fst d) = true ->
    (forall k, In k (map fst acc) -> existsb (String.eqb k) (map fst d) = false) ->
    fold_left (fun a kv => dict_set (fst kv) (snd kv) a) d acc = acc ++ d.
Proof.
  induction d as [|[k v] d IH]; intros acc Hd Hacc; [symmetry; apply app_nil_r|].
  simpl in Hd. apply andb_true_iff in Hd as [Hk Hd]. apply negb_true_iff in Hk.
  simpl fold_left. rewrite dict_set_fresh.
  - rewrite IH; [rewrite <- app_assoc; reflexivity|exact Hd|].
    intros k' Hin. rewrite map_app, in_app_iff in Hin. destruct Hin as [Hin|[<-|[]]].
    + specialize (Hacc k' Hin). simpl in Hacc.
      apply orb_false_iff in Hacc. tauto.
    + exact Hk.
  - destruct (existsb (String.eqb k) (map fst acc)) eqn:E; [|reflexivity].
    apply existsb_exists in E as (k' & Hin & Heq).
    apply String.eqb_eq in Heq. subst k'.
    specialize (Hacc k Hin). simpl in Hacc. rewrite String.eqb_refl in Hacc.
    discriminate.
Qed.

Lemma dict_of_pairs_distinct {A} (d : list (string * A)) :
  distinct (map fst d) = true -> dict_of_pairs d = d.
Proof.
  intros H. unfold dict_of_pairs. rewrite fold_dict_set; auto.
  intros k [].
Qed.

(** ** The round trip *)

Lemma join_starts (f : string * json -> string) (x : string) (l : list string)
  (rest : string) :
  starts_value x -> starts_value (join ", " (x :: l) +:+ rest).
Proof.
  intros H. destruct l; [rewrite join_one; apply starts_value_app
                        |rewrite join_cons2; do 2 apply starts_value_app]; exact H.
Qed.

Lemma list_text (l : list json) (rest : string) :
  dumps (JList l) +:+ rest
  = String "[" (join ", " (map dumps l) +:+ String "]" rest).
Proof.
  simpl dumps. rewrite !app_assoc_str. reflexivity.
Qed.

Lemma dict_text (d : list (string * json)) (rest : string) :
  dumps (JDict d) +:+ rest
  = String "{" (join ", " (map entry_text d) +:+ String "}" rest).
Proof.
  simpl dumps. rewrite !app_assoc_str. reflexivity.
Qed.

Theorem reads_back_all (v : json) : reads_back v.
Proof.
  induction v using json_induction; unfold reads_back;
    intros Hff Hwf n rest Hn Hrest.
  - destruct n; [simpl in Hn; lia|]. reflexivity.
  - destruct n; [simpl in Hn; lia|]. destruct b; reflexivity.
  - apply reads_back_atom.
    + apply str_int_head.
    + apply str_int_starts.
    + apply scan_atom_int, Hrest.
    + exact Hn.
  - discriminate.
  - destruct n; [simpl in Hn; lia|].
    simpl dumps. rewrite dumps_str_app. simpl. rewrite scan_dumps_body. reflexivity.
  - rewrite list_text. destruct n; [simpl in Hn; lia|].
    destruct l as [|x l]; [reflexivity|].
    simpl in Hff, Hwf. simpl jsize in Hn.
    assert (Hstart : starts_value (join ", " (map dumps (x :: l)) +:+ String "]" rest)).
    { simpl map. apply (join_starts (fun _ => EmptyString)), dumps_starts.
      apply andb_true_iff in Hff. tauto. }
    pose proof (parse_elements_dumps (x :: l) H Hff Hwf ltac:(discriminate) n rest
                  ltac:(simpl in Hn |- *; lia)) as Hp.
    remember (join ", " (map dumps (x :: l)) +:+ String "]" rest) as T eqn:HT.
    simpl parse_value. rewrite (starts_value_skip T Hstart).
    destruct Hstart as (c & r & -> & _ & Hc & _).
    rewrite Hc, Hp. reflexivity.
  - rewrite dict_text. destruct n; [simpl in Hn; lia|].
    destruct d as [|e d]; [reflexivity|].
    assert (Hkeys : distinct (map fst (e :: d)) = true)
      by (simpl in Hwf; apply andb_true_iff in Hwf as [K _]; exact K).
    assert (Hwf' : forallb (fun kv => well_formed (snd kv)) (e :: d) = true)
      by (simpl in Hwf; apply andb_true_iff in Hwf as [_ K]; exact K).
    clear Hwf. rename Hwf' into Hwf.
    simpl float_free in Hff. simpl jsize in Hn.
    assert (Hstart : starts_value (join ", " (map entry_text (e :: d))
                                   +:+ String "}" rest)).
    { simpl map. apply (join_starts (fun _ => EmptyString)), entry_text_starts. }
    pose proof (parse_members_dumps (e :: d) H Hff Hwf ltac:(discriminate) n rest
                  ltac:(simpl in Hn |- *; lia)) as Hp.
    remember (join ", " (map entry_text (e :: d)) +:+ String "}" rest) as T eqn:HT.
    simpl parse_value. rewrite (starts_value_skip T Hstart).
    destruct Hstart as (c & r & -> & _ & _ & Hc).
    rewrite Hc, Hp. rewrite (dict_of_pairs_distinct _ Hkeys). reflexivity.
Qed.

(** ** Enough nested calls *)

Lemma starts_value_length (s : string) :
  starts_value s -> (1 <= String.length s)%nat.
Proof. intros (c & r & -> & _). simpl. lia. Qed.

Lemma length_join_sum (xs : list string) :
  (list_sum (map (fun s => S (String.length s)) xs)
   <= S (String.length (join ", " xs)))%nat.
Proof.
  induction xs as [|x xs IH]; [simpl; lia|].
  destruct xs as [|y xs]; [rewrite join_one; simpl; lia|].
  rewrite join_cons2, !length_app_str.
  remember (join ", " (y :: xs)) as J eqn:HJ.
  simpl in IH |- *. lia.
Qed.

Lemma list_sum_le {A} (f g : A -> nat) (l : list A) :
  Forall (fun x => (f x <= g x)%nat) l ->
  (list_sum (map f l) <= list_sum (map g l))%nat.
Proof. induction 1; simpl; lia. Qed.

Lemma jsize_le_length (v : json) :
  float_free v = true -> (jsize v <= String.length (dumps v))%nat.
Proof.
  induction v using json_induction; intros Hff;
    try (apply starts_value_length, dumps_starts, Hff).
  - simpl jsize. simpl dumps. rewrite !length_app_str.
    pose proof (length_join_sum (map dumps l)) as Hj.
    rewrite map_map in Hj.
    assert (Hle : (list_sum (map (fun x => S (jsize x)) l)
                   <= list_sum (map (fun x => S (String.length (dumps x))) l))%nat).
    { apply list_sum_le. simpl in Hff.
      rewrite forallb_forall in Hff. rewrite Forall_forall in *.
      intros x Hx. specialize (H x Hx).
      apply list_elem_of_In in Hx. specialize (H (Hff x Hx)). lia. }
    simpl String.length. lia.
  - simpl jsize. simpl dumps. rewrite !length_app_str.
    pose proof (length_join_sum (map entry_text d)) as Hj.
    rewrite map_map in Hj.
    assert (Hle : (list_sum (map (fun kv => S (jsize (snd kv))) d)
                   <= list_sum (map (fun kv => S (String.length (entry_text kv))) d))%nat).
    { apply list_sum_le. simpl in Hff.
      rewrite forallb_forall in Hff. rewrite Forall_forall in *.
      intros x Hx. specialize (H x Hx).
      apply list_elem_of_In in Hx. specialize (H (Hff x Hx)). unfold entry_text. rewrite !length_app_str. lia. }
    simpl String.length. fold entry_text.
    change (fun kv : string * json => dumps_str (fst kv) +:+ ": " +:+ dumps (snd kv))
      with entry_text.
    lia.
Qed.

(** [json.loads(json.dumps(v))] is [v], for a value without floats whose
    keys are distinct. *)
Theorem loads_dumps (v : json) :
  float_free v = true -> well_formed v = true -> loads (dumps v) = Some v.
Proof.
  intros Hff Hwf. unfold loads.
  rewrite (starts_value_skip _ (dumps_starts v Hff)).
  pose proof (reads_back_all v Hff Hwf (S (String.length (dumps v))) EmptyString) as H.
  rewrite app_empty_r in H. rewrite H; [reflexivity| |reflexivity].
  pose proof (jsize_le_length v Hff). lia.
Qed.

(** ** The text of a value is one line *)

Lemma one_line_app (s t : string) :
  one_line (s +:+ t) = one_line s && one_line t.
Proof.
  induction s as [|c s IH]; [reflexivity|].
  rewrite app_cons. simpl. rewrite IH, !andb_assoc. reflexivity.
Qed.

Lemma one_line_join (sep : string) (xs : list string) :
  one_line sep = true -> forallb one_line xs = true ->
  one_line (join sep xs) = true.
Proof.
  intros Hsep. induction xs as [|x xs IH]; [reflexivity|].
  simpl forallb. intros H. apply andb_true_iff in H as [Hx Hxs].
  destruct xs as [|y xs]; [exact Hx|].
  rewrite join_cons2, !one_line_app, Hx, Hsep, (IH Hxs). reflexivity.
Qed.

Lemma one_line_dumps_char (c : ascii) : one_line (dumps_char c) = true.
Proof. destruct c as [[] [] [] [] [] [] [] []]; reflexivity. Qed.

Lemma one_line_dumps_str (s : string) : one_line (dumps_str s) = true.
Proof.
  unfold dumps_str. simpl. rewrite one_line_app, andb_true_r.
  induction s as [|c s IH]; [reflexivity|].
  simpl. rewrite one_line_app, one_line_dumps_char, IH. reflexivity.
Qed.

Lemma one_line_digits (s : string) : all_digits s = true -> one_line s = true.
Proof.
  induction s as [|c s IH]; [reflexivity|].
  simpl. intros H. apply andb_true_iff in H as [Hc Hs]. rewrite (IH Hs).
  destruct c as [[] [] [] [] [] [] [] []]; try discriminate; reflexivity.
Qed.

Lemma one_line_str_int (z : Z) : one_line (str_int z) = true.
Proof.
  unfold str_int. destruct z as [|p|p]; simpl Z.to_int; [reflexivity| |];
    unfold NilZero.string_of_int, NilZero.string_of_uint;
    destruct (Pos.to_uint p) eqn:E; try reflexivity;
    rewrite <- E; try (simpl one_line);
    apply one_line_digits, all_digits_uint.
Qed.

Lemma one_line_dumps (v : json) : float_free v = true -> one_line (dumps v) = true.
Proof.
  induction v using json_induction; intros Hff; try reflexivity;
    try discriminate.
  - destruct b; reflexivity.
  - apply one_line_str_int.
  - apply one_line_dumps_str.
  - simpl dumps. rewrite !one_line_app. simpl.
    rewrite andb_true_r. apply one_line_join; [reflexivity|].
    simpl in Hff. rewrite forallb_forall in *. rewrite Forall_forall in H.
    intros s Hs. apply in_map_iff in Hs as [x [<- Hx]].
    apply H; [apply list_elem_of_In, Hx|apply Hff, Hx].
  - simpl dumps. rewrite !one_line_app. simpl.
    rewrite andb_true_r. apply one_line_join; [reflexivity|].
    simpl in Hff. rewrite forallb_forall in *. rewrite Forall_forall in H.
    intros s Hs. apply in_map_iff in Hs as [x [<- Hx]].
    rewrite !one_line_app, one_line_dumps_str. simpl.
    apply H; [apply list_elem_of_In, Hx|apply Hff, Hx].
Qed.

Lemma splitlines_one_line (s : string) :
  one_line s = true -> splitlines (s +:+ str1 newline) = [s].
Proof.
  induction s as [|c s IH]; [reflexivity|].
  simpl one_line. intros H.
  apply andb_true_iff in H as [H Hs]. apply andb_true_iff in H as [H1 H2].
  apply negb_true_iff in H1, H2.
  rewrite app_cons. simpl splitlines. rewrite H1, H2, (IH Hs). reflexivity.
Qed.

(** ** Stripping a text that has no white space at its ends *)

Lemma rstrip_by_id (p : ascii -> bool) (s : string) (c : ascii) :
  last_char s = Some c -> p c = false -> rstrip_by p s = s.
Proof.
  induction s as [|a s IH]; [discriminate|].
  rewrite last_char_cons. simpl rstrip_by.
  destruct (last_char s) as [b|] eqn:Hl.
  - intros [= ->] Hp. rewrite (IH eq_refl Hp).
    destruct s; [discriminate|reflexivity].
  - intros [= ->] Hp. destruct s as [|b s].
    + simpl. rewrite Hp. reflexivity.
    + destruct (last_char_some b s) as [x Hx]. congruence.
Qed.

Lemma strip_id (s : string) (a b : ascii) :
  first_char s = Some a -> isspace a = false ->
  last_char s = Some b -> isspace b = false ->
  strip s = s.
Proof.
  intros Ha Hsa Hb Hsb. unfold strip, strip_by.
  rewrite (rstrip_by_id isspace s b Hb Hsb).
  destruct s as [|c s]; [reflexivity|].
  simpl in Ha. injection Ha as ->. simpl. rewrite Hsa. reflexivity.
Qed.

Lemma strip_dumps_dict (d : list (string * json)) :
  strip (dumps (JDict d)) = dumps (JDict d).
Proof.
  apply (strip_id _ "{" "}"); try reflexivity.
  simpl dumps. rewrite app_cons, last_char_cons, !last_char_app. reflexivity.
Qed.

(** ** What the parser returns *)

Lemma dict_set_keys {A} (x k : string) (v : A) (d : list (string * A)) :
  existsb (String.eqb x) (map fst (dict_set k v d))
  = existsb (String.eqb x) (map fst d) || String.eqb x k.
Proof.
  induction d as [|[k1 v1] d IH]; cbn [dict_set map fst existsb].
  - apply orb_comm.
  - destruct (String.eqb_spec k1 k) as [->|Hne]; cbn [map fst existsb].
    + destruct (String.eqb x k), (existsb (String.eqb x) (map fst d)); reflexivity.
    + rewrite IH, orb_assoc. reflexivity.
Qed.

Lemma dict_set_distinct {A} (k : string) (v : A) (d : list (string * A)) :
  distinct (map fst d) = true -> distinct (map fst (dict_set k v d)) = true.
Proof.
  induction d as [|[k1 v1] d IH]; [reflexivity|].
  cbn [dict_set map fst distinct]. intros H.
  apply andb_true_iff in H as [H1 H2].
  destruct (String.eqb_spec k1 k) as [->|Hne]; cbn [map fst distinct].
  - rewrite H1, H2. reflexivity.
  - rewrite dict_set_keys, (IH H2), andb_true_r.
    apply negb_true_iff in H1. rewrite H1.
    destruct (String.eqb_spec k1 k); [contradiction|reflexivity].
Qed.

Lemma dict_set_values {A} (P : A -> bool) (k : string) (v : A)
  (d : list (string * A)) :
  P v = true -> forallb (fun kv => P (snd kv)) d = true ->
  forallb (fun kv => P (snd kv)) (dict_set k v d) = true.
Proof.
  intros Hv. induction d as [|[k1 v1] d IH]; cbn [dict_set forallb snd].
  - intros _. rewrite Hv. reflexivity.
  - intros H. apply andb_true_iff in H as [H1 H2].
    destruct (String.eqb k1 k); cbn [forallb snd].
    + rewrite Hv, H2. reflexivity.
    + rewrite H1, (IH H2). reflexivity.
Qed.

Lemma dict_of_pairs_well_formed (pairs : list (string * json)) :
  forallb (fun kv => well_formed (snd kv)) pairs = true ->
  well_formed (JDict (dict_of_pairs pairs)) = true.
Proof.
  unfold dict_of_pairs.
  assert (G : forall acc,
             well_formed (JDict acc) = true ->
             forallb (fun kv => well_formed (snd kv)) pairs = true ->
             well_formed
               (JDict (fold_left (fun d kv => dict_set (fst kv) (snd kv) d)
                         pairs acc)) = true).
  { induction pairs as [|[k v] pairs IH]; intros acc Hacc Hp; [exact Hacc|].
    cbn [forallb snd] in Hp. apply andb_true_iff in Hp as [Hv Hp].
    cbn [fold_left fst snd]. apply IH; [|exact Hp].
    cbn [well_formed] in Hacc |- *. apply andb_true_iff in Hacc as [H1 H2].
    rewrite (dict_set_distinct k v acc H1).
    apply (dict_set_values well_formed k v acc Hv H2). }
  apply G. reflexivity.
Qed.

Lemma scan_number_well_formed (s r : string) (v : json) :
  scan_number s = Some (v, r) -> well_formed v = true.
Proof.
  unfold scan_number.
  destruct (match s with
            | String c s' => if Ascii.eqb c "-" then (true, s') else (false, s)
            | EmptyString => (false, s)
            end) as [neg s0].
  destruct (scan_int_part s0) as [[ds r0]|]; [|discriminate].
  destruct (scan_frac r0) as [frac r1]. destruct (scan_exp r1) as [ex r2].
  destruct (nonempty frac || nonempty ex); intros [= <- _]; reflexivity.
Qed.

Lemma scan_atom_well_formed (s r : string) (v : json) :
  scan_atom s = Some (v, r) -> well_formed v = true.
Proof.
  unfold scan_atom, scan_word. destruct s as [|c s]; [discriminate|].
  repeat match goal with
         | |- context [if ?b then _ else _] => destruct b
         | |- context [match drop_prefix ?w ?t with _ => _ end] =>
             destruct (drop_prefix w t)
         end;
    try discriminate; try (intros [= <- _]; reflexivity).
  all: apply scan_number_well_formed.
Qed.

Lemma parse_well_formed (n : nat) :
  (forall s v r, parse_value n s = Some (v, r) -> well_formed v = true)
  /\ (forall s vs r, parse_elements n s = Some (vs, r) ->
                     forallb well_formed vs = true)
  /\ (forall s kvs r, parse_members n s = Some (kvs, r) ->
                      forallb (fun kv => well_formed (snd kv)) kvs = true).
Proof.
  induction n as [|n (IHv & IHe & IHm)]; [repeat split; discriminate|].
  split; [|split].
  - intros s v r. cbn [parse_value].
    destruct s as [|c s]; [discriminate|].
    destruct (Ascii.eqb c dquote).
    { destruct (scan_string s) as [[t r0]|]; [|discriminate].
      intros [= <- _]. reflexivity. }
    destruct (Ascii.eqb c "{").
    { destruct (skip_ws s) as [|c1 r1]; [discriminate|].
      destruct (Ascii.eqb c1 "}"); [intros [= <- _]; reflexivity|].
      destruct (parse_members n (String c1 r1)) as [[pairs r0]|] eqn:E;
        [|discriminate].
      intros [= <- _]. apply dict_of_pairs_well_formed, (IHm _ _ _ E). }
    destruct (Ascii.eqb c "[").
    { destruct (skip_ws s) as [|c1 r1]; [discriminate|].
      destruct (Ascii.eqb c1 "]"); [intros [= <- _]; reflexivity|].
      destruct (parse_elements n (String c1 r1)) as [[vs r0]|] eqn:E;
        [|discriminate].
      intros [= <- _]. exact (IHe _ _ _ E). }
    apply scan_atom_well_formed.
  - intros s vs r. cbn [parse_elements].
    destruct (parse_value n s) as [[v r0]|] eqn:E; [|discriminate].
    destruct (skip_ws r0) as [|c r1]; [discriminate|].
    destruct (Ascii.eqb c "]").
    { intros [= <- _]. cbn [forallb]. rewrite (IHv _ _ _ E). reflexivity. }
    destruct (Ascii.eqb c ","); [|discriminate].
    destruct (parse_elements n (skip_ws r1)) as [[vs' r2]|] eqn:E2;
      [|discriminate].
    intros [= <- _]. cbn [forallb].
    rewrite (IHv _ _ _ E), (IHe _ _ _ E2). reflexivity.
  - intros s kvs r. cbn [parse_members].
    destruct s as [|q s0]; [discriminate|].
    destruct (Ascii.eqb q dquote); [|discriminate].
    destruct (scan_string s0) as [[k r0]|]; [|discriminate].
    destruct (skip_ws r0) as [|c r1]; [discriminate|].
    destruct (Ascii.eqb c ":"); [|discriminate].
    destruct (parse_value n (skip_ws r1)) as [[v r2]|] eqn:E; [|discriminate].
    destruct (skip_ws r2) as [|c2 r3]; [discriminate|].
    destruct (Ascii.eqb c2 "}").
    { intros [= <- _]. cbn [forallb snd]. rewrite (IHv _ _ _ E). reflexivity. }
    destruct (Ascii.eqb c2 ","); [|discriminate].
    destruct (parse_members n (skip_ws r3)) as [[kvs' r4]|] eqn:E2;
      [|discriminate].
    intros [= <- _]. cbn [forallb snd].
    rewrite (IHv _ _ _ E), (IHm _ _ _ E2). reflexivity.
Qed.

(** Whatever [json.loads] returns has distinct keys in each [dict]. *)
Lemma loads_well_formed (s : string) (v : json) :
  loads s = Some v -> well_formed v = true.
Proof.
  unfold loads.
  destruct (parse_value (S (String.length s)) (skip_ws s)) as [[v0 r]|] eqn:E;
    [|discriminate].
  destruct (skip_ws r); [|discriminate].
  intros [= <-]. exact (proj1 (parse_well_formed _) _ _ _ E).
Qed.

End JsonRoundTrip.

Module SingleObject.
Import Normalize NormalizeSpec JsonSpec.

(** ** The steps of [main] on a submission of one object *)

Lemma normalize_object (ROOT src : path) (text : string)
  (d : list (string * json)) (st : state) :
  String.eqb (lower (Path.suffix src)) ".jsonl" = false ->
  fs st !! src = Some text ->
  loads text = Some (JDict d) ->
  encodable (dumps (JDict d)) = true ->
  normalize_to_jsonl ROOT src st
  = (Ok (staging_path ROOT src, 1),
     set_fs (fun f => <[staging_path ROOT src := dumps (JDict d) +:+ line_end]> f)
       st).
Proof.
  intros Hsuf Hsrc Hload Henc. unfold normalize_to_jsonl. rewrite Hsuf.
  unfold bind at 1, read_text at 1. rewrite Hsrc, Hload, Henc.
  reflexivity.
Qed.

Lemma first_record_object (p : path) (d : list (string * json)) (st : state) :
  fs st !! p = Some (dumps (JDict d) +:+ line_end) ->
  float_free (JDict d) = true -> well_formed (JDict d) = true ->
  first_record_from_jsonl p st = (Ok (JDict d), st).
Proof.
  intros Hp Hff Hwf. unfold first_record_from_jsonl, bind, read_text.
  rewrite Hp. unfold first_line, line_end.
  rewrite (JsonRoundTrip.splitlines_one_line _
             (JsonRoundTrip.one_line_dumps _ Hff)).
  rewrite JsonRoundTrip.strip_dumps_dict.
  rewrite (JsonRoundTrip.loads_dumps _ Hff Hwf).
  reflexivity.
Qed.

Lemma base_slug_sluggable (c sc : string) (imp : list (string * json)) :
  sluggable (dict_get "title" imp) = true ->
  exists slug,
    base_slug_of (JStr c) (JStr sc)
      match dict_get "title" imp with
      | Some title => title
      | None => JNull
      end = Ok slug.
Proof.
  unfold base_slug_of. destruct (dict_get "title" imp) as [t|]; [|eauto].
  destruct t; cbn [sluggable]; intros H; try (apply negb_true_iff in H);
    try rewrite H; eauto.
  destruct (truthy (JStr s)); eauto.
Qed.

(** ** Names in a dataset folder *)

Lemma contains_app (c : ascii) (a b : string) :
  contains c (a +:+ b) = contains c a || contains c b.
Proof.
  induction a as [|x a IH]; [reflexivity|].
  rewrite app_cons. cbn [contains]. rewrite IH, orb_assoc. reflexivity.
Qed.

Lemma next_version_name_form (names : list string) (slug : string) :
  exists v, next_version_name names slug
            = slug +:+ "_v" +:+ str_int v +:+ ".jsonl".
Proof.
  unfold next_version_name.
  destruct (List.filter (glob_match slug) names); [exists 1; reflexivity|].
  eexists. reflexivity.
Qed.

Lemma next_version_name_not_manifest (names : list string) (slug : string) :
  next_version_name names slug <> "MANIFEST.jsonl".
Proof.
  destruct (next_version_name_form names slug) as [v ->]. intros H.
  apply (f_equal (contains "_")) in H.
  rewrite contains_app in H. change ("_v" +:+ str_int v +:+ ".jsonl")
    with (String "_" ("v" +:+ str_int v +:+ ".jsonl")) in H.
  cbn [contains] in H. rewrite Ascii.eqb_refl, orb_true_r in H.
  vm_compute in H. discriminate.
Qed.

Lemma under_datasets (ROOT : path) (c sc name : string) :
  Path.is_under (DATASETS ROOT)
    (Path.child (dataset_folder ROOT c sc) name) = true.
Proof.
  unfold Path.is_under, dataset_folder, Path.child.
  apply bool_decide_eq_true. rewrite <- !app_assoc. apply take_app_length.
Qed.

Lemma child_inj_name (p : path) (a b : string) :
  Path.child p a = Path.child p b -> a = b.
Proof. unfold Path.child. intros H. apply app_inv_head in H. congruence. Qed.




(** The specification's scenario: a first submission titled [Sample X]
    goes to [datasets/malware/ransomware/sample_x_v1.jsonl]. *)
Lemma scenario_destination :
  to_slug "Sample X" = "sample_x"
  /\ dataset_files root
       (snd (main root "2025-01-01T00:00:00+00:00" [inbox_json]
               (st_object (Sample.quoted "Sample X"))))
     = [["srv"; "data"; "datasets"; "malware"; "ransomware"; "MANIFEST.jsonl"];
        ["srv"; "data"; "datasets"; "malware"; "ransomware";
         "sample_x_v1.jsonl"]].
Proof. split; vm_compute; reflexivity. Qed.

End SingleObject.

Module Slug.
Import Normalize SlugSpec.

Lemma all_chars_weaken (p q : ascii -> bool) (s : string) :
  (forall c, p c = true -> q c = true) ->
  all_chars p s = true -> all_chars q s = true.
Proof.
  intros Hpq. induction s as [|c s IH]; [reflexivity|].
  cbn [all_chars]. intros H. apply andb_true_iff in H as [Hc Hs].
  rewrite (Hpq c Hc), (IH Hs). reflexivity.
Qed.

Lemma all_chars_lstrip_by (p q : ascii -> bool) (s : string) :
  all_chars q s = true -> all_chars q (lstrip_by p s) = true.
Proof.
  induction s as [|c s IH]; [reflexivity|].
  intros H. cbn [lstrip_by]. destruct (p c); [|exact H].
  cbn [all_chars] in H. apply andb_true_iff in H as [_ Hs]. exact (IH Hs).
Qed.

Lemma all_chars_rstrip_by (p q : ascii -> bool) (s : string) :
  all_chars q s = true -> all_chars q (rstrip_by p s) = true.
Proof.
  induction s as [|c s IH]; [reflexivity|].
  cbn [all_chars rstrip_by]. intros H. apply andb_true_iff in H as [Hc Hs].
  destruct (negb (nonempty (rstrip_by p s)) && p c); [reflexivity|].
  cbn [all_chars]. rewrite Hc, (IH Hs). reflexivity.
Qed.

(** What [re.sub] leaves: the characters outside the class, and
    underscores. *)
Lemma all_chars_sub_runs (p : ascii -> bool) (s : string) :
  forall b,
    all_chars (fun c => negb (p c) || is_underscore c) (sub_runs p b s) = true.
Proof.
  induction s as [|c s IH]; intros b; [reflexivity|].
  cbn [sub_runs]. destruct (p c) eqn:Hp.
  - destruct b; [apply IH|]. cbn [all_chars]. rewrite IH.
    rewrite orb_true_r. reflexivity.
  - cbn [all_chars]. rewrite Hp, IH. reflexivity.
Qed.

Lemma all_chars_sub_runs_keep (p q : ascii -> bool) (s : string) :
  q "_"%char = true ->
  all_chars q s = true -> forall b, all_chars q (sub_runs p b s) = true.
Proof.
  intros Hq. induction s as [|c s IH]; intros H b; [reflexivity|].
  cbn [all_chars] in H. apply andb_true_iff in H as [Hc Hs].
  cbn [sub_runs]. destruct (p c).
  - destruct b; [exact (IH Hs true)|]. cbn [all_chars].
    rewrite Hq, (IH Hs true). reflexivity.
  - cbn [all_chars]. rewrite Hc, (IH Hs false). reflexivity.
Qed.

(** Collapsing the runs of underscores leaves no two in a row. *)
Lemma sub_runs_head (s : string) (c : ascii) (r : string) :
  sub_runs is_underscore true s = String c r -> is_underscore c = false.
Proof.
  induction s as [|a s IH]; [discriminate|].
  cbn [sub_runs]. destruct (is_underscore a) eqn:Ha; [exact IH|].
  intros [= <- _]. exact Ha.
Qed.

Lemma has_run_sub_runs (s : string) :
  forall b, has_run is_underscore (sub_runs is_underscore b s) = false.
Proof.
  induction s as [|a s IH]; intros b; [reflexivity|].
  cbn [sub_runs]. destruct (is_underscore a) eqn:Ha.
  - destruct b; [apply IH|]. cbn [has_run]. rewrite IH, orb_false_r.
    destruct (sub_runs is_underscore true s) as [|c r] eqn:E;
      [apply andb_false_r|].
    rewrite (sub_runs_head s c r E). apply andb_false_r.
  - cbn [has_run]. rewrite Ha, IH. reflexivity.
Qed.

Lemma has_run_tail (p : ascii -> bool) (a : ascii) (s : string) :
  has_run p (String a s) = false -> has_run p s = false.
Proof. cbn [has_run]. intros H. apply orb_false_iff in H. tauto. Qed.

Lemma has_run_lstrip_by (p q : ascii -> bool) (s : string) :
  has_run q s = false -> has_run q (lstrip_by p s) = false.
Proof.
  induction s as [|c s IH]; [reflexivity|].
  intros H. cbn [lstrip_by]. destruct (p c); [|exact H].
  apply IH, (has_run_tail q c s H).
Qed.

Lemma first_char_rstrip_by (p : ascii -> bool) (s : string) (c : ascii) :
  first_char (rstrip_by p s) = Some c -> first_char s = Some c.
Proof.
  destruct s as [|a s]; [discriminate|]. cbn [rstrip_by].
  destruct (negb (nonempty (rstrip_by p s)) && p a); [discriminate|].
  intros H. exact H.
Qed.

Lemma has_run_rstrip_by (p q : ascii -> bool) (s : string) :
  has_run q s = false -> has_run q (rstrip_by p s) = false.
Proof.
  induction s as [|a s IH]; [reflexivity|].
  intros H. pose proof (has_run_tail q a s H) as Hs.
  cbn [rstrip_by].
  destruct (negb (nonempty (rstrip_by p s)) && p a); [reflexivity|].
  cbn [has_run]. rewrite (IH Hs), orb_false_r.
  cbn [has_run] in H. apply orb_false_iff in H as [H _].
  destruct (q a); [|reflexivity]. cbn [andb] in *.
  destruct (rstrip_by p s) as [|b r] eqn:E; [reflexivity|].
  assert (Hf : first_char s = Some b).
  { apply (first_char_rstrip_by p). rewrite E. reflexivity. }
  destruct s as [|b' s']; [discriminate|]. cbn in Hf. injection Hf as ->.
  exact H.
Qed.

Lemma starts_lstrip_by (p : ascii -> bool) (s : string) :
  starts_with_char p (lstrip_by p s) = false.
Proof.
  unfold starts_with_char.
  destruct (first_char (lstrip_by p s)) as [c|] eqn:E; [|reflexivity].
  exact (lstrip_by_first p s c E).
Qed.

Lemma ends_strip_by (p : ascii -> bool) (s : string) :
  ends_with_char p (strip_by p s) = false.
Proof.
  unfold ends_with_char, strip_by.
  destruct (last_char (lstrip_by p (rstrip_by p s))) as [c|] eqn:E;
    [|reflexivity].
  apply lstrip_by_last in E. exact (rstrip_by_last p s c E).
Qed.

Lemma starts_strip_by (p : ascii -> bool) (s : string) :
  starts_with_char p (strip_by p s) = false.
Proof. unfold strip_by. apply starts_lstrip_by. Qed.

Lemma to_slug_is_slug (text : string) : is_slug (to_slug text) = true.
Proof.
  unfold to_slug.
  set (t := sub_runs (fun c => negb (is_slug_char c)) false (lower text)).
  set (u := sub_runs is_underscore false t).
  destruct (nonempty (strip_by is_underscore u)) eqn:Hne; [|reflexivity].
  unfold is_slug. rewrite Hne, starts_strip_by, ends_strip_by.
  assert (Ht : all_chars slug_char t = true).
  { apply (all_chars_weaken
             (fun c => negb (negb (is_slug_char c)) || is_underscore c));
      [|apply all_chars_sub_runs].
    intros c. rewrite negb_involutive. intros H. exact H. }
  assert (Hu : all_chars slug_char u = true).
  { apply all_chars_sub_runs_keep; [reflexivity|exact Ht]. }
  unfold strip_by.
  rewrite (all_chars_lstrip_by _ _ _ (all_chars_rstrip_by _ _ _ Hu)).
  rewrite (has_run_lstrip_by _ _ _
             (has_run_rstrip_by is_underscore _ _ (has_run_sub_runs t false))).
  reflexivity.
Qed.

(** X1: whatever the title, the slug is not empty, is made of lower-case
    letters, digits and underscores, has no two underscores in a row and
    no underscore at either end. *)
Theorem to_slug_shape (text : string) :
  nonempty (to_slug text) = true
  /\ all_chars (fun c => is_lower c || is_digit c || Ascii.eqb c "_")
       (to_slug text) = true
  /\ has_run (fun c => Ascii.eqb c "_") (to_slug text) = false
  /\ first_char (to_slug text) <> Some "_"%char
  /\ last_char (to_slug text) <> Some "_"%char.
Proof.
  pose proof (to_slug_is_slug text) as H. unfold is_slug in H.
  apply andb_true_iff in H as [H He]. apply andb_true_iff in H as [H Hs].
  apply andb_true_iff in H as [H Hr]. apply andb_true_iff in H as [Hne Hc].
  apply negb_true_iff in He, Hs, Hr.
  repeat split; try assumption.
  - intros E. unfold starts_with_char in Hs. rewrite E in Hs. discriminate.
  - intros E. unfold ends_with_char in He. rewrite E in He. discriminate.
Qed.

(** ** A slug is its own slug *)

Lemma lower_slug_chars (s : string) :
  all_chars slug_char s = true -> lower s = s.
Proof.
  induction s as [|c s IH]; [reflexivity|].
  cbn [all_chars lower]. intros H. apply andb_true_iff in H as [Hc Hs].
  rewrite (IH Hs). f_equal.
  destruct c as [[] [] [] [] [] [] [] []]; try discriminate; reflexivity.
Qed.

Lemma sub_runs_id (p : ascii -> bool) (s : string) :
  all_chars (fun c => negb (p c) || is_underscore c) s = true ->
  has_run p s = false ->
  forall b, (b = true -> starts_with_char p s = false) ->
            sub_runs p b s = s.
Proof.
  induction s as [|c s IH]; [reflexivity|].
  cbn [all_chars]. intros H Hr b Hb.
  apply andb_true_iff in H as [Hc Hs].
  pose proof (has_run_tail p c s Hr) as Hr'.
  cbn [sub_runs]. destruct (p c) eqn:Hp.
  - destruct b.
    + specialize (Hb eq_refl). unfold starts_with_char in Hb. cbn in Hb.
      congruence.
    + cbn [negb orb] in Hc. unfold is_underscore in Hc.
      apply Ascii.eqb_eq in Hc. subst c. f_equal.
      apply IH; [exact Hs|exact Hr'|]. intros _.
      cbn [has_run] in Hr. rewrite Hp in Hr. cbn [andb] in Hr.
      apply orb_false_iff in Hr as [Hr _].
      unfold starts_with_char. destruct s; [reflexivity|exact Hr].
  - f_equal. apply IH; [exact Hs|exact Hr'|]. intros N. discriminate.
Qed.

Lemma lstrip_by_id (p : ascii -> bool) (s : string) :
  starts_with_char p s = false -> lstrip_by p s = s.
Proof.
  destruct s as [|c s]; [reflexivity|].
  unfold starts_with_char. cbn. intros ->. reflexivity.
Qed.

Lemma strip_by_id (p : ascii -> bool) (s : string) :
  starts_with_char p s = false -> ends_with_char p s = false ->
  strip_by p s = s.
Proof.
  intros Hs He. unfold strip_by.
  destruct (last_char s) as [c|] eqn:El.
  - unfold ends_with_char in He. rewrite El in He.
    rewrite (JsonRoundTrip.rstrip_by_id p s c El He). apply lstrip_by_id, Hs.
  - destruct s as [|a s]; [reflexivity|].
    destruct (last_char_some a s) as [x Hx]. congruence.
Qed.

Lemma to_slug_fixed (s : string) : is_slug s = true -> to_slug s = s.
Proof.
  unfold is_slug. intros H.
  apply andb_true_iff in H as [H He]. apply andb_true_iff in H as [H Hs].
  apply andb_true_iff in H as [H Hr]. apply andb_true_iff in H as [Hne Hc].
  apply negb_true_iff in He, Hs, Hr.
  unfold to_slug. rewrite (lower_slug_chars s Hc).
  rewrite (sub_runs_id (fun c => negb (is_slug_char c)) s).
  - rewrite (sub_runs_id is_underscore s).
    + rewrite (strip_by_id _ _ Hs He), Hne. reflexivity.
    + apply (all_chars_weaken slug_char); [|exact Hc].
      intros c _. destruct (is_underscore c); reflexivity.
    + exact Hr.
    + discriminate.
  - apply (all_chars_weaken slug_char); [|exact Hc].
    intros c. rewrite negb_involutive. intros Hx. exact Hx.
  - clear -Hc Hr. induction s as [|a s IH]; [reflexivity|].
    cbn [all_chars] in Hc. apply andb_true_iff in Hc as [Ha Hc].
    pose proof (has_run_tail _ a s Hr) as Hr'.
    cbn [has_run]. rewrite (IH Hc Hr'), orb_false_r.
    destruct (negb (is_slug_char a)) eqn:Na; [|reflexivity].
    destruct s as [|b s]; [reflexivity|]. cbn [andb].
    destruct (negb (is_slug_char b)) eqn:Nb; [|reflexivity].
    cbn [all_chars] in Hc. apply andb_true_iff in Hc as [Hb _].
    unfold slug_char in Ha, Hb. apply negb_true_iff in Na, Nb.
    rewrite Na in Ha. rewrite Nb in Hb. cbn [orb] in Ha, Hb.
    cbn [has_run] in Hr. rewrite Ha, Hb in Hr. discriminate.
  - discriminate.
Qed.

(** X2: making a slug of a slug changes nothing. *)
Theorem to_slug_idempotent (text : string) :
  to_slug (to_slug text) = to_slug text.
Proof. apply to_slug_fixed, to_slug_is_slug. Qed.

End Slug.

Module FreshVersion.
Import Normalize.
Import JsonSpec.

(** ** Names of the files of a folder *)

Lemma listdir_child (f : files) (folder : path) (n t : string) :
  f !! Path.child folder n = Some t -> In n (Path.listdir f folder).
Proof.
  intros H. apply list_elem_of_In. unfold Path.listdir.
  apply list_elem_of_omap. exists (Path.child folder n, t). split.
  - apply elem_of_map_to_list. exact H.
  - cbn [fst].
    assert (Hp : Path.parent (Path.child folder n) = folder)
      by apply removelast_last.
    assert (Hn : Path.name (Path.child folder n) = n) by apply last_last.
    rewrite Hp, Hn.
    destruct (decide (folder = folder)); [|contradiction].
    unfold Path.child. destruct folder; reflexivity.
Qed.

(** ** Version names *)

Lemma prefix_app (p r : string) : String.prefix p (p +:+ r) = true.
Proof.
  induction p as [|c p IH]; [destruct r; reflexivity|].
  rewrite app_cons. cbn [String.prefix].
  destruct (ascii_dec c c); [exact IH|contradiction].
Qed.

Lemma substring_app_r (s t : string) :
  String.substring (String.length s) (String.length t) (s +:+ t) = t.
Proof.
  induction s as [|c s IH].
  - rewrite app_empty_l. cbn [String.length].
    induction t as [|a t IHt]; [reflexivity|].
    cbn [String.length String.substring]. rewrite IHt. reflexivity.
  - rewrite app_cons. cbn [String.length String.substring]. exact IH.
Qed.

Lemma substring_app_l (s t : string) :
  String.substring 0 (String.length s) (s +:+ t) = s.
Proof.
  induction s as [|c s IH]; [destruct t; reflexivity|].
  rewrite app_cons. cbn [String.length String.substring]. rewrite IH.
  reflexivity.
Qed.

Lemma endswith_app (s t : string) : endswith t (s +:+ t) = true.
Proof.
  unfold endswith. rewrite length_app_str.
  replace (String.length s + String.length t - String.length t)%nat
    with (String.length s) by lia.
  rewrite substring_app_r, String.eqb_refl, andb_true_r.
  apply Nat.leb_le. lia.
Qed.

Lemma glob_match_version (slug ds : string) :
  glob_match slug (slug +:+ "_v" +:+ ds +:+ ".jsonl") = true.
Proof.
  unfold glob_match.
  rewrite <- (app_assoc_str slug "_v" (ds +:+ ".jsonl")).
  unfold startswith. rewrite prefix_app.
  rewrite <- (app_assoc_str (slug +:+ "_v") ds ".jsonl").
  rewrite endswith_app. cbn [andb].
  apply Nat.leb_le. rewrite !length_app_str. cbn [String.length]. lia.
Qed.

Lemma split_all_digits (ds : string) :
  all_digits ds = true -> split_trailing_digits ds = (EmptyString, ds).
Proof.
  induction ds as [|c ds IH]; [reflexivity|].
  cbn [all_digits]. intros H. apply andb_true_iff in H as [Hc Hd].
  cbn [split_trailing_digits]. rewrite (IH Hd), Hc. reflexivity.
Qed.

Lemma split_after_letter (pre ds : string) (c : ascii) :
  last_char pre = Some c -> is_digit c = false -> all_digits ds = true ->
  split_trailing_digits (pre +:+ ds) = (pre, ds).
Proof.
  intros Hl Hc Hd. induction pre as [|a pre IH]; [discriminate|].
  rewrite app_cons. cbn [split_trailing_digits].
  destruct pre as [|b pre].
  - rewrite app_empty_l, (split_all_digits ds Hd).
    cbn in Hl. injection Hl as ->. rewrite Hc. reflexivity.
  - rewrite IH; [reflexivity|].
    rewrite last_char_cons in Hl.
    destruct (last_char (String b pre)) as [x|] eqn:E; [exact Hl|].
    destruct (last_char_some b pre) as [y Hy]. congruence.
Qed.

Lemma endswith_newline_jsonl (s : string) :
  endswith line_end (s +:+ ".jsonl") = false.
Proof.
  unfold endswith, line_end. cbn [String.length str1].
  destruct (1 <=? String.length (s +:+ ".jsonl"))%nat eqn:E; [|reflexivity].
  cbn [andb]. apply String.eqb_neq. intros H.
  apply (f_equal last_char) in H.
  assert (G : forall (t : string) (n : nat),
             last_char (String.substring n 1 t) = None
             \/ exists x, String.substring n 1 t = str1 x
                          /\ (S n = String.length t -> last_char t = Some x)).
  { induction t as [|a t IHt]; intros n.
    - left. destruct n; reflexivity.
    - destruct n as [|n].
      + right. exists a. cbn [String.substring].
        split; [destruct t; reflexivity|].
        cbn [String.length]. intros L. destruct t; [reflexivity|discriminate].
      + cbn [String.substring]. destruct (IHt n) as [N|[x [Hx Hlen]]].
        * left. exact N.
        * right. exists x. split; [exact Hx|].
          cbn [String.length]. intros L. injection L as L.
          rewrite last_char_cons, (Hlen L). reflexivity. }
  destruct (G (s +:+ ".jsonl") (String.length (s +:+ ".jsonl") - 1)%nat)
    as [N|[x [Hx Hlen]]].
  - rewrite N in H. discriminate.
  - rewrite Hx in H. cbn in H. injection H as ->.
    apply Nat.leb_le in E.
    rewrite last_char_app in Hlen. cbn in Hlen.
    assert (Some "l"%char = Some newline) by (apply Hlen; lia).
    discriminate.
Qed.

Lemma version_of_name (slug ds : string) :
  nonempty ds = true -> all_digits ds = true ->
  version_of (slug +:+ "_v" +:+ ds +:+ ".jsonl")
  = Some (Z.of_N (int_of_digits ds)).
Proof.
  intros Hne Hd. unfold version_of.
  rewrite <- (app_assoc_str slug "_v" (ds +:+ ".jsonl")).
  rewrite <- (app_assoc_str (slug +:+ "_v") ds ".jsonl").
  rewrite endswith_newline_jsonl, endswith_app.
  rewrite length_app_str. cbn [String.length].
  replace (String.length ((slug +:+ "_v") +:+ ds) + 6 - 6)%nat
    with (String.length ((slug +:+ "_v") +:+ ds)) by lia.
  rewrite substring_app_l.
  rewrite (split_after_letter (slug +:+ "_v") ds "v");
    [|rewrite last_char_app; reflexivity|reflexivity|exact Hd].
  rewrite Hne, endswith_app. reflexivity.
Qed.

Lemma str_int_pos (p : positive) :
  str_int (Zpos p) = NilEmpty.string_of_uint (Pos.to_uint p).
Proof.
  unfold str_int. cbn [Z.to_int]. unfold NilZero.string_of_int.
  unfold NilZero.string_of_uint.
  destruct (JsonRoundTrip.to_uint_head p) as (c & s & E & _).
  destruct (Pos.to_uint p); [discriminate E|reflexivity..].
Qed.

Lemma str_int_digits (k : Z) :
  0 <= k ->
  nonempty (str_int k) = true /\ all_digits (str_int k) = true
  /\ Z.of_N (int_of_digits (str_int k)) = k.
Proof.
  intros Hk. destruct k as [|p|p]; [repeat split; reflexivity| |lia].
  rewrite str_int_pos. split; [|split].
  - destruct (JsonRoundTrip.to_uint_head p) as (c & s & E & _).
    rewrite E. reflexivity.
  - apply JsonRoundTrip.all_digits_uint.
  - rewrite JsonRoundTrip.int_of_digits_to_uint. reflexivity.
Qed.

(** ** The maximum *)

Lemma fold_max_le (vs : list Z) :
  forall a, a <= fold_left Z.max vs a
            /\ forall x, In x vs -> x <= fold_left Z.max vs a.
Proof.
  induction vs as [|v vs IH]; intros a; [split; [cbn; lia|intros x []]|].
  cbn [fold_left]. destruct (IH (Z.max a v)) as [H1 H2]. split; [lia|].
  intros x [<-|Hx]; [lia|exact (H2 x Hx)].
Qed.

Lemma max_of_le (vs : list Z) (x : Z) : In x vs -> x <= max_of vs.
Proof.
  destruct vs as [|v vs]; [intros []|]. cbn [max_of].
  destruct (fold_max_le vs v) as [H1 H2].
  intros [<-|Hx]; [exact H1|exact (H2 x Hx)].
Qed.

Lemma version_nonneg (name : string) (k : Z) :
  version_of name = Some k -> 0 <= k.
Proof.
  unfold version_of.
  destruct (endswith ".jsonl" _); [|discriminate].
  destruct (split_trailing_digits _) as [pre ds].
  destruct (nonempty ds && endswith "_v" pre); [|discriminate].
  intros [= <-]. lia.
Qed.

(** The number chosen for the next version, and why it is new. *)
Lemma next_version_number (names : list string) (slug : string) :
  exists v,
    1 <= v
    /\ next_version_name names slug = slug +:+ "_v" +:+ str_int v +:+ ".jsonl"
    /\ forall name k, In name names -> glob_match slug name = true ->
                      version_of name = Some k -> k < v.
Proof.
  unfold next_version_name.
  destruct (List.filter (glob_match slug) names) as [|e es] eqn:Ex.
  - exists 1. split; [lia|split; [reflexivity|]].
    intros name k Hin Hg _.
    assert (In name (List.filter (glob_match slug) names))
      by (apply filter_In; split; assumption).
    rewrite Ex in H. destruct H.
  - rewrite <- Ex.
    destruct (omap version_of (List.filter (glob_match slug) names))
      as [|v0 vs] eqn:Ev.
    + exists 1. split; [lia|split; [reflexivity|]].
      intros name k Hin Hg Hv.
      assert (k ∈ omap version_of (List.filter (glob_match slug) names)).
      { apply list_elem_of_omap. exists name. split; [|exact Hv].
        apply list_elem_of_In, filter_In. split; assumption. }
      rewrite Ev in H. apply elem_of_nil in H. destruct H.
    + exists (max_of (v0 :: vs) + 1).
      assert (Hall : forall k, In k (v0 :: vs) -> 0 <= k).
      { intros k Hk. rewrite <- Ev in Hk. apply list_elem_of_In in Hk.
        apply list_elem_of_omap in Hk as (n & _ & Hn).
        exact (version_nonneg n k Hn). }
      split; [|split; [reflexivity|]].
      * pose proof (max_of_le (v0 :: vs) v0 (or_introl eq_refl)).
        pose proof (Hall v0 (or_introl eq_refl)). lia.
      * intros name k Hin Hg Hv.
        assert (In k (v0 :: vs)).
        { rewrite <- Ev. apply list_elem_of_In, list_elem_of_omap.
          exists name. split; [|exact Hv].
          apply list_elem_of_In, filter_In. split; assumption. }
        pose proof (max_of_le _ _ H). lia.
Qed.

Lemma next_version_above (f : files) (folder : path) (slug : string) :
  exists v,
    1 <= v
    /\ next_version_path f folder slug
       = Path.child folder (slug +:+ "_v" +:+ str_int v +:+ ".jsonl")
    /\ f !! next_version_path f folder slug = None
    /\ forall k, 0 <= k ->
         is_Some (f !! Path.child folder
                         (slug +:+ "_v" +:+ str_int k +:+ ".jsonl")) ->
         k < v.
Proof.
  unfold next_version_path.
  destruct (next_version_number (Path.listdir f folder) slug)
    as (v & Hv & Hname & Hmax).
  assert (Hk : forall k, 0 <= k ->
            is_Some (f !! Path.child folder
                            (slug +:+ "_v" +:+ str_int k +:+ ".jsonl")) ->
            k < v).
  { intros k Hk0 [t Ht].
    destruct (str_int_digits k Hk0) as (Hne & Hd & Hint).
    apply (Hmax (slug +:+ "_v" +:+ str_int k +:+ ".jsonl") k).
    - exact (listdir_child f folder _ t Ht).
    - apply glob_match_version.
    - rewrite (version_of_name slug (str_int k) Hne Hd), Hint. reflexivity. }
  exists v. split; [exact Hv|]. rewrite Hname.
  split; [reflexivity|]. split; [|exact Hk].
  destruct (f !! Path.child folder (slug +:+ "_v" +:+ str_int v +:+ ".jsonl"))
    as [t|] eqn:E; [|reflexivity].
  assert (v < v) by (apply Hk; [lia|rewrite E; eauto]). lia.
Qed.

(** X3: the path chosen for the next version of a title's slug is
    [<slug>_v<N>.jsonl] with [N] at least 1, it is the path of no
    existing file, and [N] exceeds the number of every file
    [<slug>_v<k>.jsonl] of the folder. *)
Theorem next_version_is_new (f : files) (folder : path) (text : string) :
  exists v,
    1 <= v
    /\ next_version_path f folder (to_slug text)
       = Path.child folder (to_slug text +:+ "_v" +:+ str_int v +:+ ".jsonl")
    /\ f !! next_version_path f folder (to_slug text) = None
    /\ forall k, 0 <= k ->
         is_Some (f !! Path.child folder
                         (to_slug text +:+ "_v" +:+ str_int k +:+ ".jsonl")) ->
         k < v.
Proof. exact (next_version_above f folder (to_slug text)). Qed.

End FreshVersion.

Module PathFacts.

(** ** The stem and the suffix of a name *)

Lemma app_inv_head_str (s a b : string) : s +:+ a = s +:+ b -> a = b.
Proof.
  induction s as [|c s IH]; [rewrite !app_empty_l; auto|].
  rewrite !app_cons. intros [= H]. exact (IH H).
Qed.

Lemma substring_split (s : string) :
  forall i, (i <= String.length s)%nat ->
    String.substring 0 i s +:+ String.substring i (String.length s - i) s = s.
Proof.
  induction s as [|c s IH]; intros i Hi.
  - destruct i; reflexivity.
  - destruct i as [|i].
    + cbn [String.substring]. rewrite app_empty_l.
      cbn [String.length Nat.sub]. f_equal.
      specialize (IH 0%nat (Nat.le_0_l _)).
      rewrite Nat.sub_0_r in IH.
      replace (String.substring 0 0 s) with EmptyString in IH
        by (destruct s; reflexivity).
      rewrite app_empty_l in IH. exact IH.
    + cbn [String.substring String.length Nat.sub]. rewrite app_cons.
      f_equal. apply IH. cbn [String.length] in Hi. lia.
Qed.

Lemma rfind_dot_lt (s : string) (i : nat) :
  Path.rfind_dot s = Some i -> (i < String.length s)%nat.
Proof.
  revert i. induction s as [|c s IH]; intros i; [discriminate|].
  cbn [Path.rfind_dot String.length].
  destruct (Path.rfind_dot s) as [j|].
  - intros [= <-]. specialize (IH j eq_refl). lia.
  - destruct (Ascii.eqb c "."); [intros [= <-]; lia|discriminate].
Qed.

(** The text from the last dot on: a dot, then no dot. *)
Lemma rfind_dot_substring (s : string) (i : nat) :
  Path.rfind_dot s = Some i ->
  exists r, String.substring i (String.length s - i) s = String "." r
            /\ contains "." r = false.
Proof.
  revert i. induction s as [|c s IH]; intros i; [discriminate|].
  cbn [Path.rfind_dot String.length].
  destruct (Path.rfind_dot s) as [j|] eqn:E.
  - intros [= <-]. cbn [Nat.sub String.substring]. exact (IH j eq_refl).
  - destruct (Ascii.eqb c ".") eqn:Ec; [|discriminate].
    intros [= <-]. apply Ascii.eqb_eq in Ec. subst c.
    exists s. split.
    + cbn [Nat.sub String.substring]. f_equal.
      pose proof (substring_split s 0 (Nat.le_0_l _)) as H.
      rewrite Nat.sub_0_r in H.
      replace (String.substring 0 0 s) with EmptyString in H
        by (destruct s; reflexivity).
      rewrite app_empty_l in H. exact H.
    + clear -E. induction s as [|a s IH]; [reflexivity|].
      cbn [Path.rfind_dot] in E. cbn [contains].
      destruct (Path.rfind_dot s); [discriminate|].
      destruct (Ascii.eqb a "."); [discriminate|].
      cbn [orb]. exact (IH eq_refl).
Qed.

Lemma stem_suffix (nm : string) :
  Path.stem_of nm +:+ Path.suffix_of nm = nm.
Proof.
  unfold Path.stem_of, Path.suffix_of.
  destruct (Path.rfind_dot nm) as [i|] eqn:E; [|apply app_empty_r].
  destruct ((0 <? i)%nat && (i <? String.length nm - 1)%nat);
    [|apply app_empty_r].
  apply substring_split. apply rfind_dot_lt in E. lia.
Qed.

Lemma suffix_shape (nm : string) :
  Path.suffix_of nm = EmptyString
  \/ exists r, Path.suffix_of nm = String "." r /\ contains "." r = false.
Proof.
  unfold Path.suffix_of.
  destruct (Path.rfind_dot nm) as [i|] eqn:E; [|left; reflexivity].
  destruct ((0 <? i)%nat && (i <? String.length nm - 1)%nat);
    [|left; reflexivity].
  right. exact (rfind_dot_substring nm i E).
Qed.

(** A name made of its own stem and an extension has that extension. *)
Lemma name_of_stem (nm ext : string) :
  nonempty ext = true ->
  nm = Path.stem_of nm +:+ ext -> Path.suffix_of nm = ext.
Proof.
  intros Hne H. pose proof (stem_suffix nm) as S.
  rewrite H in S at 3. exact (app_inv_head_str _ _ _ S).
Qed.

Lemma last_char_lower (s : string) :
  last_char (lower s) = option_map lower_char (last_char s).
Proof.
  induction s as [|c s IH]; [reflexivity|].
  cbn [lower]. rewrite !last_char_cons, IH.
  destruct (last_char s); reflexivity.
Qed.

End PathFacts.

Module Intake.
Import Normalize NormalizeSpec JsonSpec IntakeSpec.

(** ** The text of a dataset file and its lines *)

Lemma jsonl_text_cons (v : json) (items : list json) :
  jsonl_text (v :: items) = dumps v +:+ line_end +:+ jsonl_text items.
Proof. reflexivity. Qed.

Lemma jsonl_text_app (a b : list json) :
  jsonl_text (a ++ b) = jsonl_text a +:+ jsonl_text b.
Proof.
  induction a as [|v a IH]; [symmetry; apply app_empty_l|].
  cbn [app]. rewrite !jsonl_text_cons, IH, !app_assoc_str. reflexivity.
Qed.

Lemma splitlines_line (s t : string) :
  one_line s = true ->
  splitlines (s +:+ line_end +:+ t) = s :: splitlines t.
Proof.
  induction s as [|c s IH]; [reflexivity|].
  cbn [one_line]. intros H.
  apply andb_true_iff in H as [H Hs]. apply andb_true_iff in H as [H1 H2].
  apply negb_true_iff in H1, H2.
  rewrite app_cons. cbn [splitlines]. rewrite H1, H2, (IH Hs). reflexivity.
Qed.

Lemma splitlines_jsonl (items : list json) :
  forallb float_free items = true ->
  splitlines (jsonl_text items) = map dumps items.
Proof.
  induction items as [|v items IH]; [reflexivity|].
  cbn [forallb]. intros H. apply andb_true_iff in H as [Hv Hi].
  rewrite jsonl_text_cons.
  rewrite (splitlines_line _ _ (JsonRoundTrip.one_line_dumps v Hv)), (IH Hi).
  reflexivity.
Qed.

Lemma dumps_dict_nonempty (d : list (string * json)) :
  nonempty (dumps (JDict d)) = true.
Proof. reflexivity. Qed.

Lemma records_of_cons (line : string) (lines : list string) :
  records_of (line :: lines)
  = match (if nonempty (strip line) then loads (strip line) else None) with
    | Some v => v :: records_of lines
    | None => records_of lines
    end.
Proof. reflexivity. Qed.

(** What is written is read back, record by record. *)
Lemma records_of_dumps (items : list json) :
  forallb is_dict items = true ->
  forallb float_free items = true ->
  forallb well_formed items = true ->
  records_of (map dumps items) = items.
Proof.
  induction items as [|v items IH]; [reflexivity|].
  cbn [forallb]. intros Hd Hf Hw.
  apply andb_true_iff in Hd as [Hd Hds].
  apply andb_true_iff in Hf as [Hf Hfs].
  apply andb_true_iff in Hw as [Hw Hws].
  destruct v as [| | | | | |d]; try discriminate.
  cbn [map]. rewrite records_of_cons.
  rewrite JsonRoundTrip.strip_dumps_dict, dumps_dict_nonempty.
  rewrite (JsonRoundTrip.loads_dumps _ Hf Hw), (IH Hds Hfs Hws).
  reflexivity.
Qed.

Lemma stream_records_of (text : string) :
  Ingest.stream_records text = records_of (splitlines text).
Proof. reflexivity. Qed.

(** ** The two conversion loops when nothing is refused *)

Lemma convert_items_ok (items : list json) :
  forallb is_dict items = true ->
  forallb (fun v => encodable (dumps v)) items = true ->
  forall out count,
    convert_items items out count
    = (out +:+ jsonl_text items, count + Z.of_nat (length items), None).
Proof.
  induction items as [|v items IH]; intros Hd He out count.
  - cbn [convert_items jsonl_text fold_right length].
    rewrite app_empty_r, Z.add_0_r. reflexivity.
  - cbn [forallb] in Hd, He.
    apply andb_true_iff in Hd as [Hd Hds].
    apply andb_true_iff in He as [He Hes].
    cbn [convert_items]. rewrite Hd, He, (IH Hds Hes).
    rewrite jsonl_text_cons, !app_assoc_str.
    f_equal. f_equal. cbn [length]. lia.
Qed.

Lemma convert_lines_ok (lines : list string) :
  existsb bad_line lines = false ->
  forallb (fun v => encodable (dumps v)) (records_of lines) = true ->
  forall out count,
    convert_lines lines out count
    = (out +:+ jsonl_text (records_of lines),
       count + Z.of_nat (length (records_of lines)), None).
Proof.
  induction lines as [|line lines IH]; intros Hb He out count.
  - cbn [convert_lines records_of omap jsonl_text fold_right length].
    rewrite app_empty_r, Z.add_0_r. reflexivity.
  - cbn [existsb] in Hb. apply orb_false_iff in Hb as [Hb Hbs].
    rewrite records_of_cons in He |- *. cbn [convert_lines].
    unfold bad_line in Hb.
    destruct (nonempty (strip line)) eqn:Hne; cbn [negb andb] in Hb |- *.
    + destruct (loads (strip line)) as [[| | | | | |d]|] eqn:Hl;
        try discriminate.
      cbn [forallb] in He. apply andb_true_iff in He as [He Hes].
      rewrite He, (IH Hbs Hes). rewrite jsonl_text_cons, !app_assoc_str.
      f_equal. f_equal. cbn [length]. lia.
    + exact (IH Hbs He out count).
Qed.

Lemma records_of_dicts (lines : list string) :
  existsb bad_line lines = false -> forallb is_dict (records_of lines) = true.
Proof.
  induction lines as [|line lines IH]; [reflexivity|].
  cbn [existsb]. intros Hb. apply orb_false_iff in Hb as [Hb Hbs].
  rewrite records_of_cons. unfold bad_line in Hb.
  destruct (nonempty (strip line)); cbn [negb andb] in Hb; [|exact (IH Hbs)].
  destruct (loads (strip line)) as [[| | | | | |d]|]; try discriminate.
  cbn [forallb is_dict]. exact (IH Hbs).
Qed.

Lemma records_of_well_formed (lines : list string) :
  forallb well_formed (records_of lines) = true.
Proof.
  induction lines as [|line lines IH]; [reflexivity|].
  rewrite records_of_cons.
  destruct (nonempty (strip line)); [|exact IH].
  destruct (loads (strip line)) as [v|] eqn:Hl; [|exact IH].
  cbn [forallb]. rewrite (JsonRoundTrip.loads_well_formed _ _ Hl), IH.
  reflexivity.
Qed.

(** ** From the staged conversion to the dataset store *)

Lemma first_record_items (p : path) (d : list (string * json))
  (rest : list json) (st : state) :
  fs st !! p = Some (jsonl_text (JDict d :: rest)) ->
  float_free (JDict d) = true -> well_formed (JDict d) = true ->
  first_record_from_jsonl p st = (Ok (JDict d), st).
Proof.
  intros Hp Hff Hwf. unfold first_record_from_jsonl, bind, read_text.
  rewrite Hp, jsonl_text_cons. unfold first_line.
  rewrite (splitlines_line _ _ (JsonRoundTrip.one_line_dumps _ Hff)).
  rewrite JsonRoundTrip.strip_dumps_dict.
  rewrite (JsonRoundTrip.loads_dumps _ Hff Hwf).
  reflexivity.
Qed.

(** The run of [main] once the conversion is staged: the staged file
    becomes a new version in the folder of the first record, and the
    manifest of the folder receives its entry. *)
Lemma main_stores (ROOT : path) (now : string) (src : path)
  (d imp : list (string * json)) (rest : list json) (c sc : string)
  (st : state) :
  normalize_to_jsonl ROOT src st
  = (Ok (staging_path ROOT src, Z.of_nat (length (JDict d :: rest))),
     set_fs (fun f => <[staging_path ROOT src
                        := jsonl_text (JDict d :: rest)]> f) st) ->
  float_free (JDict d) = true -> well_formed (JDict d) = true ->
  dict_get "important" d = Some (JDict imp) ->
  dict_get "category" imp = Some (JStr c) ->
  dict_get "sub_category" imp = Some (JStr sc) ->
  sluggable (dict_get "title" imp) = true ->
  exists st' name slug v,
    main ROOT now [src] st = (Ok tt, st')
    /\ name = slug +:+ "_v" +:+ str_int v +:+ ".jsonl"
    /\ fs st !! Path.child (dataset_folder ROOT c sc) name = None
    /\ fs st' !! Path.child (dataset_folder ROOT c sc) name
       = Some (jsonl_text (JDict d :: rest))
    /\ fs st' !! Path.child (dataset_folder ROOT c sc) "MANIFEST.jsonl"
       = Some (manifest_text (fs st) (dataset_folder ROOT c sc)
               +:+ dumps (manifest_entry name
                            (Z.of_nat (length (JDict d :: rest))) now)
               +:+ line_end)
    /\ fs st' !! staging_path ROOT src = None
    /\ log st' = log st ++ [LogMoved (Path.name src) c sc name
                              (Z.of_nat (length (JDict d :: rest)))].
Proof.
  intros Hnorm Hff Hwf Himp Hc Hsc Htitle.
  destruct (SingleObject.base_slug_sluggable c sc imp Htitle) as [slug Hslug].
  set (folder := dataset_folder ROOT c sc).
  set (staged := staging_path ROOT src).
  set (content := jsonl_text (JDict d :: rest)).
  set (count := Z.of_nat (length (JDict d :: rest))).
  set (st1 := set_fs (fun f => <[staged := content]> f) st).
  destruct (FreshVersion.next_version_above (fs st1) folder slug)
    as (v & _ & Hpath & Hfresh & _).
  set (name := slug +:+ "_v" +:+ str_int v +:+ ".jsonl").
  fold name in Hpath.
  assert (Hds : Path.child folder name <> staged).
  { intros E. pose proof (Quarantine.staging_not_dataset ROOT src) as N.
    fold staged in N. rewrite <- E in N. unfold folder in N.
    rewrite SingleObject.under_datasets in N. discriminate. }
  assert (Hms : Path.child folder "MANIFEST.jsonl" <> staged).
  { intros E. pose proof (Quarantine.staging_not_dataset ROOT src) as N.
    fold staged in N. rewrite <- E in N. unfold folder in N.
    rewrite SingleObject.under_datasets in N. discriminate. }
  assert (Hmd : Path.child folder "MANIFEST.jsonl" <> Path.child folder name).
  { intros E. apply SingleObject.child_inj_name in E.
    apply (f_equal (contains "_")) in E. unfold name in E.
    rewrite SingleObject.contains_app in E.
    change ("_v" +:+ str_int v +:+ ".jsonl")
      with (String "_" ("v" +:+ str_int v +:+ ".jsonl")) in E.
    cbn [contains] in E. rewrite Ascii.eqb_refl, orb_true_r in E.
    vm_compute in E. discriminate. }
  exists {| fs := <[Path.child folder "MANIFEST.jsonl" :=
                     manifest_text (fs st) folder
                     +:+ dumps (manifest_entry name count now) +:+ line_end]>
                   (<[Path.child folder name := content]>
                      (delete staged (fs st1)));
            log := log st ++ [LogMoved (Path.name src) c sc name count] |},
         name, slug, v.
  split; [|split; [reflexivity|split; [|split; [|split; [|split]]]]].
  - rewrite Quarantine.main_try. unfold try_except.
    unfold convert_and_move. unfold bind at 1.
    rewrite Hnorm. fold staged. fold content. fold count. fold st1.
    unfold bind at 1.
    rewrite (first_record_items staged d rest st1);
      [|apply lookup_insert_eq|exact Hff|exact Hwf].
    unfold bind at 1, lift at 1, extract_keys. rewrite Himp, Hc, Hsc.
    unfold bind at 1, lift at 1, dest_folder_of.
    unfold bind at 1, lift at 1. rewrite Hslug.
    unfold bind at 1, get at 1.
    fold (dataset_folder ROOT c sc). fold folder.
    rewrite Hpath.
    unfold bind at 1, move at 1.
    replace (fs st1 !! staged) with (Some content)
      by (symmetry; apply lookup_insert_eq).
    unfold bind at 1, append_manifest, append_text, modify at 1.
    unfold log_line, modify. rewrite Quarantine.name_child.
    cbn [set_fs fs log str]. do 3 f_equal.
    unfold manifest_text.
    rewrite lookup_insert_ne by (intros E; apply Hmd; symmetry; exact E).
    rewrite lookup_delete_ne by (intros E; apply Hms; symmetry; exact E).
    unfold st1. cbn [set_fs fs].
    rewrite lookup_insert_ne by (intros E; apply Hms; symmetry; exact E).
    reflexivity.
  - rewrite Hpath in Hfresh. unfold st1 in Hfresh. cbn [set_fs fs] in Hfresh.
    rewrite lookup_insert_ne in Hfresh
      by (intros E; apply Hds; symmetry; exact E).
    exact Hfresh.
  - cbn [fs]. rewrite lookup_insert_ne by exact Hmd. apply lookup_insert_eq.
  - cbn [fs]. apply lookup_insert_eq.
  - cbn [fs]. rewrite lookup_insert_ne by exact Hms.
    rewrite lookup_insert_ne by exact Hds. apply lookup_delete_eq.
  - reflexivity.
Qed.

(** ** Accepted submissions *)

Lemma normalize_array (ROOT src : path) (text : string) (items : list json)
  (st : state) :
  String.eqb (lower (Path.suffix src)) ".jsonl" = false ->
  fs st !! src = Some text ->
  loads text = Some (JList items) ->
  forallb is_dict items = true ->
  forallb (fun v => encodable (dumps v)) items = true ->
  normalize_to_jsonl ROOT src st
  = (Ok (staging_path ROOT src, Z.of_nat (length items)),
     set_fs (fun f => <[staging_path ROOT src := jsonl_text items]> f) st).
Proof.
  intros Hsuf Hsrc Hload Hd He. unfold normalize_to_jsonl. rewrite Hsuf.
  unfold bind at 1, read_text at 1. rewrite Hsrc, Hload.
  rewrite (convert_items_ok items Hd He EmptyString 0).
  rewrite app_empty_l, Z.add_0_l. reflexivity.
Qed.

Lemma normalize_lines (ROOT src : path) (text : string) (st : state) :
  String.eqb (lower (Path.suffix src)) ".jsonl" = true ->
  src <> staging_path ROOT src ->
  fs st !! src = Some text ->
  existsb bad_line (splitlines text) = false ->
  forallb (fun v => encodable (dumps v)) (records_of (splitlines text)) = true ->
  normalize_to_jsonl ROOT src st
  = (Ok (staging_path ROOT src,
         Z.of_nat (length (records_of (splitlines text)))),
     set_fs (fun f => <[staging_path ROOT src
                        := jsonl_text (records_of (splitlines text))]> f) st).
Proof.
  intros Hsuf Hne Hsrc Hb He. unfold normalize_to_jsonl. rewrite Hsuf.
  unfold bind at 1, read_text at 1. rewrite Hsrc.
  fold (staging_path ROOT src).
  destruct (decide (src = staging_path ROOT src)) as [E|_]; [contradiction|].
  rewrite (convert_lines_ok (splitlines text) Hb He EmptyString 0).
  rewrite app_empty_l, Z.add_0_l. reflexivity.
Qed.





End Intake.

Module Refusals.
Import Normalize NormalizeSpec JsonSpec IntakeSpec.

(** ** Where the files of a refused submission are *)

Lemma staged_ne_failed (ROOT src : path) :
  staging_path ROOT src <> failed_path ROOT src.
Proof.
  unfold staging_path, failed_path, STAGING, ERRORS, Path.child.
  rewrite <- !app_assoc. intros H. apply app_inv_head in H. discriminate.
Qed.

Lemma src_ne_staged (ROOT src : path) :
  String.eqb (lower (Path.suffix src)) ".jsonl" = false ->
  src <> staging_path ROOT src.
Proof.
  intros Hsuf E. apply (f_equal Path.name) in E.
  unfold staging_path in E. rewrite Quarantine.name_child in E.
  unfold Path.stem in E.
  assert (S : Path.suffix src = ".jsonl")
    by (apply PathFacts.name_of_stem; [reflexivity|exact E]).
  rewrite S in Hsuf. discriminate.
Qed.

(** The failure path of [main] when the conversion was staged before the
    error, and when it was not. *)
Lemma quarantine_staged (ROOT : path) (now : string) (src : path)
  (text o : string) (e : exn) (st : state) :
  convert_and_move ROOT now src st
  = (Raise e, set_fs (fun f => <[staging_path ROOT src := o]> f) st) ->
  fs st !! src = Some text ->
  src <> staging_path ROOT src ->
  exists st',
    main ROOT now [src] st = (Exit 2, st')
    /\ refused ROOT src text e st st'
    /\ fs st' !! staging_path ROOT src = Some o.
Proof.
  intros Hrun Hsrc Hne.
  eexists. split.
  - apply (Quarantine.main_quarantines ROOT now src st _ e text Hrun).
    cbn [set_fs fs]. rewrite lookup_insert_ne by congruence. exact Hsrc.
  - cbn [set_fs fs log]. split; [split; [|split; [|split]]|].
    + cbn [fs]. rewrite lookup_insert_ne by apply Quarantine.failed_ne_src.
      apply lookup_delete_eq.
    + cbn [fs]. apply lookup_insert_eq.
    + cbn [fs]. intros q Hq Hqs.
      rewrite lookup_insert_ne
        by (intros E; rewrite <- E, Quarantine.failed_not_dataset in Hq;
            discriminate).
      rewrite lookup_delete_ne by congruence.
      rewrite lookup_insert_ne
        by (intros E; rewrite <- E, Quarantine.staging_not_dataset in Hq;
            discriminate).
      reflexivity.
    + reflexivity.
    + cbn [fs].
      rewrite lookup_insert_ne
        by (intros E; symmetry in E; exact (staged_ne_failed _ _ E)).
      rewrite lookup_delete_ne by congruence. apply lookup_insert_eq.
Qed.

Lemma quarantine_unstaged (ROOT : path) (now : string) (src : path)
  (text : string) (e : exn) (st : state) :
  convert_and_move ROOT now src st = (Raise e, st) ->
  fs st !! src = Some text ->
  src <> staging_path ROOT src ->
  exists st',
    main ROOT now [src] st = (Exit 2, st')
    /\ refused ROOT src text e st st'
    /\ fs st' !! staging_path ROOT src = fs st !! staging_path ROOT src.
Proof.
  intros Hrun Hsrc Hne.
  eexists. split.
  - exact (Quarantine.main_quarantines ROOT now src st _ e text Hrun Hsrc).
  - split; [split; [|split; [|split]]|].
    + cbn [fs]. rewrite lookup_insert_ne by apply Quarantine.failed_ne_src.
      apply lookup_delete_eq.
    + cbn [fs]. apply lookup_insert_eq.
    + cbn [fs]. intros q Hq Hqs.
      rewrite lookup_insert_ne
        by (intros E; rewrite <- E, Quarantine.failed_not_dataset in Hq;
            discriminate).
      rewrite lookup_delete_ne by congruence. reflexivity.
    + reflexivity.
    + cbn [fs].
      rewrite lookup_insert_ne
        by (intros E; symmetry in E; exact (staged_ne_failed _ _ E)).
      rewrite lookup_delete_ne by congruence. reflexivity.
Qed.

(** X6: a submission whose name does not end in [.jsonl] and whose text
    is not JSON is refused with exit status 2: it is moved to the errors
    area under its name followed by [.failed], no file of the dataset
    store changes, a [ValueError] is logged, and nothing is written to
    the staging area. *)
Theorem invalid_json_is_refused (ROOT : path) (now : string) (src : path)
  (text : string) (st : state) :
  String.eqb (lower (Path.suffix src)) ".jsonl" = false ->
  fs st !! src = Some text ->
  loads text = None ->
  exists st',
    main ROOT now [src] st = (Exit 2, st')
    /\ (exists msg, refused ROOT src text (ValueError msg) st st')
    /\ fs st' !! staging_path ROOT src = fs st !! staging_path ROOT src.
Proof.
  intros Hsuf Hsrc Hload.
  destruct (quarantine_unstaged ROOT now src text (ValueError "Invalid JSON")
              st) as (st' & Hrun & Href & Hst);
    [|exact Hsrc|exact (src_ne_staged ROOT src Hsuf)|].
  - unfold convert_and_move. unfold bind at 1. unfold normalize_to_jsonl.
    rewrite Hsuf. unfold bind at 1, read_text at 1. rewrite Hsrc, Hload.
    reflexivity.
  - exists st'. split; [exact Hrun|]. split; [eauto|exact Hst].
Qed.

Lemma invalid_json_is_refused_witness :
  exists st',
    main root "2025-01-01T00:00:00+00:00" [inbox_json]
      (st_with inbox_json "{not json") = (Exit 2, st')
    /\ fs st' !! staging_path root inbox_json = None.
Proof.
  destruct (invalid_json_is_refused root "2025-01-01T00:00:00+00:00"
              inbox_json "{not json" (st_with inbox_json "{not json"))
    as (st' & Hrun & _ & Hst); try (vm_compute; reflexivity).
  exists st'. split; [exact Hrun|]. rewrite Hst. vm_compute. reflexivity.
Defined.

(** ** An array with an item that is not an object *)

Lemma convert_items_stops (pre : list json) (bad : json) (post : list json) :
  forallb is_dict pre = true ->
  forallb (fun v => encodable (dumps v)) pre = true ->
  is_dict bad = false ->
  forall out count,
    convert_items (pre ++ bad :: post) out count
    = (out +:+ jsonl_text pre, count + Z.of_nat (length pre),
       Some (ValueError "Array contains non-object item")).
Proof.
  induction pre as [|v pre IH]; intros Hd He Hb out count.
  - cbn [app convert_items jsonl_text fold_right length]. rewrite Hb.
    rewrite app_empty_r, Z.add_0_r. reflexivity.
  - cbn [forallb] in Hd, He.
    apply andb_true_iff in Hd as [Hd Hds].
    apply andb_true_iff in He as [He Hes].
    cbn [app convert_items]. rewrite Hd, He, (IH Hds Hes Hb).
    rewrite Intake.jsonl_text_cons, !app_assoc_str.
    f_equal. f_equal. cbn [length]. lia.
Qed.

(** X7: an array one item of which is not an object is refused as a
    whole with exit status 2, whatever the other items are: the
    submission goes to the errors area, no file of the dataset store
    changes, and the lines of the objects that precede the offending item
    stay behind in the staging file. *)
Theorem array_with_non_object_is_refused (ROOT : path) (now : string)
  (src : path) (text : string) (pre : list json) (bad : json)
  (post : list json) (st : state) :
  String.eqb (lower (Path.suffix src)) ".jsonl" = false ->
  fs st !! src = Some text ->
  loads text = Some (JList (pre ++ bad :: post)) ->
  forallb is_dict pre = true ->
  forallb (fun v => encodable (dumps v)) pre = true ->
  is_dict bad = false ->
  exists st',
    main ROOT now [src] st = (Exit 2, st')
    /\ refused ROOT src text (ValueError "Array contains non-object item")
         st st'
    /\ fs st' !! staging_path ROOT src = Some (jsonl_text pre).
Proof.
  intros Hsuf Hsrc Hload Hd He Hb.
  apply quarantine_staged; [|exact Hsrc|exact (src_ne_staged ROOT src Hsuf)].
  unfold convert_and_move. unfold bind at 1. unfold normalize_to_jsonl.
  rewrite Hsuf. unfold bind at 1, read_text at 1. rewrite Hsrc, Hload.
  rewrite (convert_items_stops pre bad post Hd He Hb EmptyString 0).
  rewrite app_empty_l. reflexivity.
Qed.

Lemma array_with_non_object_is_refused_witness :
  exists st',
    main root "2025-01-01T00:00:00+00:00" [inbox_json]
      (st_with inbox_json mixed_array_text) = (Exit 2, st')
    /\ fs st' !! staging_path root inbox_json
       = Some (jsonl_text [record_of 1]).
Proof.
  destruct (array_with_non_object_is_refused root
              "2025-01-01T00:00:00+00:00" inbox_json mixed_array_text
              [record_of 1] (JInt 5) [record_of 2]
              (st_with inbox_json mixed_array_text))
    as (st' & Hrun & _ & Hst); try (vm_compute; reflexivity).
  exists st'. split; [exact Hrun|exact Hst].
Defined.

(** X8: a submission whose name does not end in [.jsonl] and whose text
    is a JSON value other than an object or an array (a number, a
    string, [true], [null]) is refused with exit status 2, and an empty
    staging file stays behind. *)
Theorem scalar_is_refused (ROOT : path) (now : string) (src : path)
  (text : string) (v : json) (st : state) :
  String.eqb (lower (Path.suffix src)) ".jsonl" = false ->
  fs st !! src = Some text ->
  loads text = Some v ->
  is_dict v = false -> is_list v = false ->
  exists st',
    main ROOT now [src] st = (Exit 2, st')
    /\ refused ROOT src text
         (ValueError "Top-level JSON must be object or array") st st'
    /\ fs st' !! staging_path ROOT src = Some EmptyString.
Proof.
  intros Hsuf Hsrc Hload Hd Hl.
  apply quarantine_staged; [|exact Hsrc|exact (src_ne_staged ROOT src Hsuf)].
  unfold convert_and_move. unfold bind at 1. unfold normalize_to_jsonl.
  rewrite Hsuf. unfold bind at 1, read_text at 1. rewrite Hsrc, Hload.
  destruct v; try discriminate; reflexivity.
Qed.

Lemma scalar_is_refused_witness :
  exists st',
    main root "2025-01-01T00:00:00+00:00" [inbox_json]
      (st_with inbox_json "42") = (Exit 2, st')
    /\ fs st' !! staging_path root inbox_json = Some EmptyString.
Proof.
  destruct (scalar_is_refused root "2025-01-01T00:00:00+00:00" inbox_json
              "42" (JInt 42) (st_with inbox_json "42"))
    as (st' & Hrun & _ & Hst); try (vm_compute; reflexivity).
  exists st'. split; [exact Hrun|exact Hst].
Defined.

(** X9: an empty array is refused with exit status 2: its conversion is
    an empty staging file, in which there is no first record to read the
    category from. *)
Theorem empty_array_is_refused (ROOT : path) (now : string) (src : path)
  (text : string) (st : state) :
  String.eqb (lower (Path.suffix src)) ".jsonl" = false ->
  fs st !! src = Some text ->
  loads text = Some (JList []) ->
  exists st',
    main ROOT now [src] st = (Exit 2, st')
    /\ refused ROOT src text (ValueError "Empty JSONL file") st st'
    /\ fs st' !! staging_path ROOT src = Some EmptyString.
Proof.
  intros Hsuf Hsrc Hload.
  apply quarantine_staged; [|exact Hsrc|exact (src_ne_staged ROOT src Hsuf)].
  unfold convert_and_move. unfold bind at 1. unfold normalize_to_jsonl.
  rewrite Hsuf. unfold bind at 1, read_text at 1. rewrite Hsrc, Hload.
  cbn [convert_items]. unfold bind at 1, write_text at 1, modify at 1.
  unfold ret at 1. unfold bind at 1.
  unfold first_record_from_jsonl, bind, read_text.
  cbn [set_fs fs]. rewrite lookup_insert_eq. reflexivity.
Qed.

Lemma empty_array_is_refused_witness :
  exists st',
    main root "2025-01-01T00:00:00+00:00" [inbox_json]
      (st_with inbox_json "[ ]") = (Exit 2, st')
    /\ fs st' !! staging_path root inbox_json = Some EmptyString.
Proof.
  destruct (empty_array_is_refused root "2025-01-01T00:00:00+00:00"
              inbox_json "[ ]" (st_with inbox_json "[ ]"))
    as (st' & Hrun & _ & Hst); try (vm_compute; reflexivity).
  exists st'. split; [exact Hrun|exact Hst].
Defined.



(** X11: when the file named on the command line does not exist, the
    process exits with status 2, no file is created, moved or changed,
    and the error is logged. *)
Theorem missing_source_changes_nothing (ROOT : path) (now : string)
  (src : path) (st : state) :
  fs st !! src = None ->
  main ROOT now [src] st
  = (Exit 2,
     {| fs := fs st;
        log := log st ++ [LogError (Path.name src) (FileNotFoundError src)] |}).
Proof.
  intros Hsrc. rewrite Quarantine.main_try. unfold try_except at 1.
  assert (H : convert_and_move ROOT now src st
              = (Raise (FileNotFoundError src), st)).
  { unfold convert_and_move. unfold bind at 1. unfold normalize_to_jsonl.
    destruct (String.eqb (lower (Path.suffix src)) ".jsonl");
      unfold bind at 1, read_text at 1; rewrite Hsrc; reflexivity. }
  rewrite H. unfold quarantine, bind, try_except, move, log_line, modify,
    sys_exit, ret.
  rewrite Hsrc. reflexivity.
Qed.

Lemma missing_source_changes_nothing_witness :
  main root "2025-01-01T00:00:00+00:00" [inbox_json] (st_with inbox_jsonl "{}")
  = (Exit 2,
     {| fs := fs (st_with inbox_jsonl "{}");
        log := [LogError "note.json" (FileNotFoundError inbox_json)] |}).
Proof.
  apply (missing_source_changes_nothing root "2025-01-01T00:00:00+00:00"
           inbox_json (st_with inbox_jsonl "{}")).
  vm_compute. reflexivity.
Defined.

End Refusals.

Module StoreFacts.
Import Ingest IngestSpec IngestFacts IngestRun StoreSpec.

(** ** The store only grows *)

Lemma extends_refl (c : collection) : extends_collection c c.
Proof.
  repeat split. exists []. symmetry. apply app_nil_r.
Qed.

Lemma grows_refl (s : gmap string collection) : grows s s.
Proof.
  intros n. destruct (s !! n) as [c|] eqn:E; [|reflexivity].
  exists c. split; [reflexivity|apply extends_refl].
Qed.

Lemma grows_trans (a b c : gmap string collection) :
  grows a b -> grows b c -> grows a c.
Proof.
  intros Hab Hbc n. specialize (Hab n). specialize (Hbc n).
  destruct (a !! n) as [x|].
  - destruct Hab as (y & Hy & D1 & F1 & I1 & bs1 & B1). rewrite Hy in Hbc.
    destruct Hbc as (z & Hz & D2 & F2 & I2 & bs2 & B2).
    exists z. split; [exact Hz|].
    repeat split; try congruence.
    exists (bs1 ++ bs2). rewrite B2, B1, app_assoc. reflexivity.
  - rewrite Hab in Hbc. exact Hbc.
Qed.

Lemma insert_grows (ev : env) (name : string) (rows : list json) (st : state) :
  grows (store st) (store (snd (insert ev name rows st))).
Proof.
  unfold insert. destruct (store st !! name) as [c|] eqn:Hc;
    [|apply grows_refl].
  destruct (insert_ok ev (length (coll_batches c)) rows); [|apply grows_refl].
  cbn [snd set_store store]. intros n.
  destruct (decide (name = n)) as [<-|Hne].
  - rewrite Hc, lookup_insert_eq. eexists. split; [reflexivity|].
    repeat split. exists [rows]. reflexivity.
  - rewrite lookup_insert_ne by exact Hne.
    destruct (store st !! n) as [x|]; [|reflexivity].
    exists x. split; [reflexivity|apply extends_refl].
Qed.

Lemma flush_batch_grows (ev : env) (name : string) (texts : list string)
  (records : list json) (st : state) :
  grows (store st) (store (snd (flush_batch ev name texts records st))).
Proof.
  unfold flush_batch. destruct texts as [|t texts]; [apply grows_refl|].
  unfold bind, lift, ret.
  pose proof (model_encode_state ev (t :: texts) st) as (_ & Hs & _).
  destruct (model_encode ev (t :: texts) st) as [[vs| |] st1];
    cbn [snd] in *; try (rewrite Hs; apply grows_refl).
  destruct (build_rows (combine records vs)) as [rows| |];
    cbn [snd]; try (rewrite Hs; apply grows_refl).
  pose proof (insert_grows ev name rows st1) as Hi.
  destruct (insert ev name rows st1) as [[[]| |] st2]; cbn [snd] in *;
    rewrite <- Hs; exact Hi.
Qed.

Lemma ingest_loop_grows (ev : env) (name : string) (b : Z) (recs : list json) :
  forall texts records total st,
    grows (store st)
      (store (snd (ingest_loop ev name b recs texts records total st))).
Proof.
  induction recs as [|r recs IH]; intros texts records total st;
    [apply grows_refl|].
  cbn [ingest_loop]. destruct (b <=? _).
  - unfold bind.
    pose proof (flush_batch_grows ev name (texts ++ [build_embedding_text r])
                  (records ++ [r]) st) as Hf.
    destruct (flush_batch _ _ _ _ st) as [[z| |] st1]; cbn [snd] in *;
      try exact Hf.
    eapply grows_trans; [exact Hf|apply IH].
  - apply IH.
Qed.

Lemma locked_phase_grows (ev : env) (config : json) (name : string)
  (p root lock : path) (st : state) :
  grows (store st)
    (store (snd (locked_phase ev config name p root lock st))).
Proof.
  unfold locked_phase.
  unfold bind at 1. unfold write_text at 1. unfold modify at 1.
  set (st0 := set_fs (fun f => <[lock := "lock"]> f) st).
  assert (Hst0 : store st0 = store st) by reflexivity.
  rewrite <- Hst0. clearbody st0. clear Hst0.
  unfold bind at 1, lift at 1.
  destruct (py_get config "model_name" _) as [mn| |]; try apply grows_refl.
  unfold bind at 1.
  destruct (load_model_ok ev mn); [unfold ret at 1|apply grows_refl].
  unfold bind at 1, lift at 1.
  destruct (py_get config "batch_size" _) as [bv| |]; try apply grows_refl.
  unfold bind at 1, lift at 1.
  destruct (py_int ev bv) as [b| |]; try apply grows_refl.
  unfold bind at 1, read_text at 1.
  destruct (fs st0 !! p) as [text|]; try apply grows_refl.
  unfold bind at 1.
  pose proof (ingest_loop_grows ev name b (stream_records text) [] [] 0 st0)
    as Hl.
  destruct (ingest_loop ev name b (stream_records text) [] [] 0 st0)
    as [[[[texts records] total]| |] st1]; cbn [snd] in Hl; try exact Hl.
  unfold bind at 1.
  pose proof (flush_batch_grows ev name texts records st1) as Hf.
  destruct (flush_batch ev name texts records st1) as [[z| |] st2];
    cbn [snd] in Hf;
    try (eapply grows_trans; [exact Hl|exact Hf]).
  unfold bind at 1, lift at 1.
  destruct (checkpoint_payload ev config p name _) as [payload| |];
    try (eapply grows_trans; [exact Hl|exact Hf]).
  unfold bind at 1, write_checkpoint_atomic, bind, write_text, replace,
    modify, ret.
  cbn [set_fs fs]. rewrite lookup_insert_eq.
  cbn [snd set_fs store].
  eapply grows_trans; [exact Hl|exact Hf].
Qed.

Lemma gated_grows (ev : env) (p : path) (pre : json * string * path)
  (st : state) :
  grows (store st) (store (snd (gated ev p pre st))).
Proof.
  destruct pre as [[config name] root]. unfold gated, bind, get, ret.
  destruct (Path.exists_in (fs st) (done_marker root p)); [apply grows_refl|].
  destruct (Path.exists_in (fs st) (lock_marker root p)); [apply grows_refl|].
  unfold try_finally.
  pose proof (locked_phase_grows ev config name p root (lock_marker root p) st)
    as H.
  destruct (locked_phase ev config name p root (lock_marker root p) st)
    as [r st1].
  cbn [snd] in *.
  destruct (IngestOk.release_lock_state (lock_marker root p) st1) as [_ Hs].
  rewrite Hs. exact H.
Qed.

Lemma grows_keeps (s s' : gmap string collection) :
  grows s s' -> keeps_rows s s'.
Proof.
  intros H n c Hc. specialize (H n). rewrite Hc in H.
  destruct H as (c' & Hc' & D & F & I & B).
  exists c'. repeat split; try assumption. intros i Hi. congruence.
Qed.

Lemma keeps_rows_refl (s : gmap string collection) : keeps_rows s s.
Proof. apply grows_keeps, grows_refl. Qed.

Lemma keeps_rows_trans (a b c : gmap string collection) :
  keeps_rows a b -> keeps_rows b c -> keeps_rows a c.
Proof.
  intros Hab Hbc n x Hx.
  destruct (Hab n x Hx) as (y & Hy & D1 & F1 & I1 & bs1 & B1).
  destruct (Hbc n y Hy) as (z & Hz & D2 & F2 & I2 & bs2 & B2).
  exists z. split; [exact Hz|].
  split; [congruence|]. split; [congruence|]. split; [auto|].
  exists (bs1 ++ bs2). rewrite B2, B1, app_assoc. reflexivity.
Qed.

Lemma create_index_keeps (ev : env) (name : string) (params : json)
  (st : state) :
  keeps_rows (store st) (store (snd (create_index ev name params st))).
Proof.
  unfold create_index, modify, set_store. cbn [snd store].
  destruct (store st !! name) as [c|] eqn:Hc; [|apply keeps_rows_refl].
  destruct (create_index_ok ev name params); [|apply keeps_rows_refl].
  destruct (coll_index c) eqn:Hi; [apply keeps_rows_refl|].
  intros n x Hx. destruct (decide (name = n)) as [<-|Hne].
  - rewrite lookup_insert_eq. eexists. split; [reflexivity|].
    assert (x = c) by congruence. subst x. cbn.
    repeat split; [congruence|]. exists []. symmetry. apply app_nil_r.
  - rewrite lookup_insert_ne by exact Hne. exists x.
    repeat split; auto. exists []. symmetry. apply app_nil_r.
Qed.

Lemma ensure_collection_keeps (ev : env) (config : json) (st : state) :
  keeps_rows (store st) (store (snd (ensure_collection ev config st))).
Proof.
  unfold ensure_collection, bind, lift, get, ret, raise.
  destruct (py_get config "collection" (JDict [])) as [c| |];
    try apply keeps_rows_refl.
  destruct (py_get c "name" (JStr "attacks_v2")) as [nm| |];
    try apply keeps_rows_refl.
  destruct (py_get c "dim" (JInt 384)) as [dim| |];
    try apply keeps_rows_refl.
  destruct nm as [| | | |name| |]; try apply keeps_rows_refl.
  destruct (store st !! name) as [c0|] eqn:Hs.
  - destruct (py_get c "index_type" _) as [it| |]; try apply keeps_rows_refl.
    destruct (py_get c "metric_type" _) as [mt| |]; try apply keeps_rows_refl.
    destruct (py_get c "index_params" _) as [ip| |]; try apply keeps_rows_refl.
    match goal with |- context [create_index ev name ?q ?s] =>
      pose proof (create_index_keeps ev name q s) as Hk;
      destruct (create_index ev name q s) as [[[]| |] st2] end;
      exact Hk.
  - destruct (create_collection_ok ev name dim); [|apply keeps_rows_refl].
    unfold modify.
    assert (Hnew : keeps_rows (store st)
              (store (set_store (fun s =>
                 <[name := {| coll_dim := dim;
                              coll_fields := COLLECTION_FIELDS;
                              coll_index := None; coll_batches := [] |}]> s)
                 st))).
    { intros n x Hx. cbn [set_store store].
      rewrite lookup_insert_ne by congruence.
      exists x. repeat split; auto. exists []. symmetry. apply app_nil_r. }
    destruct (py_get c "index_type" _) as [it| |]; try exact Hnew.
    destruct (py_get c "metric_type" _) as [mt| |]; try exact Hnew.
    destruct (py_get c "index_params" _) as [ip| |]; try exact Hnew.
    match goal with |- context [create_index ev name ?q ?s] =>
      pose proof (create_index_keeps ev name q s) as Hk;
      destruct (create_index ev name q s) as [[[]| |] st2] end;
      (eapply keeps_rows_trans; [exact Hnew|exact Hk]).
Qed.

Lemma preamble_keeps (ev : env) (p : path) (st : state) :
  keeps_rows (store st) (store (snd (preamble ev p st))).
Proof.
  unfold preamble, bind, get, lift, ret, sys_exit, raise.
  destruct (negb (Path.exists_in (fs st) p)); [apply keeps_rows_refl|].
  unfold load_config. destruct (config_file ev) as [raw|];
    [|apply keeps_rows_refl].
  unfold ret. destruct (connect_ok ev); [|apply keeps_rows_refl].
  set (cfg := if truthy raw then raw else JDict []).
  pose proof (ensure_collection_keeps ev cfg st) as Hk.
  destruct (ensure_collection ev cfg st) as [[nm| |] st2]; try exact Hk.
  destruct (py_get cfg "paths" (JDict [])) as [paths| |]; try exact Hk.
  destruct (py_get paths "checkpoints_root" (JStr "./data/checkpoints"))
    as [rt| |]; try exact Hk.
  destruct (to_path ev rt) as [cr| |]; exact Hk.
Qed.



(** ** A second run *)

(** Ensuring the collection again, in a state where it has the index it
    had after the first time, changes nothing. *)
Lemma ensure_collection_again (ev : env) (config : json) (name : string)
  (st st1 : state) :
  ensure_collection ev config st = (Ok name, st1) ->
  exists c1, store st1 !! name = Some c1
    /\ forall st2 c2,
         store st2 !! name = Some c2 -> coll_index c2 = coll_index c1 ->
         ensure_collection ev config st2 = (Ok name, st2).
Proof.
  unfold ensure_collection, bind, lift, get, ret, raise.
  destruct (py_get config "collection" (JDict [])) as [c| |];
    try discriminate.
  destruct (py_get c "name" (JStr "attacks_v2")) as [nm| |]; try discriminate.
  destruct (py_get c "dim" (JInt 384)) as [dim| |]; try discriminate.
  destruct nm as [| | | |nm| |]; try discriminate.
  destruct (py_get c "index_type" _) as [it| |].
  2,3: destruct (store st !! nm); [discriminate|];
       destruct (create_collection_ok ev nm dim); discriminate.
  destruct (py_get c "metric_type" _) as [mt| |].
  2,3: destruct (store st !! nm); [discriminate|];
       destruct (create_collection_ok ev nm dim); discriminate.
  destruct (py_get c "index_params" _) as [ip| |].
  2,3: destruct (store st !! nm); [discriminate|];
       destruct (create_collection_ok ev nm dim); discriminate.
  set (params := JDict [("index_type", it); ("metric_type", mt);
                        ("params", ip)]).
  assert (Again : forall c1 : collection,
            (create_index_ok ev nm params = true -> coll_index c1 <> None) ->
            forall st2 c2,
              store st2 !! nm = Some c2 -> coll_index c2 = coll_index c1 ->
              (let '(r, s2) := create_index ev nm params st2 in
               match r with
               | Ok _ => (Ok nm, s2)
               | Raise e => (Raise e, s2)
               | Exit x => (Exit x, s2)
               end) = (Ok nm, st2)).
  { intros c1 Hset st2 c2 H2 Hi. unfold create_index, modify, set_store.
    rewrite H2. destruct st2 as [f2 s2 e2]. cbn [fs store encoded] in *.
    destruct (create_index_ok ev nm params); [|reflexivity].
    destruct (coll_index c2) eqn:E2; [reflexivity|].
    exfalso. apply (Hset eq_refl). congruence. }
  assert (First : forall s0 : state, forall c0,
            store s0 !! nm = Some c0 ->
            exists c1,
              store (snd (create_index ev nm params s0)) !! nm = Some c1
              /\ (create_index_ok ev nm params = true ->
                  coll_index c1 <> None)).
  { intros s0 c0 H0. unfold create_index, modify, set_store.
    cbn [snd store]. rewrite H0.
    destruct (create_index_ok ev nm params).
    - destruct (coll_index c0) eqn:E0.
      + exists c0. split; [exact H0|]. intros _. congruence.
      + eexists. split; [apply lookup_insert_eq|]. intros _. discriminate.
    - exists c0. split; [exact H0|]. discriminate. }
  destruct (store st !! nm) as [c0|] eqn:Hs.
  - destruct (First st c0 Hs) as (c1 & H1 & Hset).
    destruct (create_index ev nm params st) as [[[]| |] s1] eqn:Ec;
      try discriminate.
    intros [= <- <-]. cbn [snd] in H1. exists c1. split; [exact H1|].
    intros st2 c2 H2 Hi. rewrite H2. apply (Again c1 Hset st2 c2 H2 Hi).
  - destruct (create_collection_ok ev nm dim); [|discriminate].
    unfold modify.
    match goal with |- context [create_index ev nm params ?s] =>
      set (s0 := s) end.
    destruct (First s0 _ (lookup_insert_eq _ _ _)) as (c1 & H1 & Hset).
    destruct (create_index ev nm params s0) as [[[]| |] s1] eqn:Ec;
      try discriminate.
    intros [= <- <-]. cbn [snd] in H1. exists c1. split; [exact H1|].
    intros st2 c2 H2 Hi. rewrite H2. apply (Again c1 Hset st2 c2 H2 Hi).
Qed.

Lemma preamble_parts (ev : env) (p : path) (st st1 : state)
  (config : json) (name : string) (root : path) :
  preamble ev p st = (Ok (config, name, root), st1) ->
  ensure_collection ev config st = (Ok name, st1)
  /\ forall st2,
       Path.exists_in (fs st2) p = true ->
       ensure_collection ev config st2 = (Ok name, st2) ->
       preamble ev p st2 = (Ok (config, name, root), st2).
Proof.
  unfold preamble, bind, get, lift, ret, sys_exit, raise.
  destruct (Path.exists_in (fs st) p) eqn:Hex; cbn [negb]; [|discriminate].
  unfold load_config. destruct (config_file ev) as [raw|]; [|discriminate].
  unfold ret. destruct (connect_ok ev); [|discriminate].
  set (cfg := if truthy raw then raw else JDict []).
  destruct (ensure_collection ev cfg st) as [[nm| |] s1] eqn:He;
    try discriminate.
  destruct (py_get cfg "paths" (JDict [])) as [paths| |] eqn:Hp;
    try discriminate.
  destruct (py_get paths "checkpoints_root" (JStr "./data/checkpoints"))
    as [rt| |] eqn:Hr; try discriminate.
  destruct (to_path ev rt) as [cr| |] eqn:Ht; try discriminate.
  intros [= <- <- <- <-]. split; [exact He|].
  intros st2 Hex2 He2. rewrite Hex2. cbn [negb]. rewrite He2.
  reflexivity.
Qed.

Lemma not_its_own_tmp (root p : path) : p <> tmp_marker root p.
Proof.
  intros E. apply (f_equal Path.name) in E.
  unfold tmp_marker in E. rewrite Quarantine.name_child in E.
  unfold Path.stem in E.
  assert (S : Path.suffix_of (Path.name p) = ".done.tmp")
    by (apply PathFacts.name_of_stem; [reflexivity|exact E]).
  destruct (PathFacts.suffix_shape (Path.name p)) as [N|(r & Hr & Hd)].
  - rewrite N in S. discriminate.
  - rewrite S in Hr. injection Hr as <-. discriminate.
Qed.

(** X13: a run that returns normally has done all there is to do: run
    again at once on the same file, the Ingestor returns normally and
    leaves the files, the vector store and the embedding model's calls
    exactly as they were. *)
Theorem rerun_changes_nothing (ev : env) (p : path) (st st' : state) :
  main ev p st = (Ok tt, st') -> main ev p st' = (Ok tt, st').
Proof.
  rewrite !main_split. unfold bind at 1.
  destruct (preamble ev p st) as [[[[config name] root]| |] st1] eqn:Hpre;
    try discriminate.
  intros Hg.
  destruct (preamble_ok _ _ _ _ _ _ _ Hpre) as ((Hfs & _) & [t Ht] & _).
  destruct (preamble_parts _ _ _ _ _ _ _ Hpre) as [Hens Hagain].
  destruct (ensure_collection_again _ _ _ _ _ Hens) as (c1 & Hc1 & Hsettled).
  pose proof (gated_grows ev p (config, name, root) st1) as Hgrow.
  rewrite Hg in Hgrow. cbn [snd] in Hgrow.
  specialize (Hgrow name). rewrite Hc1 in Hgrow.
  destruct Hgrow as (c2 & Hc2 & _ & _ & Hidx & _).
  destruct (Path.exists_in (fs st1) (done_marker root p)
            || Path.exists_in (fs st1) (lock_marker root p)) eqn:Hm.
  - rewrite (IngestGate.gated_closed ev p config name root st1 Hm) in Hg.
    injection Hg as <-.
    rewrite (bind_ok _ _ _ _ _ (Hagain st1
               ltac:(unfold Path.exists_in; rewrite Hfs, Ht; reflexivity)
               (Hsettled st1 c1 Hc1 eq_refl))).
    exact (IngestGate.gated_closed ev p config name root st1 Hm).
  - apply orb_false_iff in Hm as [Hd Hl].
    assert (Hd' : fs st1 !! done_marker root p = None)
      by (unfold Path.exists_in in Hd; destruct (fs st1 !! _);
          [discriminate|reflexivity]).
    assert (Hl' : fs st1 !! lock_marker root p = None)
      by (unfold Path.exists_in in Hl; destruct (fs st1 !! _);
          [discriminate|reflexivity]).
    destruct (IngestGate.gated_open ev p config name root st1 (Ok tt) st'
                Hd' Hl' Hg) as [[N _]|(_ & text & payload & _ & _ & Hfs')].
    { exfalso. exact (N tt eq_refl). }
    assert (Hp' : Path.exists_in (fs st') p = true).
    { unfold Path.exists_in. rewrite Hfs'.
      destruct (decide (done_marker root p = p)) as [E|E].
      - rewrite E, lookup_insert_eq. reflexivity.
      - rewrite lookup_insert_ne by exact E.
        rewrite lookup_delete_ne
          by (intros E2; exact (not_its_own_tmp root p (eq_sym E2))).
        rewrite Hfs, Ht. reflexivity. }
    rewrite (bind_ok _ _ _ _ _ (Hagain st' Hp' (Hsettled st' c2 Hc2 Hidx))).
    apply IngestGate.gated_closed.
    unfold Path.exists_in at 1. rewrite Hfs', lookup_insert_eq. reflexivity.
Qed.

Lemma rerun_changes_nothing_witness :
  main Sample.ev_ok Sample.dataset_file
    (snd (main Sample.ev_ok Sample.dataset_file Sample.st_fresh))
  = (Ok tt, snd (main Sample.ev_ok Sample.dataset_file Sample.st_fresh)).
Proof.
  apply (rerun_changes_nothing Sample.ev_ok Sample.dataset_file
           Sample.st_fresh).
  vm_compute. reflexivity.
Defined.

(** X14: the only file a run of the Ingestor ever writes is the
    checkpoint [<stem>.done] of the file it is given: every other file
    is as it was when the run ends, however it ends, a temporary
    [<stem>.done.tmp] apart, which the run never leaves behind where
    there was none.  In particular no lock is left behind, and a lock
    that was there is not removed. *)
Theorem run_writes_only_the_checkpoint (ev : env) (p : path) (st : state) :
  (forall m, (forall root, m <> done_marker root p) ->
             (forall root, m <> tmp_marker root p) ->
             fs (snd (main ev p st)) !! m = fs st !! m)
  /\ (forall root, fs (snd (main ev p st)) !! lock_marker root p
                   = fs st !! lock_marker root p)
  /\ (forall root, fs st !! tmp_marker root p = None ->
                   fs (snd (main ev p st)) !! tmp_marker root p = None).
Proof.
  assert (A : forall m, (forall root, m <> done_marker root p) ->
                        (forall root, m <> tmp_marker root p) ->
                        fs (snd (main ev p st)) !! m = fs st !! m).
  { intros m Hd Ht.
    destruct (SharedMarkers.main_fs_cases ev p st)
      as [E|(root & payload & E)]; rewrite E; [reflexivity|].
    rewrite lookup_insert_ne by (intros N; exact (Hd root (eq_sym N))).
    rewrite lookup_delete_ne by (intros N; exact (Ht root (eq_sym N))).
    reflexivity. }
  split; [exact A|]. split.
  - intros root. apply A.
    + intros r E. symmetry in E. apply SharedMarkers.child_eq_name in E.
      apply (f_equal last_char) in E.
      rewrite SharedMarkers.last_char_done, SharedMarkers.last_char_lock in E.
      discriminate.
    + intros r E. exact (SharedMarkers.lock_ne_tmp root r p p E).
  - intros root Hn.
    destruct (SharedMarkers.main_fs_cases ev p st)
      as [E|(r & payload & E)]; rewrite E; [exact Hn|].
    rewrite lookup_insert_ne by apply SharedMarkers.done_ne_tmp.
    destruct (decide (tmp_marker r p = tmp_marker root p)) as [D|D].
    + rewrite D. apply lookup_delete_eq.
    + rewrite lookup_delete_ne by exact D. exact Hn.
Qed.

End StoreFacts.

Module Rows.
Import Ingest IngestSpec IngestFacts IngestRun RowSpec.

(** X15: [extract_scalar_fields] returns the eight scalar columns, with
    [tags], [os] and [system] as strings, exactly for the records that are
    objects whose [important], when present, is an object whose
    [targets], when present, is an object; on every other record (a
    record that is not an object, a null [important], ...) it raises
    [AttributeError]. *)
Theorem extract_scalar_fields_cases (r : json) :
  (row_shape r = true ->
   exists s, extract_scalar_fields r = Ok s
             /\ map fst s = SCALAR_COLUMNS
             /\ is_str (dict_get_default "tags" JNull s) = true
             /\ is_str (dict_get_default "os" JNull s) = true
             /\ is_str (dict_get_default "system" JNull s) = true)
  /\ (row_shape r = false ->
      extract_scalar_fields r = Raise (AttributeError "get")).
Proof.
  unfold row_shape, extract_scalar_fields. split.
  - destruct r as [| | | | | |d]; try discriminate.
    cbn [py_get]. unfold dict_get_default.
    destruct (dict_get "important" d) as [[| | | | | |imp]|];
      try discriminate; cbn [py_get].
    + unfold dict_get_default.
      destruct (dict_get "targets" imp) as [[| | | | | |t]|];
        try discriminate; intros _; cbn [py_get];
        (eexists; split; [reflexivity|]; repeat split).
    + intros _. eexists. split; [reflexivity|]. repeat split.
  - destruct r as [| | | | | |d]; try reflexivity.
    cbn [py_get]. unfold dict_get_default.
    destruct (dict_get "important" d) as [[| | | | | |imp]|];
      try reflexivity; try discriminate; cbn [py_get].
    unfold dict_get_default.
    destruct (dict_get "targets" imp) as [[| | | | | |t]|];
      try discriminate; reflexivity.
Qed.

Lemma extract_scalar_fields_cases_witness :
  (exists s, extract_scalar_fields (JDict [("id", JStr "7")]) = Ok s
             /\ map fst s = SCALAR_COLUMNS)
  /\ extract_scalar_fields (JDict [("important", JNull)])
     = Raise (AttributeError "get").
Proof.
  split.
  - destruct (proj1 (extract_scalar_fields_cases (JDict [("id", JStr "7")]))
                eq_refl) as (s & Hs & Hk & _).
    exists s. split; [exact Hs|exact Hk].
  - exact (proj2 (extract_scalar_fields_cases (JDict [("important", JNull)]))
             eq_refl).
Defined.

(** ** A run that returns has made a row of every record *)

Lemma build_rows_rowable (records : list json) :
  forall (vs : list vector) (rows : list json),
    build_rows (combine records vs) = Ok rows ->
    (length records <= length vs)%nat ->
    forallb is_rowable records = true.
Proof.
  induction records as [|r records IH]; intros vs rows Hb Hlen;
    [reflexivity|].
  destruct vs as [|v vs]; [cbn in Hlen; lia|].
  cbn [combine build_rows] in Hb. cbn [forallb]. unfold is_rowable at 1.
  destruct (extract_scalar_fields r) as [s| |]; try discriminate.
  destruct (build_rows (combine records vs)) as [rows'| |] eqn:E;
    try discriminate.
  cbn [andb]. apply (IH vs rows' E). cbn [length] in Hlen. lia.
Qed.

Section Faithful.

Variable ev : env.
Variable name : string.

(** The embedding model returns one vector per text. *)
Hypothesis encode_lengths :
  forall k texts vs, encode ev k texts = Some vs -> length vs = length texts.

Lemma flush_batch_rowable (texts : list string) (records : list json)
  (st st' : state) (z : Z) :
  flush_batch ev name texts records st = (Ok z, st') ->
  length records = length texts ->
  forallb is_rowable records = true.
Proof.
  intros Hf Hlen. destruct texts as [|t texts].
  - destruct records; [reflexivity|discriminate].
  - unfold flush_batch, bind, model_encode, lift in Hf.
    destruct (encode ev (length (encoded st)) (t :: texts)) as [vs|] eqn:He;
      [|discriminate].
    pose proof (encode_lengths _ _ _ He) as Hvs.
    destruct (build_rows (combine records vs)) as [rows| |] eqn:Hb;
      try discriminate.
    apply (build_rows_rowable records vs rows Hb). lia.
Qed.

Lemma ingest_loop_rowable (b : Z) (recs : list json) :
  forall texts records total st texts' records' total' st1 z st2,
    length records = length texts ->
    ingest_loop ev name b recs texts records total st
    = (Ok (texts', records', total'), st1) ->
    flush_batch ev name texts' records' st1 = (Ok z, st2) ->
    forallb is_rowable (records ++ recs) = true.
Proof.
  induction recs as [|r recs IH];
    intros texts records total st t' r' n' st1 z st2 Hlen Hloop Hflush.
  - cbn [ingest_loop] in Hloop. unfold ret in Hloop.
    injection Hloop as <- <- <- <-. rewrite app_nil_r.
    exact (flush_batch_rowable _ _ _ _ _ Hflush Hlen).
  - cbn [ingest_loop] in Hloop.
    assert (Hlen2 : length (records ++ [r])
                    = length (texts ++ [build_embedding_text r]))
      by (rewrite !length_app; cbn [length]; lia).
    replace (records ++ r :: recs) with ((records ++ [r]) ++ recs)
      by (rewrite <- app_assoc; reflexivity).
    destruct (b <=? _).
    + unfold bind in Hloop.
      destruct (flush_batch ev name (texts ++ [build_embedding_text r])
                  (records ++ [r]) st) as [[z0| |] st0] eqn:Hf;
        try discriminate.
      rewrite forallb_app.
      rewrite (flush_batch_rowable _ _ _ _ _ Hf Hlen2).
      exact (IH [] [] _ st0 t' r' n' st1 z st2 eq_refl Hloop Hflush).
    + exact (IH _ _ _ st t' r' n' st1 z st2 Hlen2 Hloop Hflush).
Qed.

Lemma locked_phase_rowable (config : json) (p root lock : path)
  (st st' : state) (text : string) :
  locked_phase ev config name p root lock st = (Ok tt, st') ->
  <[lock := "lock"]> (fs st) !! p = Some text ->
  forallb is_rowable (stream_records text) = true.
Proof.
  unfold locked_phase.
  unfold bind at 1. unfold write_text at 1. unfold modify at 1.
  set (st0 := set_fs (fun f => <[lock := "lock"]> f) st).
  assert (Hst0 : fs st0 = <[lock := "lock"]> (fs st)) by reflexivity.
  clearbody st0.
  unfold bind at 1, lift at 1.
  destruct (py_get config "model_name" _) as [mn| |]; try discriminate.
  unfold bind at 1.
  destruct (load_model_ok ev mn); [unfold ret at 1|discriminate].
  unfold bind at 1, lift at 1.
  destruct (py_get config "batch_size" _) as [bv| |]; try discriminate.
  unfold bind at 1, lift at 1.
  destruct (py_int ev bv) as [b| |]; try discriminate.
  unfold bind at 1, read_text at 1. rewrite Hst0.
  intros H Htext. rewrite Htext in H.
  unfold bind at 1 in H.
  destruct (ingest_loop ev name b (stream_records text) [] [] 0 st0)
    as [[[[texts records] total]| |] st1] eqn:Hloop; try discriminate.
  unfold bind at 1 in H.
  destruct (flush_batch ev name texts records st1) as [[z| |] st2] eqn:Hf;
    try discriminate.
  exact (ingest_loop_rowable b (stream_records text) [] [] 0 st0
           texts records total st1 z st2 eq_refl Hloop Hf).
Qed.

End Faithful.

(** X16: when the embedding model returns one vector per text, a
    dataset file one record of which [extract_scalar_fields] refuses
    cannot be ingested: the run does not return normally, and it leaves
    the files as they were, without a checkpoint. *)
Theorem unrowable_record_fails_run (ev : env) (p : path) (st st1 : state)
  (config : json) (name : string) (root : path) (text : string) :
  preamble ev p st = (Ok (config, name, root), st1) ->
  fs st !! done_marker root p = None ->
  fs st !! lock_marker root p = None ->
  fs st !! p = Some text ->
  (forall k texts vs, encode ev k texts = Some vs ->
                      length vs = length texts) ->
  forallb is_rowable (stream_records text) = false ->
  (forall st', main ev p st <> (Ok tt, st'))
  /\ fs (snd (main ev p st)) = fs st.
Proof.
  intros Hpre Hd Hl Hp Henc Hrow.
  destruct (preamble_ok _ _ _ _ _ _ _ Hpre) as ((Hfs & _) & _).
  rewrite <- Hfs in Hd, Hl, Hp.
  assert (Hno : forall st', gated ev p (config, name, root) st1
                            <> (Ok tt, st')).
  { intros st' Hg. unfold gated, bind, get in Hg.
    unfold Path.exists_in in Hg. rewrite Hd, Hl in Hg.
    unfold try_finally in Hg.
    destruct (locked_phase ev config name p root (lock_marker root p) st1)
      as [r s] eqn:Hlock.
    injection Hg as -> _.
    assert (Hne : lock_marker root p <> p) by congruence.
    pose proof (locked_phase_rowable ev name Henc config p root
                  (lock_marker root p) st1 s text Hlock) as R.
    rewrite lookup_insert_ne in R by exact Hne.
    rewrite (R Hp) in Hrow. discriminate. }
  rewrite main_split, (bind_ok _ _ _ _ _ Hpre). split.
  - exact Hno.
  - destruct (gated ev p (config, name, root) st1) as [r s] eqn:Hg.
    cbn [snd].
    destruct (IngestGate.gated_open ev p config name root st1 r s Hd Hl Hg)
      as [[_ E]|(-> & _)].
    + congruence.
    + exfalso. exact (Hno s eq_refl).
Qed.

Lemma unrowable_record_fails_run_witness :
  fst (main Sample.ev_ok Sample.dataset_file st_null_important)
  = Raise (AttributeError "get")
  /\ fs (snd (main Sample.ev_ok Sample.dataset_file st_null_important))
     = fs st_null_important.
Proof.
  destruct (unrowable_record_fails_run Sample.ev_ok Sample.dataset_file
              st_null_important
              (snd (preamble Sample.ev_ok Sample.dataset_file
                      st_null_important))
              (JDict [("batch_size", JInt 2)]) "attacks_v2"
              Sample.checkpoints null_important)
    as [_ Hfs].
  - vm_compute. reflexivity.
  - vm_compute. reflexivity.
  - vm_compute. reflexivity.
  - vm_compute. reflexivity.
  - intros k texts vs [= <-]. apply length_map.
  - vm_compute. reflexivity.
  - split; [vm_compute; reflexivity|exact Hfs].
Defined.

(** ** A batch size of one or less *)

Section Single.

Variable ev : env.
Variable name : string.
Variable b : Z.

Hypothesis b_small : b <= 1.
Hypothesis encode_total :
  forall k texts, exists vs,
    encode ev k texts = Some vs /\ length vs = length texts.
Hypothesis insert_total : forall k rows, insert_ok ev k rows = true.

Lemma ingest_loop_single (recs : list json) :
  forall total st c,
    forallb is_rowable recs = true ->
    store st !! name = Some c ->
    exists st' bs c',
      ingest_loop ev name b recs [] [] total st
      = (Ok ([], [], total + Z.of_nat (length recs)), st')
      /\ fs st' = fs st
      /\ encoded st'
         = encoded st ++ map (fun r => [build_embedding_text r]) recs
      /\ store st' !! name = Some c'
      /\ coll_batches c' = coll_batches c ++ bs
      /\ map (@length json) bs = map (fun _ => 1%nat) recs.
Proof.
  induction recs as [|r recs IH]; intros total st c Hrow Hc.
  - exists st, [], c. cbn [ingest_loop length map]. unfold ret.
    rewrite Z.add_0_r, !app_nil_r. repeat split; try reflexivity. exact Hc.
  - cbn [forallb] in Hrow. apply andb_true_iff in Hrow as [Hr Hrs].
    cbn [ingest_loop app length].
    assert (Hb : (b <=? Z.of_nat 1) = true) by (apply Z.leb_le; lia).
    rewrite Hb.
    destruct (IngestBatches.flush_batch_ok ev name encode_total insert_total
                [build_embedding_text r] [r] st c)
      as (rows & st0 & Hflush & Hrl & Hf0 & He0 & Hs0);
      [discriminate|reflexivity|cbn [forallb]; rewrite Hr; reflexivity
      |exact Hc|].
    unfold bind. rewrite Hflush.
    destruct (IH (total + 1) st0 (with_batch c rows) Hrs Hs0)
      as (st' & bs & c' & Hloop & Hf & He & Hs & Hb' & Hlens).
    exists st', (rows :: bs), c'. rewrite Hloop.
    split; [do 3 f_equal; lia|].
    split; [congruence|].
    split; [rewrite He, He0, <- app_assoc; reflexivity|].
    split; [exact Hs|].
    split; [rewrite Hb'; cbn [with_batch coll_batches];
            rewrite <- app_assoc; reflexivity|].
    cbn [map]. rewrite Hlens, Hrl. reflexivity.
Qed.

End Single.



End Rows.

Module WatcherFacts.
Import Ingest IngestSpec IngestFacts.

(** ** The last character of a path *)

Lemma substring_whole (s : string) :
  String.substring 0 (String.length s) s = s.
Proof.
  induction s as [|c s IH]; [reflexivity|].
  cbn [String.length String.substring]. rewrite IH. reflexivity.
Qed.

Lemma last_char_substring (x : string) :
  forall i, (i < String.length x)%nat ->
    last_char (String.substring i (String.length x - i) x) = last_char x.
Proof.
  induction x as [|c x IH]; intros i Hi; [cbn in Hi; lia|].
  destruct i as [|i].
  - rewrite Nat.sub_0_r, substring_whole. reflexivity.
  - cbn [String.length Nat.sub String.substring].
    cbn [String.length] in Hi. rewrite (IH i) by lia.
    rewrite last_char_cons.
    destruct x as [|a x]; [cbn in Hi; lia|].
    destruct (last_char_some a x) as [y ->]. reflexivity.
Qed.

Lemma endswith_last_char (s x : string) :
  nonempty s = true -> endswith s x = true -> last_char x = last_char s.
Proof.
  intros Hne H. unfold endswith in H.
  apply andb_true_iff in H as [Hle He].
  apply Nat.leb_le in Hle. apply String.eqb_eq in He.
  assert (Hk : (0 < String.length s)%nat)
    by (destruct s; [discriminate|cbn; lia]).
  pose proof (last_char_substring x (String.length x - String.length s)) as L.
  replace (String.length x - (String.length x - String.length s))%nat
    with (String.length s) in L by lia.
  rewrite He in L. symmetry. apply L. lia.
Qed.

Lemma last_char_join (p : list string) :
  nonempty (List.last p EmptyString) = true ->
  last_char (join "/" p) = last_char (List.last p EmptyString).
Proof.
  induction p as [|x p IH]; [discriminate|].
  destruct p as [|y p]; [intros _; reflexivity|].
  intros H. rewrite join_cons2, !last_char_app.
  change (List.last (x :: y :: p) EmptyString)
    with (List.last (y :: p) EmptyString) in H |- *.
  rewrite (IH H).
  destruct (List.last (y :: p) EmptyString) as [|a r]; [discriminate|].
  destruct (last_char_some a r) as [c ->]. reflexivity.
Qed.

Lemma last_char_to_str (p : path) :
  nonempty (Path.suffix p) = true ->
  last_char (Path.to_str p) = last_char (Path.suffix p).
Proof.
  intros Hs. unfold Path.to_str, Path.suffix in *.
  pose proof (PathFacts.stem_suffix (Path.name p)) as E.
  assert (Hn : nonempty (Path.name p) = true).
  { destruct (Path.name p); [discriminate Hs|reflexivity]. }
  rewrite last_char_app.
  unfold Path.name in Hn. rewrite (last_char_join p Hn).
  fold (Path.name p). rewrite <- E at 1. rewrite last_char_app.
  destruct (Path.suffix_of (Path.name p)) as [|a r]; [discriminate|].
  destruct (last_char_some a r) as [c ->]. reflexivity.
Qed.

Lemma wanted_not_ignored (p : path) :
  Handler.wanted p = true -> Handler.ignored p = false.
Proof.
  unfold Handler.wanted, Handler.ignored. intros H.
  apply bool_decide_eq_true in H.
  assert (Hl : last_char (lower (Path.suffix p)) = Some "n"%char
               \/ last_char (lower (Path.suffix p)) = Some "l"%char).
  { unfold Handler.HANDLED in H.
    apply elem_of_cons in H as [->|H]; [left; reflexivity|].
    apply elem_of_cons in H as [->|H]; [right; reflexivity|].
    apply elem_of_nil in H. destruct H. }
  assert (Hne : nonempty (Path.suffix p) = true).
  { destruct (Path.suffix p); [|reflexivity]. destruct Hl; discriminate. }
  rewrite PathFacts.last_char_lower, <- (last_char_to_str p Hne) in Hl.
  apply not_true_is_false. intros N.
  apply existsb_exists in N as (s & Hin & He).
  assert (Hs : nonempty s = true /\ exists c, last_char s = Some c
               /\ lower_char c <> "n"%char /\ lower_char c <> "l"%char).
  { unfold Handler.IGNORES in Hin.
    destruct Hin as [<-|[<-|[<-|[<-|[]]]]];
      (split; [reflexivity|eexists; split; [reflexivity|split; discriminate]]). }
  destruct Hs as (Hs & c & Hc & N1 & N2).
  rewrite (endswith_last_char s _ Hs He), Hc in Hl. cbn [option_map] in Hl.
  destruct Hl as [[= E]|[= E]]; contradiction.
Qed.

(** X18: the handler's test against the names of temporary files never
    decides anything: a path whose suffix, in lower case, is [.json] or
    [.jsonl] ends with none of [.tmp], [.part], [.crdownload] and [~],
    so every path that passes the test on the suffix passes this one
    too. *)
Theorem handled_suffix_is_never_ignored (p : path) :
  Handler.wanted p = true -> Handler.ignored p = false.
Proof. exact (wanted_not_ignored p). Qed.

Lemma handled_suffix_is_never_ignored_witness :
  Handler.ignored ["srv"; "data"; "inbox"; "report.tmp.JSON"] = false.
Proof.
  apply handled_suffix_is_never_ignored. vm_compute. reflexivity.
Defined.

(** ** What a sweep launches *)

Section Sweep.

Variable DATASETS : path.
Variable CHECKPOINTS : path.
Variable ev : env.

Lemma run_ingest_launched (q : path) (w : Watcher.state) :
  Watcher.launched (snd (Watcher.run_ingest ev q w))
  = Watcher.launched w ++ [q].
Proof.
  unfold Watcher.run_ingest.
  destruct (main ev q (Watcher.world w)) as [[[]|e|c] s]; try reflexivity.
  destruct (c =? 0); reflexivity.
Qed.

Lemma sweep_launched (candidates : list path) :
  forall (w : Watcher.state) (q : path),
    q ∈ Watcher.launched (snd (Watcher.sweep CHECKPOINTS ev candidates w)) ->
    q ∈ Watcher.launched w
    \/ (q ∈ candidates /\ Path.name q <> "MANIFEST.jsonl").
Proof.
  induction candidates as [|x candidates IH]; intros w q Hq;
    [left; exact Hq|].
  cbn [Watcher.sweep] in Hq.
  destruct (bool_decide (Path.name x ∈ Watcher.EXCLUDE_NAMES)) eqn:Ex.
  - destruct (IH w q Hq) as [H|[H N]]; [left; exact H|].
    right. split; [apply elem_of_cons; right; exact H|exact N].
  - apply bool_decide_eq_false in Ex.
    unfold bind, get in Hq.
    destruct (Path.exists_in (fs (Watcher.world w)) _
              || Path.exists_in (fs (Watcher.world w)) _).
    + destruct (IH w q Hq) as [H|[H N]]; [left; exact H|].
      right. split; [apply elem_of_cons; right; exact H|exact N].
    + pose proof (run_ingest_launched x w) as Hl.
      destruct (Watcher.run_ingest ev x w) as [[[]|e|c] w1] eqn:Er;
        cbn [snd] in Hl, Hq.
      * destruct (IH w1 q Hq) as [H|[H N]].
        -- rewrite Hl in H. apply elem_of_app in H as [H|H];
             [left; exact H|].
           apply list_elem_of_singleton in H. subst q. right.
           split; [apply elem_of_cons; left; reflexivity|].
           intros E. apply Ex. rewrite E. apply elem_of_cons. left.
           reflexivity.
        -- right. split; [apply elem_of_cons; right; exact H|exact N].
      * rewrite Hl in Hq. apply elem_of_app in Hq as [H|H];
          [left; exact H|].
        apply list_elem_of_singleton in H. subst q. right.
        split; [apply elem_of_cons; left; reflexivity|].
        intros E. apply Ex. rewrite E. apply elem_of_cons. left. reflexivity.
      * rewrite Hl in Hq. apply elem_of_app in Hq as [H|H];
          [left; exact H|].
        apply list_elem_of_singleton in H. subst q. right.
        split; [apply elem_of_cons; left; reflexivity|].
        intros E. apply Ex. rewrite E. apply elem_of_cons. left. reflexivity.
Qed.

End Sweep.

(** X19: a sweep launches the Ingestor only on files that exist below
    the dataset directory, have a name ending in [.jsonl] other than
    [MANIFEST.jsonl], and had neither a checkpoint nor a lock of their
    stem when the sweep began. *)
Theorem sweep_launches_only_pending (DATASETS CHECKPOINTS : path) (ev : env)
  (w : Watcher.state) (q : path) :
  q ∈ Watcher.launched
        (snd (Watcher.ingest_pending DATASETS CHECKPOINTS ev w)) ->
  q ∉ Watcher.launched w ->
  is_Some (fs (Watcher.world w) !! q)
  /\ Path.is_under DATASETS q = true
  /\ endswith ".jsonl" (Path.name q) = true
  /\ Path.name q <> "MANIFEST.jsonl"
  /\ fs (Watcher.world w) !! done_marker CHECKPOINTS q = None
  /\ fs (Watcher.world w) !! lock_marker CHECKPOINTS q = None.
Proof.
  intros Hq Hnew.
  assert (Hs : q ∈ Watcher.launched
                 (snd (Watcher.sweep CHECKPOINTS ev
                         (Watcher.rglob_jsonl DATASETS (fs (Watcher.world w)))
                         w))) by exact Hq.
  destruct (sweep_launched CHECKPOINTS ev _ w q Hs) as [H|[Hc Hn]];
    [contradiction|].
  unfold Watcher.rglob_jsonl in Hc.
  apply list_elem_of_In, filter_In in Hc as [Hin Hf].
  apply andb_true_iff in Hf as [Hf He]. apply andb_true_iff in Hf as [Hu _].
  apply list_elem_of_In, list_elem_of_fmap in Hin as ([q' t] & -> & Hin).
  apply elem_of_map_to_list in Hin. cbn [fst] in *.
  split; [rewrite Hin; eauto|]. split; [exact Hu|]. split; [exact He|].
  split; [exact Hn|].
  assert (Hm : ~ marked CHECKPOINTS q' (fs (Watcher.world w))).
  { intros M.
    exact (SharedMarkers.sweep_skips_marked CHECKPOINTS ev q' _ w M Hnew Hs). }
  split.
  - destruct (fs (Watcher.world w) !! done_marker CHECKPOINTS q') eqn:E;
      [|reflexivity].
    exfalso. apply Hm. left. rewrite E. eauto.
  - destruct (fs (Watcher.world w) !! lock_marker CHECKPOINTS q') eqn:E;
      [|reflexivity].
    exfalso. apply Hm. right. rewrite E. eauto.
Qed.

Lemma sweep_launches_only_pending_witness :
  Watcher.launched
    (snd (Watcher.ingest_pending ["srv"; "data"; "datasets"]
            Sample.checkpoints Sample.ev_ok
            {| Watcher.world := Sample.st_fresh; Watcher.launched := [] |}))
  = [Sample.dataset_file]
  /\ Path.name Sample.dataset_file <> "MANIFEST.jsonl".
Proof.
  split; [vm_compute; reflexivity|].
  apply (sweep_launches_only_pending ["srv"; "data"; "datasets"]
           Sample.checkpoints Sample.ev_ok
           {| Watcher.world := Sample.st_fresh; Watcher.launched := [] |}
           Sample.dataset_file).
  - vm_compute. apply list_elem_of_singleton. reflexivity.
  - cbn. apply not_elem_of_nil.
Defined.

End WatcherFacts.

Module SweepFacts.
Import Ingest IngestSpec IngestFacts IngestRun SweepSpec.

(** ** The Ingestor exits on its own before the gate only *)

Ltac exit_from H :=
  let E := fresh "E" in
  intros E; apply H; injection E as ->; reflexivity.

Lemma extract_scalar_fields_no_exit (r : json) (c : Z) :
  extract_scalar_fields r <> Exit c.
Proof.
  unfold extract_scalar_fields.
  destruct r as [| | | | | |d]; try discriminate.
  cbn [py_get].
  destruct (dict_get_default "important" (JDict []) d)
    as [| | | | | |imp]; try discriminate.
  cbn [py_get].
  destruct (dict_get_default "targets" (JDict []) imp)
    as [| | | | | |t]; discriminate.
Qed.

Lemma build_rows_no_exit (pairs : list (json * vector)) (c : Z) :
  build_rows pairs <> Exit c.
Proof.
  induction pairs as [|[r e] pairs IH]; [discriminate|].
  cbn [build_rows].
  pose proof (extract_scalar_fields_no_exit r) as Hx.
  destruct (extract_scalar_fields r) as [s|x|z]; [|discriminate|].
  - destruct (build_rows pairs) as [rows|x|z]; try discriminate.
    exact IH.
  - exfalso. exact (Hx z eq_refl).
Qed.

Lemma flush_batch_no_exit (ev : env) (name : string) (texts : list string)
  (records : list json) (st : state) (c : Z) :
  fst (flush_batch ev name texts records st) <> Exit c.
Proof.
  unfold flush_batch. destruct texts as [|t texts]; [discriminate|].
  unfold bind, model_encode, lift.
  destruct (encode ev (length (encoded st)) (t :: texts)) as [vs|];
    [|discriminate].
  pose proof (build_rows_no_exit (combine records vs)) as Hb.
  destruct (build_rows (combine records vs)) as [rows|x|z];
    [|discriminate|exfalso; exact (Hb z eq_refl)].
  unfold insert. cbn [store].
  destruct (store st !! name) as [k|]; [|discriminate].
  destruct (insert_ok ev (length (coll_batches k)) rows); discriminate.
Qed.

Lemma ingest_loop_no_exit (ev : env) (name : string) (b : Z)
  (recs : list json) (c : Z) :
  forall texts records total st,
    fst (ingest_loop ev name b recs texts records total st) <> Exit c.
Proof.
  induction recs as [|r recs IH]; intros texts records total st;
    [discriminate|].
  cbn [ingest_loop]. destruct (b <=? _); [|apply IH].
  unfold bind.
  pose proof (flush_batch_no_exit ev name
                (texts ++ [build_embedding_text r]) (records ++ [r]) st c)
    as Hf.
  destruct (flush_batch _ _ _ _ st) as [[z|x|z] st1]; cbn [fst] in *;
    [apply IH|discriminate|exit_from Hf].
Qed.

Lemma py_int_no_exit (ev : env) (v : json) (c : Z) : py_int ev v <> Exit c.
Proof.
  destruct v as [| | | | | |]; cbn [py_int]; try discriminate.
  - destruct (int_of_float ev lit); discriminate.
  - destruct (int_of_str s); discriminate.
Qed.

Lemma checkpoint_payload_no_exit (ev : env) (config : json) (p : path)
  (name : string) (total c : Z) :
  checkpoint_payload ev config p name total <> Exit c.
Proof.
  unfold checkpoint_payload.
  pose proof (py_get_no_exit config "model_name" (JStr "unknown")) as H1.
  pose proof (py_get_no_exit config "collection" (JDict [])) as H2.
  destruct (py_get config "model_name" (JStr "unknown")) as [m|x|z];
    [| |exfalso; exact (H1 z eq_refl)];
    (destruct (py_get config "collection" (JDict [])) as [k|y|z];
     [| |exfalso; exact (H2 z eq_refl)]); try discriminate.
  pose proof (py_get_no_exit k "dim" (JInt 384)) as H3.
  destruct (py_get k "dim" (JInt 384)) as [d|y|z]; try discriminate.
  exfalso. exact (H3 z eq_refl).
Qed.

Lemma locked_phase_no_exit (ev : env) (config : json) (name : string)
  (p root lock : path) (st : state) (c : Z) :
  fst (locked_phase ev config name p root lock st) <> Exit c.
Proof.
  unfold locked_phase.
  unfold bind at 1. unfold write_text at 1. unfold modify at 1.
  generalize (set_fs (fun f => <[lock := "lock"]> f) st). intros st0.
  unfold bind at 1, lift at 1.
  pose proof (py_get_no_exit config "model_name"
                (JStr "sentence-transformers/all-MiniLM-L6-v2")) as H1.
  destruct (py_get config "model_name" _) as [mn|x|z];
    [|discriminate|exfalso; exact (H1 z eq_refl)].
  unfold bind at 1.
  destruct (load_model_ok ev mn); [unfold ret at 1|discriminate].
  unfold bind at 1, lift at 1.
  pose proof (py_get_no_exit config "batch_size" (JInt 512)) as H2.
  destruct (py_get config "batch_size" _) as [bv|x|z];
    [|discriminate|exfalso; exact (H2 z eq_refl)].
  unfold bind at 1, lift at 1.
  pose proof (py_int_no_exit ev bv) as H3.
  destruct (py_int ev bv) as [b|x|z];
    [|discriminate|exfalso; exact (H3 z eq_refl)].
  unfold bind at 1, read_text at 1.
  destruct (fs st0 !! p) as [text|]; [|discriminate].
  unfold bind at 1.
  pose proof (ingest_loop_no_exit ev name b (stream_records text) c
                [] [] 0 st0) as H4.
  destruct (ingest_loop ev name b (stream_records text) [] [] 0 st0)
    as [[[[texts records] total]|x|z] st1]; cbn [fst] in H4;
    [|discriminate|exit_from H4].
  unfold bind at 1.
  pose proof (flush_batch_no_exit ev name texts records st1 c) as H5.
  destruct (flush_batch ev name texts records st1) as [[z|x|z] st2];
    cbn [fst] in H5; [|discriminate|exit_from H5].
  unfold bind at 1, lift at 1.
  pose proof (checkpoint_payload_no_exit ev config p name total) as H6.
  destruct (checkpoint_payload ev config p name total) as [payload|x|z0];
    [|discriminate|exfalso; exact (H6 z0 eq_refl)].
  unfold bind at 1, write_checkpoint_atomic, bind, write_text, replace,
    modify, ret.
  cbn [set_fs fs]. rewrite lookup_insert_eq. discriminate.
Qed.

Lemma gated_no_exit (ev : env) (p : path) (pre : json * string * path)
  (st : state) (c : Z) :
  fst (gated ev p pre st) <> Exit c.
Proof.
  destruct pre as [[config name] root]. unfold gated, bind, get, ret.
  destruct (Path.exists_in (fs st) (done_marker root p)); [discriminate|].
  destruct (Path.exists_in (fs st) (lock_marker root p)); [discriminate|].
  unfold try_finally.
  pose proof (locked_phase_no_exit ev config name p root
                (lock_marker root p) st c) as H.
  destruct (locked_phase ev config name p root (lock_marker root p) st)
    as [r s]. exact H.
Qed.

Lemma ensure_collection_no_exit (ev : env) (config : json) (st : state)
  (c : Z) :
  fst (ensure_collection ev config st) <> Exit c.
Proof.
  unfold ensure_collection, bind, lift, get, ret, raise.
  pose proof (py_get_no_exit config "collection" (JDict [])) as H1.
  destruct (py_get config "collection" (JDict [])) as [k|x|z];
    [|discriminate|exfalso; exact (H1 z eq_refl)].
  pose proof (py_get_no_exit k "name" (JStr "attacks_v2")) as H2.
  destruct (py_get k "name" (JStr "attacks_v2")) as [nm|x|z];
    [|discriminate|exfalso; exact (H2 z eq_refl)].
  pose proof (py_get_no_exit k "dim" (JInt 384)) as H3.
  destruct (py_get k "dim" (JInt 384)) as [dim|x|z];
    [|discriminate|exfalso; exact (H3 z eq_refl)].
  destruct nm as [| | | |nm| |]; try discriminate.
  pose proof (py_get_no_exit k "index_type" (JStr "HNSW")) as H4.
  pose proof (py_get_no_exit k "metric_type" (JStr "COSINE")) as H5.
  pose proof (py_get_no_exit k "index_params"
                (JDict [("M", JInt 16); ("efConstruction", JInt 200)])) as H6.
  assert (G : forall s0 : state,
            fst (match py_get k "index_type" (JStr "HNSW") with
                 | Ok it =>
                     match py_get k "metric_type" (JStr "COSINE") with
                     | Ok mt =>
                         match py_get k "index_params"
                                 (JDict [("M", JInt 16);
                                         ("efConstruction", JInt 200)]) with
                         | Ok ip =>
                             let '(r, s2) :=
                               create_index ev nm
                                 (JDict [("index_type", it);
                                         ("metric_type", mt);
                                         ("params", ip)]) s0 in
                             match r with
                             | Ok _ => (Ok nm, s2)
                             | Raise e => (Raise e, s2)
                             | Exit x => (Exit x, s2)
                             end
                         | Raise e => (Raise e, s0)
                         | Exit x => (Exit x, s0)
                         end
                     | Raise e => (Raise e, s0)
                     | Exit x => (Exit x, s0)
                     end
                 | Raise e => (Raise e, s0)
                 | Exit x => (Exit x, s0)
                 end) <> Exit c).
  { intros s0.
    destruct (py_get k "index_type" _) as [it|x|z];
      [|discriminate|exfalso; exact (H4 z eq_refl)].
    destruct (py_get k "metric_type" _) as [mt|x|z];
      [|discriminate|exfalso; exact (H5 z eq_refl)].
    destruct (py_get k "index_params" _) as [ip|x|z];
      [|discriminate|exfalso; exact (H6 z eq_refl)].
    unfold create_index, modify. discriminate. }
  destruct (store st !! nm) as [c0|]; [apply G|].
  destruct (create_collection_ok ev nm dim); [|discriminate].
  unfold modify. apply G.
Qed.

Lemma to_path_no_exit (ev : env) (v : json) (c : Z) : to_path ev v <> Exit c.
Proof. destruct v; discriminate. Qed.

Lemma preamble_exit (ev : env) (p : path) (st st1 : state) (c : Z) :
  preamble ev p st = (Exit c, st1) ->
  c = 2 /\ st1 = st /\ (fs st !! p = None \/ config_file ev = None).
Proof.
  unfold preamble, bind, get, lift, ret, sys_exit, raise.
  unfold Path.exists_in.
  destruct (fs st !! p) as [t|] eqn:Hp; cbn [negb].
  2: { intros [= <- <-]. auto. }
  unfold load_config. destruct (config_file ev) as [raw|];
    [|unfold sys_exit; intros [= <- <-]; auto].
  unfold ret. destruct (connect_ok ev); [|discriminate].
  set (cfg := if truthy raw then raw else JDict []).
  pose proof (ensure_collection_no_exit ev cfg st c) as He.
  destruct (ensure_collection ev cfg st) as [[nm|x|z] s1]; cbn [fst] in He;
    [|discriminate|intros [= -> _]; exfalso; exact (He eq_refl)].
  pose proof (py_get_no_exit cfg "paths" (JDict [])) as H1.
  destruct (py_get cfg "paths" (JDict [])) as [paths|x|z];
    [|discriminate|exfalso; exact (H1 z eq_refl)].
  pose proof (py_get_no_exit paths "checkpoints_root"
                (JStr "./data/checkpoints")) as H2.
  destruct (py_get paths "checkpoints_root" _) as [rt|x|z];
    [|discriminate|exfalso; exact (H2 z eq_refl)].
  pose proof (to_path_no_exit ev rt) as H3.
  destruct (to_path ev rt) as [cr|x|z];
    [discriminate|discriminate|exfalso; exact (H3 z eq_refl)].
Qed.

Lemma main_exit (ev : env) (p : path) (st st' : state) (c : Z) :
  main ev p st = (Exit c, st') ->
  c = 2 /\ st' = st /\ (fs st !! p = None \/ config_file ev = None).
Proof.
  rewrite main_split. unfold bind.
  destruct (preamble ev p st) as [[t|x|z] st1] eqn:Hpre.
  - intros H. pose proof (gated_no_exit ev p t st1 c) as G.
    rewrite H in G. exfalso. exact (G eq_refl).
  - discriminate.
  - intros [= -> <-]. exact (preamble_exit ev p st st1 c Hpre).
Qed.

(** X20: the Ingestor ends with an exit status of its own choosing in
    two cases only, the dataset file or the configuration file missing;
    the status is then 2 and nothing has been touched: no connection
    made, no collection created, no file written.  Every other failure
    is an exception. *)
Theorem ingestor_exits_before_anything (ev : env) (p : path) (st : state) :
  (forall c st', main ev p st = (Exit c, st') ->
     c = 2 /\ st' = st /\ (fs st !! p = None \/ config_file ev = None))
  /\ (fs st !! p = None \/ config_file ev = None ->
      main ev p st = (Exit 2, st)).
Proof.
  split; [intros c st'; apply main_exit|].
  unfold main, bind, get, sys_exit, Path.exists_in.
  destruct (fs st !! p) as [t|]; cbn [negb]; [|reflexivity].
  intros [H|H]; [discriminate|]. unfold load_config. rewrite H. reflexivity.
Qed.

Lemma ingestor_exits_before_anything_witness :
  main Sample.ev_ok Sample.dataset_twin Sample.st_fresh
  = (Exit 2, Sample.st_fresh).
Proof.
  apply (proj2 (ingestor_exits_before_anything Sample.ev_ok
                  Sample.dataset_twin Sample.st_fresh)).
  left. vm_compute. reflexivity.
Defined.

(** ** A sweep that returns *)

Lemma preamble_root (ev : env) (p : path) (st st1 : state)
  (config : json) (name : string) (root : path) :
  preamble ev p st = (Ok (config, name, root), st1) ->
  configured_root ev = Ok root.
Proof.
  unfold preamble, configured_root, bind, get, lift, ret, sys_exit, raise.
  destruct (negb (Path.exists_in (fs st) p)); [discriminate|].
  unfold load_config. destruct (config_file ev) as [raw|]; [|discriminate].
  unfold ret. destruct (connect_ok ev); [|discriminate].
  set (cfg := if truthy raw then raw else JDict []).
  destruct (ensure_collection ev cfg st) as [[nm| |] s1]; try discriminate.
  destruct (py_get cfg "paths" (JDict [])) as [paths| |]; try discriminate.
  destruct (py_get paths "checkpoints_root" (JStr "./data/checkpoints"))
    as [rt| |]; try discriminate.
  destruct (to_path ev rt) as [cr| |]; try discriminate.
  intros [= _ _ <- _]. reflexivity.
Qed.

Lemma main_ok_marked (ev : env) (q : path) (st st' : state) :
  main ev q st = (Ok tt, st') ->
  exists root, configured_root ev = Ok root /\ marked root q (fs st').
Proof.
  rewrite main_split. unfold bind.
  destruct (preamble ev q st) as [[[[config name] root]| |] st1] eqn:Hpre;
    try discriminate.
  intros Hg. exists root. split; [exact (preamble_root _ _ _ _ _ _ _ Hpre)|].
  destruct (Path.exists_in (fs st1) (done_marker root q)
            || Path.exists_in (fs st1) (lock_marker root q)) eqn:Hm.
  - rewrite (IngestGate.gated_closed ev q config name root st1 Hm) in Hg.
    injection Hg as <-. apply SharedMarkers.marked_exists. exact Hm.
  - apply orb_false_iff in Hm as [Hd Hl].
    assert (Hd' : fs st1 !! done_marker root q = None)
      by (unfold Path.exists_in in Hd; destruct (fs st1 !! _);
          [discriminate|reflexivity]).
    assert (Hl' : fs st1 !! lock_marker root q = None)
      by (unfold Path.exists_in in Hl; destruct (fs st1 !! _);
          [discriminate|reflexivity]).
    destruct (IngestGate.gated_open ev q config name root st1 (Ok tt) st'
                Hd' Hl' Hg) as [[N _]|(_ & text & payload & _ & _ & Hfs')].
    { exfalso. exact (N tt eq_refl). }
    left. rewrite Hfs', lookup_insert_eq. eauto.
Qed.

Section Sweep.

Variable CHECKPOINTS : path.
Variable ev : env.

Hypothesis same_root : configured_root ev = Ok CHECKPOINTS.

Lemma run_ingest_world (x : path) (w : Watcher.state) :
  Watcher.world (snd (Watcher.run_ingest ev x w))
  = snd (main ev x (Watcher.world w)).
Proof.
  unfold Watcher.run_ingest.
  destruct (main ev x (Watcher.world w)) as [[[]|e|c] s]; try reflexivity.
  destruct (c =? 0); reflexivity.
Qed.

Lemma run_ingest_ok_marked (x : path) (w w1 : Watcher.state) :
  Watcher.run_ingest ev x w = (Ok tt, w1) ->
  marked CHECKPOINTS x (fs (Watcher.world w1)).
Proof.
  unfold Watcher.run_ingest.
  destruct (main ev x (Watcher.world w)) as [[[]|e|c] s] eqn:Hm.
  - intros [= <-]. cbn [Watcher.world].
    destruct (main_ok_marked ev x _ _ Hm) as (root & Hr & M).
    rewrite same_root in Hr. injection Hr as <-. exact M.
  - discriminate.
  - destruct (main_exit ev x _ _ _ Hm) as (-> & _). discriminate.
Qed.

Lemma sweep_keeps_marked (q : path) (candidates : list path) :
  forall w : Watcher.state,
    marked CHECKPOINTS q (fs (Watcher.world w)) ->
    marked CHECKPOINTS q
      (fs (Watcher.world (snd (Watcher.sweep CHECKPOINTS ev candidates w)))).
Proof.
  induction candidates as [|x candidates IH]; intros w M; [exact M|].
  cbn [Watcher.sweep].
  destruct (bool_decide (Path.name x ∈ Watcher.EXCLUDE_NAMES)); [apply IH, M|].
  unfold bind, get.
  destruct (Path.exists_in (fs (Watcher.world w)) _
            || Path.exists_in (fs (Watcher.world w)) _); [apply IH, M|].
  pose proof (run_ingest_world x w) as Hw.
  pose proof (SharedMarkers.main_keeps_marked ev x (Watcher.world w)
                CHECKPOINTS q M) as M1.
  rewrite <- Hw in M1.
  destruct (Watcher.run_ingest ev x w) as [[[]|e|c] w1]; cbn [snd] in *;
    [apply IH, M1|exact M1|exact M1].
Qed.

Lemma sweep_ok_all_marked (candidates : list path) :
  forall w w' : Watcher.state,
    Watcher.sweep CHECKPOINTS ev candidates w = (Ok tt, w') ->
    forall q, q ∈ candidates -> Path.name q <> "MANIFEST.jsonl" ->
              marked CHECKPOINTS q (fs (Watcher.world w')).
Proof.
  induction candidates as [|x candidates IH]; intros w w' Hs q Hq Hn.
  - apply elem_of_nil in Hq. destruct Hq.
  - cbn [Watcher.sweep] in Hs.
    destruct (bool_decide (Path.name x ∈ Watcher.EXCLUDE_NAMES)) eqn:Ex.
    + apply bool_decide_eq_true in Ex.
      apply list_elem_of_singleton in Ex.
      apply elem_of_cons in Hq as [->|Hq]; [contradiction|].
      exact (IH w w' Hs q Hq Hn).
    + unfold bind, get in Hs.
      destruct (Path.exists_in (fs (Watcher.world w))
                  (Path.child CHECKPOINTS (Path.stem x +:+ ".done"))
                || Path.exists_in (fs (Watcher.world w))
                     (Path.child CHECKPOINTS (Path.stem x +:+ ".lock")))
        eqn:Hm.
      * apply elem_of_cons in Hq as [->|Hq]; [|exact (IH w w' Hs q Hq Hn)].
        apply SharedMarkers.marked_exists in Hm.
        pose proof (sweep_keeps_marked x candidates w Hm) as K.
        rewrite Hs in K. exact K.
      * destruct (Watcher.run_ingest ev x w) as [[[]|e|c] w1] eqn:Er;
          try discriminate.
        apply elem_of_cons in Hq as [->|Hq]; [|exact (IH w1 w' Hs q Hq Hn)].
        pose proof (sweep_keeps_marked x candidates w1
                      (run_ingest_ok_marked x w w1 Er)) as K.
        rewrite Hs in K. exact K.
Qed.

End Sweep.

(** X21: when the Ingestor reads from its configuration the directory of
    markers that the watcher looks into, a sweep that returns normally
    leaves nothing pending: every file below the dataset directory with a
    name ending in [.jsonl], the manifests apart, has a checkpoint or a
    lock. *)
Theorem finished_sweep_leaves_nothing_pending (DATASETS CHECKPOINTS : path)
  (ev : env) (w w' : Watcher.state) (q : path) :
  configured_root ev = Ok CHECKPOINTS ->
  Watcher.ingest_pending DATASETS CHECKPOINTS ev w = (Ok tt, w') ->
  q ∈ Watcher.rglob_jsonl DATASETS (fs (Watcher.world w)) ->
  Path.name q <> "MANIFEST.jsonl" ->
  marked CHECKPOINTS q (fs (Watcher.world w')).
Proof.
  intros Hroot Hs Hq Hn.
  exact (sweep_ok_all_marked CHECKPOINTS ev Hroot _ w w' Hs q Hq Hn).
Qed.

Lemma finished_sweep_leaves_nothing_pending_witness :
  marked Sample.checkpoints Sample.dataset_twin
    (fs (Watcher.world
           (snd (Watcher.ingest_pending ["srv"; "data"; "datasets"]
                   Sample.checkpoints Sample.ev_ok
                   {| Watcher.world := Sample.st_twins;
                      Watcher.launched := [] |})))).
Proof.
  apply (finished_sweep_leaves_nothing_pending ["srv"; "data"; "datasets"]
           Sample.checkpoints Sample.ev_ok
           {| Watcher.world := Sample.st_twins; Watcher.launched := [] |}).
  - vm_compute. reflexivity.
  - vm_compute. reflexivity.
  - apply list_elem_of_In. vm_compute. auto.
  - vm_compute. discriminate.
Defined.

End SweepFacts.

Module HandlerFacts.
Import Handler.

Section WithPaths.

Variable ROOT : path.
Variable DATASETS : path.
Variable CHECKPOINTS : path.
Variable ev : Ingest.env.
Variable stable : path -> bool.
Variable now : string.

(** An event that passes every test of the handler at the time [t]. *)
Lemma process_accepted (t : Z) (e : event) (st : state) :
  is_directory e = false ->
  wanted (src_path e) = true ->
  Path.exists_in (files_of st) (src_path e) = true ->
  stable (src_path e) = true ->
  debounce_ms st
  <= t - match last_ts st !! src_path e with Some x => x | None => 0 end ->
  maybe_process ROOT DATASETS CHECKPOINTS ev stable now t e st
  = try_except
      (bind (normalize_one ROOT now (src_path e))
         (fun _ => ingest_pending DATASETS CHECKPOINTS ev))
      (fun x =>
         match x with
         | ExternalError "CalledProcessError" => ret tt
         | _ => raise x
         end)
      {| pipeline := pipeline st; nlog := nlog st;
         normalized := normalized st; debounce_ms := debounce_ms st;
         last_ts := <[src_path e := t]> (last_ts st) |}.
Proof.
  intros Hd Hw Hex Hst Hdeb. unfold maybe_process.
  rewrite Hd, Hw, (WatcherFacts.wanted_not_ignored _ Hw). cbn [negb].
  unfold bind at 1. unfold is_ready, bind, get, ret.
  rewrite Hex, Hst. cbn [negb andb].
  destruct (t - _ <? debounce_ms st) eqn:E;
    [apply Z.ltb_lt in E; lia|].
  unfold modify. reflexivity.
Qed.

(** Normalizing and sweeping leave the handler's own fields alone. *)
Lemma normalize_one_fields (src : path) (st : state) :
  last_ts (snd (normalize_one ROOT now src st)) = last_ts st
  /\ debounce_ms (snd (normalize_one ROOT now src st)) = debounce_ms st.
Proof.
  unfold normalize_one.
  destruct (Normalize.main ROOT now [src] _) as [[[]|x|c] n];
    try (split; reflexivity).
  destruct (c =? 0); split; reflexivity.
Qed.

Lemma ingest_pending_fields (st : state) :
  last_ts (snd (ingest_pending DATASETS CHECKPOINTS ev st)) = last_ts st
  /\ debounce_ms (snd (ingest_pending DATASETS CHECKPOINTS ev st))
     = debounce_ms st.
Proof.
  unfold ingest_pending.
  destruct (Watcher.ingest_pending DATASETS CHECKPOINTS ev (pipeline st))
    as [r w]. split; reflexivity.
Qed.

Lemma handler_state (x : exn) (s : state) :
  snd (match x with
       | ExternalError "CalledProcessError" => ret tt
       | _ => raise x
       end s : result unit * state) = s.
Proof.
  destruct x as [m|m|m|k|q|m|m]; try reflexivity.
  unfold ret, raise.
  repeat match goal with
         | |- context [match ?t with EmptyString => _ | String _ _ => _ end] =>
             destruct t
         | |- context [match ?a with Ascii _ _ _ _ _ _ _ _ => _ end] =>
             destruct a
         | |- context [if ?b then _ else _] => destruct b
         end; reflexivity.
Qed.

Lemma work_fields (p : path) (st : state) :
  let st1 :=
    snd (try_except
           (bind (normalize_one ROOT now p)
              (fun _ => ingest_pending DATASETS CHECKPOINTS ev))
           (fun x =>
              match x with
              | ExternalError "CalledProcessError" => ret tt
              | _ => raise x
              end) st) in
  last_ts st1 = last_ts st /\ debounce_ms st1 = debounce_ms st.
Proof.
  cbn zeta. unfold try_except, bind.
  pose proof (normalize_one_fields p st) as [H1 H2].
  destruct (normalize_one ROOT now p st) as [[[]|x|c] s1]; cbn [snd] in *.
  - pose proof (ingest_pending_fields s1) as [H3 H4].
    destruct (ingest_pending DATASETS CHECKPOINTS ev s1) as [[[]|x|c] s2];
      cbn [snd] in *; try (split; congruence).
    rewrite (handler_state x s2). split; congruence.
  - rewrite (handler_state x s1). split; congruence.
  - split; congruence.
Qed.

End WithPaths.

(** X22: once an event for a path has passed the handler's tests at the
    time [t1], whatever became of the submission, an event for the same
    path less than [debounce_ms] later does nothing at all: the handler
    returns, and neither the Normalizer nor the Ingestor is launched. *)
Theorem repeated_event_is_dropped (ROOT DATASETS CHECKPOINTS : path)
  (ev : Ingest.env) (stable : path -> bool) (now : string) (t1 t2 : Z)
  (e : event) (st : state) :
  is_directory e = false ->
  wanted (src_path e) = true ->
  Path.exists_in (files_of st) (src_path e) = true ->
  stable (src_path e) = true ->
  debounce_ms st
  <= t1 - match last_ts st !! src_path e with Some x => x | None => 0 end ->
  t2 - t1 < debounce_ms st ->
  let st1 :=
    snd (maybe_process ROOT DATASETS CHECKPOINTS ev stable now t1 e st) in
  last_ts st1 !! src_path e = Some t1
  /\ maybe_process ROOT DATASETS CHECKPOINTS ev stable now t2 e st1
     = (Ok tt, st1).
Proof.
  intros Hd Hw Hex Hst Hdeb Hlt. cbn zeta.
  rewrite (process_accepted ROOT DATASETS CHECKPOINTS ev stable now
             t1 e st Hd Hw Hex Hst Hdeb).
  match goal with |- context [try_except ?m ?h ?s] =>
    pose proof (work_fields ROOT DATASETS CHECKPOINTS ev now (src_path e) s)
      as [Hts Hdb];
    set (st1 := snd (try_except m h s)) in *
  end.
  cbn [last_ts debounce_ms] in Hts, Hdb.
  assert (Hlast : last_ts st1 !! src_path e = Some t1)
    by (rewrite Hts; apply lookup_insert_eq).
  split; [exact Hlast|].
  unfold maybe_process.
  rewrite Hd, Hw, (WatcherFacts.wanted_not_ignored _ Hw). cbn [negb].
  unfold bind at 1. unfold is_ready, bind, get, ret.
  destruct (Path.exists_in (files_of st1) (src_path e)); cbn [negb andb];
    [|reflexivity].
  rewrite Hst. cbn [negb]. rewrite Hlast, Hdb.
  destruct (t2 - t1 <? debounce_ms st) eqn:E; [reflexivity|].
  apply Z.ltb_ge in E. lia.
Qed.

(** X23: when the Normalizer ends with a status other than zero on the
    submission of an event, the handler does not start a sweep: it
    returns normally, the files are as the Normalizer left them, no
    Ingestor is launched, and the vector store is untouched. *)
Theorem refused_submission_starts_no_sweep (ROOT DATASETS CHECKPOINTS : path)
  (ev : Ingest.env) (stable : path -> bool) (now : string) (t : Z)
  (e : event) (st : state) (c : Z) (n : Normalize.state) :
  is_directory e = false ->
  wanted (src_path e) = true ->
  Path.exists_in (files_of st) (src_path e) = true ->
  stable (src_path e) = true ->
  debounce_ms st
  <= t - match last_ts st !! src_path e with Some x => x | None => 0 end ->
  Normalize.main ROOT now [src_path e]
    {| Normalize.fs := files_of st; Normalize.log := nlog st |}
  = (Exit c, n) ->
  c <> 0 ->
  exists st',
    maybe_process ROOT DATASETS CHECKPOINTS ev stable now t e st
    = (Ok tt, st')
    /\ files_of st' = Normalize.fs n
    /\ nlog st' = Normalize.log n
    /\ normalized st' = normalized st ++ [src_path e]
    /\ Watcher.launched (pipeline st') = Watcher.launched (pipeline st)
    /\ Ingest.store (Watcher.world (pipeline st'))
       = Ingest.store (Watcher.world (pipeline st))
    /\ Ingest.encoded (Watcher.world (pipeline st'))
       = Ingest.encoded (Watcher.world (pipeline st)).
Proof.
  intros Hd Hw Hex Hst Hdeb Hrun Hc.
  rewrite (process_accepted ROOT DATASETS CHECKPOINTS ev stable now
             t e st Hd Hw Hex Hst Hdeb).
  unfold try_except, bind, normalize_one. cbn [pipeline nlog].
  unfold files_of in Hrun. rewrite Hrun.
  destruct (c =? 0) eqn:E; [apply Z.eqb_eq in E; contradiction|].
  eexists. split; [reflexivity|]. repeat split.
Qed.

Lemma refused_submission_starts_no_sweep_witness :
  exists st',
    maybe_process NormalizeSpec.root ["srv"; "data"; "datasets"]
      Sample.checkpoints Sample.ev_ok (fun _ => true)
      "2025-01-01T00:00:00+00:00" 5000
      {| is_directory := false; src_path := NormalizeSpec.inbox_json |}
      (new_handler
         {| Watcher.world :=
              Sample.st_of {[ NormalizeSpec.inbox_json := "{not json" ]};
            Watcher.launched := [] |})
    = (Ok tt, st')
    /\ Watcher.launched (pipeline st') = [].
Proof.
  destruct (refused_submission_starts_no_sweep NormalizeSpec.root
              ["srv"; "data"; "datasets"] Sample.checkpoints Sample.ev_ok
              (fun _ => true) "2025-01-01T00:00:00+00:00" 5000
              {| is_directory := false;
                 src_path := NormalizeSpec.inbox_json |}
              (new_handler
                 {| Watcher.world :=
                      Sample.st_of
                        {[ NormalizeSpec.inbox_json := "{not json" ]};
                    Watcher.launched := [] |})
              2
              (snd (Normalize.main NormalizeSpec.root
                      "2025-01-01T00:00:00+00:00" [NormalizeSpec.inbox_json]
                      {| Normalize.fs :=
                           {[ NormalizeSpec.inbox_json := "{not json" ]};
                         Normalize.log := [] |})))
    as (st' & Hrun & _ & _ & _ & Hl & _).
  - reflexivity.
  - vm_compute. reflexivity.
  - vm_compute. reflexivity.
  - reflexivity.
  - vm_compute. discriminate.
  - vm_compute. reflexivity.
  - discriminate.
  - exists st'. split; [exact Hrun|exact Hl].
Defined.

Lemma repeated_event_is_dropped_witness :
  let st0 :=
    new_handler
      {| Watcher.world :=
           Sample.st_of {[ NormalizeSpec.inbox_json := "{not json" ]};
         Watcher.launched := [] |} in
  let e := {| is_directory := false;
              src_path := NormalizeSpec.inbox_json |} in
  let run := maybe_process NormalizeSpec.root ["srv"; "data"; "datasets"]
               Sample.checkpoints Sample.ev_ok (fun _ => true)
               "2025-01-01T00:00:00+00:00" in
  run 5900 e (snd (run 5000 e st0)) = (Ok tt, snd (run 5000 e st0)).
Proof.
  cbn zeta.
  apply (repeated_event_is_dropped NormalizeSpec.root
           ["srv"; "data"; "datasets"] Sample.checkpoints Sample.ev_ok
           (fun _ => true) "2025-01-01T00:00:00+00:00" 5000 5900).
  - reflexivity.
  - vm_compute. reflexivity.
  - vm_compute. reflexivity.
  - reflexivity.
  - vm_compute. discriminate.
  - vm_compute. reflexivity.
Defined.

End HandlerFacts.

Module PreviewFacts.
Import PreviewCli.

(** ** The loop of the preview *)

Lemma preview_loop_spec (max_examples : nat) (lines : list string) :
  forall total examples out,
    (length examples <= max_examples)%nat ->
    exists out',
      preview_loop lines max_examples total examples out
      = (total + Z.of_nat (length (IntakeSpec.records_of lines)),
         examples
         ++ take (max_examples - length examples)
              (map Preview.build_embedding_text (IntakeSpec.records_of lines)),
         out ++ out')
      /\ Forall (fun x => x = Skipping) out'
      /\ length out'
         = length (List.filter
                     (fun line => nonempty (strip line)
                                  && negb (IngestSpec.parses line)) lines).
Proof.
  induction lines as [|line lines IH]; intros total examples out Hlen.
  - exists [].
    change (IntakeSpec.records_of []) with (@nil json).
    cbn [preview_loop map length].
    rewrite Z.add_0_r, take_nil, !app_nil_r. repeat split. constructor.
  - cbn [preview_loop List.filter]. rewrite Intake.records_of_cons.
    unfold IngestSpec.parses.
    destruct (nonempty (strip line)) eqn:Hne; cbn [negb andb].
    + destruct (loads (strip line)) as [obj|] eqn:Hl; cbn [negb].
      * destruct (length examples <? max_examples)%nat eqn:Hlt.
        -- apply Nat.ltb_lt in Hlt.
           destruct (IH (total + 1)
                       (examples ++ [Preview.build_embedding_text obj]) out)
             as (out' & Hrun & Hall & Hcount).
           { rewrite length_app. cbn [length]. lia. }
           exists out'. rewrite Hrun. split; [|split; assumption].
           cbn [length map]. rewrite length_app. cbn [length].
           replace (max_examples - length examples)%nat
             with (S (max_examples - (length examples + 1))) by lia.
           cbn [take]. rewrite <- app_assoc. cbn [app].
           f_equal. f_equal. lia.
        -- apply Nat.ltb_ge in Hlt.
           destruct (IH (total + 1) examples out Hlen)
             as (out' & Hrun & Hall & Hcount).
           exists out'. rewrite Hrun. split; [|split; assumption].
           cbn [length map].
           replace (max_examples - length examples)%nat with 0%nat by lia.
           rewrite !take_0. f_equal. f_equal. lia.
      * destruct (IH total examples (out ++ [Skipping]) Hlen)
          as (out' & Hrun & Hall & Hcount).
        exists (Skipping :: out'). rewrite Hrun.
        split; [rewrite <- app_assoc; reflexivity|].
        split; [constructor; [reflexivity|exact Hall]|].
        cbn [length]. rewrite Hcount. reflexivity.
    + exact (IH total examples out Hlen).
Qed.

(** X24: the preview counts exactly the records that the Ingestor's
    reader yields from the same text, shows the embedding text of the
    first [max_examples] of them, in order, and prints one line per line
    of the text that is not blank and does not parse, before the
    count. *)
Theorem preview_counts_what_is_ingested (text : string) (max_examples : nat) :
  exists skipped,
    preview text max_examples
    = skipped
      ++ [Line ("Records: "
                +:+ str_int (Z.of_nat (length (Ingest.stream_records text))))]
      ++ print_examples 1
           (take max_examples
              (map Preview.build_embedding_text (Ingest.stream_records text)))
    /\ Forall (fun x => x = Skipping) skipped
    /\ length skipped
       = length (List.filter
                   (fun line => nonempty (strip line)
                                && negb (IngestSpec.parses line))
                   (splitlines text)).
Proof.
  unfold preview.
  destruct (preview_loop_spec max_examples (splitlines text) 0 [] [])
    as (out' & Hrun & Hall & Hcount); [cbn; lia|].
  rewrite Hrun. exists out'. split; [|split; assumption].
  rewrite Intake.stream_records_of. cbn [app length].
  rewrite Nat.sub_0_r, Z.add_0_l. reflexivity.
Qed.

(** ** The two readers and the two configurations *)

Lemma real_stream_records_of (lines : list string) :
  RealConfig.stream_records_of lines = IntakeSpec.records_of lines.
Proof.
  induction lines as [|line lines IH]; [reflexivity|].
  cbn [RealConfig.stream_records_of]. rewrite Intake.records_of_cons, IH.
  destruct (nonempty (strip line)); cbn [negb]; [|reflexivity].
  destruct (loads (strip line)); reflexivity.
Qed.

(** X25: the dry run of [embeddings_real.py] works on what the Ingestor
    will work on: its reader yields the same records from a text as the
    Ingestor's, and whenever the Ingestor accepts the batch size of a
    configuration the dry run takes the same, falling back to 512 where
    the Ingestor raises. *)
Theorem dry_run_agrees_with_ingestor (ev : Ingest.env) (raw : json)
  (text : string) :
  Ingest.config_file ev = Some raw ->
  RealConfig.stream_records text = Ingest.stream_records text
  /\ snd (RealConfig.load_config ev)
     = match IngestSpec.configured_batch_size ev
               (if truthy raw then raw else JDict []) with
       | Ok b => b
       | _ => 512
       end.
Proof.
  intros Hc. split.
  - unfold RealConfig.stream_records.
    rewrite real_stream_records_of, Intake.stream_records_of. reflexivity.
  - unfold RealConfig.load_config, IngestSpec.configured_batch_size.
    rewrite Hc.
    destruct (if truthy raw then raw else JDict []) as [| | | | | |d];
      try reflexivity.
    cbn [Ingest.py_get snd]. unfold dict_get_default.
    destruct (dict_get "batch_size" d) as [v|]; [|reflexivity].
    destruct (Ingest.py_int ev v); reflexivity.
Qed.

Lemma dry_run_agrees_with_ingestor_witness :
  snd (RealConfig.load_config Sample.ev_ok) = 2
  /\ RealConfig.stream_records Sample.five_records
     = Ingest.stream_records Sample.five_records.
Proof.
  destruct (dry_run_agrees_with_ingestor Sample.ev_ok
              (JDict [("batch_size", JInt 2)]) Sample.five_records eq_refl)
    as [Hs Hb].
  split; [rewrite Hb; reflexivity|exact Hs].
Defined.

End PreviewFacts.
